(** * AutoSplit pipeline: a shallow embedding of the squad's scripts

    The development follows the JavaScript sources of the AutoSplit squad
    (pdf-ingester.js, quality-profiler.js, page-segmenter.js, ocr-router.js,
    md-exporter.js, autosplit-pipeline.js and the Stage 5.6 block of the
    end-to-end test driver).

    Conventions of the embedding:
    - a JavaScript string is the list of its UTF-16 code units ([jsstring]);
      string literals of the sources are written as Rocq strings in UTF-8 and
      decoded by [js];
    - a JavaScript number that the code uses as a count or an index is a [nat]
      or a [Z]; scores, ratios and confidences are rationals ([Q]). A value
      stored with two decimals by [Math.round(x * 100) / 100] is the double
      nearest to [n / 100] and is written as the rational [n / 100]. Where
      the argument of that rounding can lie on a half in exact arithmetic
      (the confidences of the classifier and the overall confidence of the
      hybrid extraction) it is computed in double precision ([F64]);
      elsewhere the argument is a multiple of 1/13 or of 1/100, which the
      rounding errors of the doubles cannot move across a half, and the
      rounding is done on the exact value ([round2]);
    - a regular expression is kept by its source text, exactly as written in
      the script, and interpreted by a backtracking matcher ([rmatch]) that
      follows the priority order of the ECMAScript matcher for the constructs
      the scripts use;
    - the file system, the clock and the external tools are inputs. *)

From Stdlib Require Import List Bool Arith NArith ZArith QArith Qround Qpower.
From Stdlib Require Import String Ascii Lia Lqa Permutation Sorted.
Import ListNotations.
Open Scope string_scope.
Open Scope list_scope.

Set Implicit Arguments.
Unset Strict Implicit.

(* ================================================================== *)
(** ** JavaScript strings *)
(* ================================================================== *)

Module JS.

Definition jsstring := list N.

(** UTF-8 decoding of a Rocq string literal into UTF-16 code units. *)
Definition byte_of (a : ascii) : N := N_of_ascii a.

Fixpoint bytes (s : string) : list N :=
  match s with
  | EmptyString => []
  | String a s' => byte_of a :: bytes s'
  end.

Definition cont (b : N) : N := N.land b 63.

Definition surrogates (cp : N) : list N :=
  if (cp <? 65536)%N then [cp]
  else let v := (cp - 65536)%N in
       [(55296 + N.shiftr v 10)%N; (56320 + N.land v 1023)%N].

Fixpoint utf8 (fuel : nat) (l : list N) : jsstring :=
  match fuel with
  | O => []
  | S fuel' =>
    match l with
    | [] => []
    | b0 :: l1 =>
      if (b0 <? 128)%N then b0 :: utf8 fuel' l1
      else if (b0 <? 224)%N then
        match l1 with
        | b1 :: l2 => (N.land b0 31 * 64 + cont b1)%N :: utf8 fuel' l2
        | _ => [65533%N]
        end
      else if (b0 <? 240)%N then
        match l1 with
        | b1 :: b2 :: l3 =>
          (N.land b0 15 * 4096 + cont b1 * 64 + cont b2)%N :: utf8 fuel' l3
        | _ => [65533%N]
        end
      else
        match l1 with
        | b1 :: b2 :: b3 :: l4 =>
          surrogates (N.land b0 7 * 262144 + cont b1 * 4096 + cont b2 * 64 + cont b3)%N
            ++ utf8 fuel' l4
        | _ => [65533%N]
        end
    end
  end.

Definition js (s : string) : jsstring :=
  let l := bytes s in utf8 (List.length l) l.

Fixpoint eqb (a b : jsstring) : bool :=
  match a, b with
  | [], [] => true
  | x :: a', y :: b' => (x =? y)%N && eqb a' b'
  | _, _ => false
  end.

(** [WhiteSpace] and [LineTerminator] of ECMAScript: what [\s] matches and
    what [String.prototype.trim] removes. *)
Definition ws_ranges : list (N * N) :=
  [(9, 13); (32, 32); (160, 160); (5760, 5760); (8192, 8202); (8232, 8233);
   (8239, 8239); (8287, 8287); (12288, 12288); (65279, 65279)]%N.

Definition not_ws_ranges : list (N * N) :=
  [(0, 8); (14, 31); (33, 159); (161, 5759); (5761, 8191); (8203, 8231);
   (8234, 8238); (8240, 8286); (8288, 12287); (12289, 65278); (65280, 65535)]%N.

Definition in_ranges (rs : list (N * N)) (c : N) : bool :=
  existsb (fun r => (fst r <=? c)%N && (c <=? snd r)%N) rs.

Definition is_ws (c : N) : bool := in_ranges ws_ranges c.

Fixpoint trimStart (s : jsstring) : jsstring :=
  match s with
  | c :: s' => if is_ws c then trimStart s' else s
  | [] => []
  end.

Definition trimEnd (s : jsstring) : jsstring := rev (trimStart (rev s)).

Definition trim (s : jsstring) : jsstring := trimEnd (trimStart s).

(** [s.split('\n')]: always at least one piece. *)
Fixpoint split_on (sep : N) (s : jsstring) : list jsstring :=
  match s with
  | [] => [[]]
  | c :: s' =>
    if (c =? sep)%N then [] :: split_on sep s'
    else match split_on sep s' with
         | l :: ls => (c :: l) :: ls
         | [] => [[c]]
         end
  end.

Definition lines (s : jsstring) : list jsstring := split_on 10%N s.

(** [a.join(sep)]. *)
Fixpoint join (sep : jsstring) (l : list jsstring) : jsstring :=
  match l with
  | [] => []
  | [x] => x
  | x :: l' => x ++ sep ++ join sep l'
  end.

Definition nl : jsstring := [10%N].

(** [a.slice(0, n)] and [a.slice(-n)] on arrays. *)
Definition slice_first {A} (n : nat) (l : list A) : list A := firstn n l.
Definition slice_last {A} (n : nat) (l : list A) : list A :=
  skipn (List.length l - n) l.

(** Simple case mapping on the Latin-1 letters; the scripts' patterns only
    contain ASCII and Latin-1 letters, for which this coincides with the
    canonicalisation of the ECMAScript matcher under the [i] flag. *)
Definition lower1 (c : N) : N :=
  if ((65 <=? c) && (c <=? 90))%N then (c + 32)%N
  else if ((192 <=? c) && (c <=? 222) && negb (c =? 215))%N then (c + 32)%N
  else c.

Definition upper1 (c : N) : N :=
  if ((97 <=? c) && (c <=? 122))%N then (c - 32)%N
  else if ((224 <=? c) && (c <=? 254) && negb (c =? 247))%N then (c - 32)%N
  else c.

End JS.

Import JS.

(* ================================================================== *)
(** ** Regular expressions of the scripts *)
(* ================================================================== *)

Module Re.

(** The constructs that occur in the scripts' patterns. A character set is a
    list of inclusive code-unit ranges, possibly negated. *)
Inductive regex : Type :=
| REps
| RSet (neg : bool) (rs : list (N * N))
| RSeq (a b : regex)
| RAlt (a b : regex)
| RStar (greedy : bool) (a : regex)
| RBol
| REol
| RWordB.

Record flags := { ignoreCase : bool; multiline : bool }.

Definition fl_none := {| ignoreCase := false; multiline := false |}.
Definition fl_i := {| ignoreCase := true; multiline := false |}.
Definition fl_im := {| ignoreCase := true; multiline := true |}.

Definition is_line_term (c : N) : bool :=
  ((c =? 10) || (c =? 13) || (c =? 8232) || (c =? 8233))%N.

Definition is_word (c : N) : bool :=
  (((48 <=? c) && (c <=? 57)) || ((65 <=? c) && (c <=? 90))
   || ((97 <=? c) && (c <=? 122)) || (c =? 95))%N.

Definition is_word_o (o : option N) : bool :=
  match o with Some c => is_word c | None => false end.

Definition set_mem (f : flags) (neg : bool) (rs : list (N * N)) (c : N) : bool :=
  let pos :=
    if ignoreCase f
    then in_ranges rs c || in_ranges rs (lower1 c) || in_ranges rs (upper1 c)
    else in_ranges rs c in
  if neg then negb pos else pos.

Definition at_bol (f : flags) (prev : option N) : bool :=
  match prev with
  | None => true
  | Some c => multiline f && is_line_term c
  end.

Definition at_eol (f : flags) (s : jsstring) : bool :=
  match s with
  | [] => true
  | c :: _ => multiline f && is_line_term c
  end.

(** The state of a match is the code unit before the position (for [^] and
    [\b]) and the rest of the input. [rmatch] returns what the continuation
    returns on the first path that succeeds, alternatives being tried in the
    order of the ECMAScript matcher (left alternative first, greedy
    iterations longest first, lazy ones shortest first); an iteration that
    consumes nothing is rejected. *)
Definition pos := (option N * jsstring)%type.

Fixpoint rmatch (f : flags) (r : regex) (prev : option N) (s : jsstring)
         (k : option N -> jsstring -> option pos) {struct r} : option pos :=
  match r with
  | REps => k prev s
  | RSet neg rs =>
    match s with
    | c :: s' => if set_mem f neg rs c then k (Some c) s' else None
    | [] => None
    end
  | RSeq a b => rmatch f a prev s (fun p' s' => rmatch f b p' s' k)
  | RAlt a b =>
    match rmatch f a prev s k with
    | Some x => Some x
    | None => rmatch f b prev s k
    end
  | RStar g a =>
    (fix star (n : nat) (prev : option N) (s : jsstring) {struct n} : option pos :=
       match n with
       | O => k prev s
       | S n' =>
         if g then
           match rmatch f a prev s
                   (fun p' s' => if (List.length s' <? List.length s)%nat
                                 then star n' p' s' else None) with
           | Some x => Some x
           | None => k prev s
           end
         else
           match k prev s with
           | Some x => Some x
           | None =>
             rmatch f a prev s
               (fun p' s' => if (List.length s' <? List.length s)%nat
                             then star n' p' s' else None)
           end
       end) (S (List.length s)) prev s
  | RBol => if at_bol f prev then k prev s else None
  | REol => if at_eol f s then k prev s else None
  | RWordB =>
    if xorb (is_word_o prev) (is_word_o (hd_error s)) then k prev s else None
  end.

(** A match that starts exactly at the given position. *)
Definition match_here (f : flags) (r : regex) (prev : option N) (s : jsstring)
  : option pos :=
  rmatch f r prev s (fun p' s' => Some (p', s')).

(** Leftmost match: the index where it starts and the position after it. *)
Fixpoint find_from (f : flags) (r : regex) (prev : option N) (s : jsstring)
         (idx : nat) : option (nat * pos) :=
  match match_here f r prev s with
  | Some p => Some (idx, p)
  | None =>
    match s with
    | [] => None
    | c :: s' => find_from f r (Some c) s' (S idx)
    end
  end.

Definition find (f : flags) (r : regex) (s : jsstring) : option (nat * pos) :=
  find_from f r None s 0.

(** [re.test(s)] for a pattern without the [g] flag. *)
Definition test (f : flags) (r : regex) (s : jsstring) : bool :=
  match find f r s with Some _ => true | None => false end.

(** [s.replace(re, repl)] with the [g] flag, for a replacement text without
    [$] references. An empty match advances by one code unit. *)
Fixpoint replace_from (fuel : nat) (f : flags) (r : regex) (repl : jsstring)
         (prev : option N) (s : jsstring) : jsstring :=
  match fuel with
  | O => s
  | S fuel' =>
    match match_here f r prev s with
    | Some (p', s') =>
      if (List.length s' <? List.length s)%nat
      then repl ++ replace_from fuel' f r repl p' s'
      else match s with
           | [] => repl
           | c :: s1 => repl ++ c :: replace_from fuel' f r repl (Some c) s1
           end
    | None =>
      match s with
      | [] => []
      | c :: s1 => c :: replace_from fuel' f r repl (Some c) s1
      end
    end
  end.

Definition replace_all (f : flags) (r : regex) (repl : jsstring) (s : jsstring)
  : jsstring :=
  replace_from (S (List.length s)) f r repl None s.

(** [s.match(re).length] for a pattern with the [g] flag: the number of
    non-overlapping matches. *)
Fixpoint count_from (fuel : nat) (f : flags) (r : regex)
         (prev : option N) (s : jsstring) : nat :=
  match fuel with
  | O => 0
  | S fuel' =>
    match match_here f r prev s with
    | Some (p', s') =>
      if (List.length s' <? List.length s)%nat
      then S (count_from fuel' f r p' s')
      else match s with
           | [] => 1
           | c :: s1 => S (count_from fuel' f r (Some c) s1)
           end
    | None =>
      match s with
      | [] => 0
      | c :: s1 => count_from fuel' f r (Some c) s1
      end
    end
  end.

Definition count_all (f : flags) (r : regex) (s : jsstring) : nat :=
  count_from (S (List.length s)) f r None s.

(** [s.split(re)] (ECMAScript [RegExp.prototype[@@split]] without limit and
    without capture groups). [p] is the piece being accumulated, reversed. *)
Fixpoint split_from (fuel : nat) (f : flags) (r : regex) (p : jsstring)
         (prev : option N) (s : jsstring) : list jsstring :=
  match fuel with
  | O => [rev p ++ s]
  | S fuel' =>
    match s with
    | [] => [rev p]
    | c :: s1 =>
      match match_here f r prev s with
      | Some (p', s') =>
        if (List.length s' <? List.length s)%nat
        then rev p :: split_from fuel' f r [] p' s'
        else split_from fuel' f r (c :: p) (Some c) s1
      | None => split_from fuel' f r (c :: p) (Some c) s1
      end
    end
  end.

Definition split (f : flags) (r : regex) (s : jsstring) : list jsstring :=
  match s with
  | [] => match match_here f r None [] with Some _ => [] | None => [[]] end
  | _ => split_from (S (List.length s)) f r [] None s
  end.

End Re.

(* ================================================================== *)
(** ** Reading a pattern from its source text *)
(* ================================================================== *)

Module ReParse.
Import Re.

Definition hexval (c : N) : option N :=
  if ((48 <=? c) && (c <=? 57))%N then Some (c - 48)%N
  else if ((65 <=? c) && (c <=? 70))%N then Some (c - 55)%N
  else if ((97 <=? c) && (c <=? 102))%N then Some (c - 87)%N
  else None.

Fixpoint hexnum (n : nat) (acc : N) (s : jsstring) : option (N * jsstring) :=
  match n with
  | O => Some (acc, s)
  | S n' =>
    match s with
    | c :: s' =>
      match hexval c with
      | Some v => hexnum n' (acc * 16 + v)%N s'
      | None => None
      end
    | [] => None
    end
  end.

Definition is_digit (c : N) : bool := ((48 <=? c) && (c <=? 57))%N.

Fixpoint decnum (fuel : nat) (acc : nat) (s : jsstring) : nat * jsstring :=
  match fuel with
  | O => (acc, s)
  | S fuel' =>
    match s with
    | c :: s' =>
      if is_digit c then decnum fuel' (acc * 10 + N.to_nat (c - 48)) s'
      else (acc, s)
    | [] => (acc, s)
    end
  end.

Definition digit_ranges : list (N * N) := [(48, 57)]%N.
Definition word_ranges : list (N * N) := [(48, 57); (65, 90); (95, 95); (97, 122)]%N.
Definition line_term_ranges : list (N * N) := [(10, 10); (13, 13); (8232, 8233)]%N.

(** An escape inside or outside a class: either a set of ranges ([\s], [\S],
    [\d], [\w]) or one code unit. The character after the backslash is the
    head of [s]. *)
Inductive esc := EscSet (rs : list (N * N)) | EscChar (c : N).

Definition escape (s : jsstring) : option (esc * jsstring) :=
  match s with
  | [] => None
  | c :: s' =>
    if (c =? 115)%N then Some (EscSet ws_ranges, s')            (* \s *)
    else if (c =? 83)%N then Some (EscSet not_ws_ranges, s')    (* \S *)
    else if (c =? 100)%N then Some (EscSet digit_ranges, s')    (* \d *)
    else if (c =? 119)%N then Some (EscSet word_ranges, s')     (* \w *)
    else if (c =? 110)%N then Some (EscChar 10%N, s')           (* \n *)
    else if (c =? 116)%N then Some (EscChar 9%N, s')            (* \t *)
    else if (c =? 114)%N then Some (EscChar 13%N, s')           (* \r *)
    else if (c =? 120)%N then                                   (* \xHH *)
      match hexnum 2 0%N s' with
      | Some (v, s'') => Some (EscChar v, s'')
      | None => None
      end
    else if (c =? 117)%N then                                   (* \uHHHH *)
      match hexnum 4 0%N s' with
      | Some (v, s'') => Some (EscChar v, s'')
      | None => None
      end
    else Some (EscChar c, s')
  end.

(** The items of a class up to the closing bracket. *)
Fixpoint class_items (fuel : nat) (s : jsstring) : option (list (N * N) * jsstring) :=
  match fuel with
  | O => None
  | S fuel' =>
    match s with
    | [] => None
    | c :: s' =>
      if (c =? 93)%N then Some ([], s')
      else
        let item :=
          if (c =? 92)%N then escape s' else Some (EscChar c, s') in
        match item with
        | None => None
        | Some (EscSet rs, s1) =>
          match class_items fuel' s1 with
          | Some (rest, s2) => Some (rs ++ rest, s2)
          | None => None
          end
        | Some (EscChar lo, s1) =>
          match s1 with
          | d :: e :: s2 =>
            if ((d =? 45) && negb (e =? 93))%N then
              let hi :=
                if (e =? 92)%N then escape s2 else Some (EscChar e, s2) in
              match hi with
              | Some (EscChar h, s3) =>
                match class_items fuel' s3 with
                | Some (rest, s4) => Some ((lo, h) :: rest, s4)
                | None => None
                end
              | _ => None
              end
            else
              match class_items fuel' s1 with
              | Some (rest, s2') => Some ((lo, lo) :: rest, s2')
              | None => None
              end
          | _ =>
            match class_items fuel' s1 with
            | Some (rest, s2') => Some ((lo, lo) :: rest, s2')
            | None => None
            end
          end
        end
    end
  end.

Fixpoint rep (n : nat) (r : regex) : regex :=
  match n with
  | O => REps
  | S n' => RSeq r (rep n' r)
  end.

Fixpoint upto (n : nat) (r : regex) : regex :=
  match n with
  | O => REps
  | S n' => RAlt (RSeq r (upto n' r)) REps
  end.

(** A quantifier after an atom, with an optional [?] that makes it lazy. *)
Definition quantifier (r : regex) (s : jsstring) : regex * jsstring :=
  let lazy_of (s : jsstring) : bool * jsstring :=
    match s with
    | c :: s' => if (c =? 63)%N then (true, s') else (false, s)
    | [] => (false, s)
    end in
  match s with
  | c :: s' =>
    if (c =? 42)%N then                                         (* * *)
      let '(lz, s1) := lazy_of s' in (RStar (negb lz) r, s1)
    else if (c =? 43)%N then                                    (* + *)
      let '(lz, s1) := lazy_of s' in (RSeq r (RStar (negb lz) r), s1)
    else if (c =? 63)%N then                                    (* ? *)
      let '(lz, s1) := lazy_of s' in
      ((if lz then RAlt REps r else RAlt r REps), s1)
    else if (c =? 123)%N then                                   (* {m}, {m,}, {m,n} *)
      let '(m, s1) := decnum (List.length s') 0 s' in
      match s1 with
      | d :: s2 =>
        if (d =? 125)%N then (rep m r, s2)
        else if (d =? 44)%N then
          match s2 with
          | e :: s3 =>
            if (e =? 125)%N then (RSeq (rep m r) (RStar true r), s3)
            else
              let '(n, s4) := decnum (List.length s2) 0 s2 in
              match s4 with
              | g :: s5 =>
                if (g =? 125)%N then (RSeq (rep m r) (upto (n - m) r), s5)
                else (r, s)
              | [] => (r, s)
              end
          | [] => (r, s)
          end
        else (r, s)
      | [] => (r, s)
      end
    else (r, s)
  | [] => (r, s)
  end.

Fixpoint p_alt (fuel : nat) (s : jsstring) : option (regex * jsstring) :=
  match fuel with
  | O => None
  | S n =>
    match p_seq n s with
    | Some (r, c :: s') =>
      if (c =? 124)%N then
        match p_alt n s' with
        | Some (r2, s'') => Some (RAlt r r2, s'')
        | None => None
        end
      else Some (r, c :: s')
    | other => other
    end
  end
with p_seq (fuel : nat) (s : jsstring) : option (regex * jsstring) :=
  match fuel with
  | O => None
  | S n =>
    match s with
    | [] => Some (REps, [])
    | c :: _ =>
      if ((c =? 124) || (c =? 41))%N then Some (REps, s)
      else
        match p_atom n s with
        | Some (a, s1) =>
          let '(a', s2) := quantifier a s1 in
          match p_seq n s2 with
          | Some (REps, s3) => Some (a', s3)
          | Some (r, s3) => Some (RSeq a' r, s3)
          | None => None
          end
        | None => None
        end
    end
  end
with p_atom (fuel : nat) (s : jsstring) : option (regex * jsstring) :=
  match fuel with
  | O => None
  | S n =>
    match s with
    | [] => None
    | c :: s' =>
      if (c =? 40)%N then                                       (* ( or (?: *)
        let body :=
          match s' with
          | q :: col :: s'' =>
            if ((q =? 63) && (col =? 58))%N then s'' else s'
          | _ => s'
          end in
        match p_alt n body with
        | Some (r, d :: s1) => if (d =? 41)%N then Some (r, s1) else None
        | _ => None
        end
      else if (c =? 91)%N then                                  (* [ *)
        match s' with
        | d :: s1 =>
          if (d =? 94)%N then
            match class_items (S (List.length s1)) s1 with
            | Some (rs, s2) => Some (RSet true rs, s2)
            | None => None
            end
          else
            match class_items (S (List.length s')) s' with
            | Some (rs, s2) => Some (RSet false rs, s2)
            | None => None
            end
        | [] => None
        end
      else if (c =? 92)%N then                                  (* \ *)
        match s' with
        | d :: s1 =>
          if (d =? 98)%N then Some (RWordB, s1)                 (* \b *)
          else
            match escape s' with
            | Some (EscSet rs, s2) => Some (RSet false rs, s2)
            | Some (EscChar x, s2) => Some (RSet false [(x, x)], s2)
            | None => None
            end
        | [] => None
        end
      else if (c =? 46)%N then Some (RSet true line_term_ranges, s')
      else if (c =? 94)%N then Some (RBol, s')
      else if (c =? 36)%N then Some (REol, s')
      else Some (RSet false [(c, c)], s')
    end
  end.

(** The pattern denoted by a source text; a text that is not a pattern of
    the supported fragment denotes the pattern that matches nothing. *)
Definition never : regex := RSet false [].

Definition parse (src : jsstring) : regex :=
  match p_alt (3 * List.length src + 3) src with
  | Some (r, []) => r
  | _ => never
  end.

Definition re (src : string) : regex := parse (js src).

End ReParse.

(* ================================================================== *)
(** ** Numbers *)
(* ================================================================== *)

Module Num.

Definition Qltb (x y : Q) : bool := negb (Qle_bool y x).
Definition Qgtb (x y : Q) : bool := Qltb y x.
Definition Qgeb (x y : Q) : bool := Qle_bool y x.

Definition ofnat (n : nat) : Q := inject_Z (Z.of_nat n).

(** [Math.round]: the nearest integer, halves rounded up. *)
Definition round (x : Q) : Z := Qfloor (x + (1 # 2)).

(** [Math.round(x * 100) / 100] on the exact value of [x], kept in lowest
    terms; for arguments whose hundredfold is not within the rounding error
    of a half. *)
Definition round2 (x : Q) : Q := Qred (inject_Z (round (x * 100)) / 100).

Definition Qmin (x y : Q) : Q := if Qle_bool x y then x else y.
Definition Qmax (x y : Q) : Q := if Qle_bool x y then y else x.

End Num.

Import Num.

(* ================================================================== *)
(** ** Double precision *)
(* ================================================================== *)

(** The arithmetic of JavaScript numbers (IEEE 754 binary64, round to
    nearest, ties to even) on the exact values of the doubles, for
    magnitudes below [2 ^ 1024]; the numbers of the scripts stay below
    [2 ^ 7]. *)
Module F64.

(** The exponent of [x > 0]: [2 ^ e <= x < 2 ^ (e + 1)]. *)
Definition ilog2 (x : Q) : Z :=
  let e0 := (Z.log2 (Qnum x) - Z.log2 (Zpos (Qden x)))%Z in
  if Qle_bool (2 ^ e0) x then e0 else (e0 - 1)%Z.

(** The nearest integer, halves to the even one. *)
Definition nearestEven (m : Q) : Z :=
  let f := Qfloor m in
  match Qcompare (m - inject_Z f) (1 # 2) with
  | Lt => f
  | Gt => (f + 1)%Z
  | Eq => if Z.even f then f else (f + 1)%Z
  end.

(** The gap between the doubles around [x > 0]: 53 bits of precision,
    subnormal below [2 ^ -1022]. *)
Definition quantum (x : Q) : Q := 2 ^ (Z.max (ilog2 x - 52) (-1074)).

Definition rndPos (x : Q) : Q :=
  inject_Z (nearestEven (x / quantum x)) * quantum x.

(** The double nearest to [x]. *)
Definition rnd (x : Q) : Q :=
  match Qnum x with
  | Z0 => 0
  | Zpos _ => Qred (rndPos x)
  | Zneg _ => Qred (- rndPos (- x))
  end.

(** A decimal literal of the source, or a value stored with two decimals. *)
Definition lit (x : Q) : Q := rnd x.

(** [a + b], [a * b] and [a / b] on doubles. *)
Definition add (a b : Q) : Q := rnd (a + b).
Definition mul (a b : Q) : Q := rnd (a * b).
Definition div (a b : Q) : Q := rnd (a / b).

(** [Math.round(x * 100) / 100] on a double [x]: the double nearest to
    [n / 100], written [n / 100] in lowest terms. *)
Definition round2 (x : Q) : Q := Qred (inject_Z (round (mul x 100)) / 100).

End F64.

(* ================================================================== *)
(** ** Extracted pages *)
(* ================================================================== *)

Module Page.

(** The extraction unit. Optional properties of the JavaScript object are
    options; a missing [text] is the empty string. *)
Record t := {
  page_number : Z;
  text : jsstring;
  confidence : Q;
  empty : bool;
  method : string;
  rotation_applied : option nat;
  ocr_replaced : option bool;
  ocr_fallback_to_fp : option bool;
  word_garbage_score : option Q
}.

Definition mk (n : Z) (txt : jsstring) (c : Q) (e : bool) (m : string) : t :=
  {| page_number := n; text := txt; confidence := c; empty := e; method := m;
     rotation_applied := None; ocr_replaced := None; ocr_fallback_to_fp := None;
     word_garbage_score := None |}.

End Page.

(* ================================================================== *)
(** ** quality-profiler.js: QualityProfiler *)
(* ================================================================== *)

Module Profiler.
Import Re ReParse.

(** [PT_COMMON_WORDS]: the dictionary of Signal 7. *)
Definition PT_COMMON_WORDS : list string := [
  (* Articles, prepositions, conjunctions, pronouns (~120) *)
  "de"; "da"; "do"; "dos"; "das"; "que"; "para"; "com"; "por"; "em"; "no";
  "na"; "nos"; "nas";
  "se"; "ao"; "ou"; "um"; "uma"; "os"; "as"; "sua"; "seu"; "como"; "mais";
  "foi"; "não"; "nao";
  "ser"; "são"; "sao"; "este"; "esta"; "essa"; "esse"; "entre"; "sobre";
  "pela"; "pelo";
  "pelas"; "pelos"; "também"; "tambem"; "quando"; "ainda"; "mesmo"; "já";
  "ja"; "pode";
  "deve"; "outro"; "outra"; "outros"; "outras"; "qual"; "quais"; "todo";
  "toda"; "todos";
  "todas"; "cada"; "muito"; "muita"; "muitos"; "muitas"; "onde"; "aqui";
  "isso"; "isto";
  "aquele"; "aquela"; "aqueles"; "aquelas"; "nesse"; "nessa"; "nesses";
  "nessas"; "dele";
  "dela"; "deles"; "delas"; "nele"; "nela"; "neles"; "nelas"; "meu"; "minha";
  "meus";
  "minhas"; "teu"; "tua"; "teus"; "tuas"; "nosso"; "nossa"; "nossos";
  "nossas"; "seus";
  "suas"; "lhe"; "lhes"; "nós"; "nos"; "vós"; "vos"; "eles"; "elas"; "ele";
  "ela"; "você";
  "voce"; "quem"; "algo"; "alguém"; "alguem"; "ninguém"; "ninguem"; "nada";
  "tudo";
  "apenas"; "porém"; "porem"; "contudo"; "entretanto"; "portanto"; "assim";
  "então";
  "entao"; "porque"; "pois"; "embora"; "enquanto"; "caso"; "desde"; "até";
  "ate";
  "durante"; "após"; "apos"; "antes"; "depois"; "sem"; "sob"; "contra";
  "segundo";
  "conforme"; "mediante"; "perante"; "através"; "atraves"; "além"; "alem";
  "aquém";
  (* Common verbs and conjugations (~300) *)
  "ter"; "tem"; "teve"; "tinha"; "tendo"; "tido"; "tenho"; "temos"; "tinham";
  "terá";
  "tera"; "terão"; "terao"; "teria"; "teriam"; "tiver"; "tivesse";
  "tivessem";
  "ser"; "era"; "eram"; "sido"; "sendo"; "será"; "sera"; "serão"; "serao";
  "seria";
  "seriam"; "fosse"; "fossem"; "forem"; "sou"; "somos";
  "estar"; "está"; "esta"; "estão"; "estao"; "estava"; "estavam"; "esteve";
  "estiver";
  "estivesse"; "estando"; "estará"; "estara";
  "haver"; "houve"; "havia"; "haviam"; "haverá"; "havera"; "havendo"; "haja";
  "hajam";
  "fazer"; "faz"; "fez"; "feito"; "fazendo"; "fazia"; "faziam"; "fará";
  "fara"; "fizesse";
  "poder"; "pode"; "pôde"; "podem"; "podia"; "podiam"; "poderá"; "podera";
  "podendo";
  "pudesse"; "pudessem";
  "dever"; "deve"; "devem"; "devia"; "deviam"; "deverá"; "devera"; "devendo";
  "devida";
  "devidas"; "devido"; "devidos"; "devidamente";
  "dizer"; "diz"; "disse"; "dizem"; "dizia"; "dito"; "dizendo"; "dirá";
  "dar"; "deu"; "dado"; "dando"; "dava"; "davam"; "dará"; "dara"; "dão";
  "ver"; "viu"; "visto"; "vendo"; "via"; "viam"; "verá"; "vera"; "veja";
  "vejam";
  "vir"; "veio"; "vindo"; "vinha"; "vinham"; "virá"; "vira"; "venha";
  "venham";
  "saber"; "sabe"; "sabem"; "soube"; "sabia"; "sabiam"; "saberá"; "sabendo";
  "querer"; "quer"; "querem"; "quis"; "queria"; "queriam"; "querendo";
  "ficar"; "fica"; "ficam"; "ficou"; "ficava"; "ficando"; "ficará";
  "deixar"; "deixa"; "deixou"; "deixando"; "deixar";
  "passar"; "passa"; "passou"; "passando"; "passará";
  "seguir"; "segue"; "seguem"; "seguiu"; "seguindo"; "seguinte";
  "levar"; "leva"; "levou"; "levando"; "levará";
  "encontrar"; "encontra"; "encontrou"; "encontrado"; "encontrando";
  "chamar"; "chama"; "chamou"; "chamado"; "chamada";
  "chegar"; "chega"; "chegou"; "chegando"; "chegará";
  "apresentar"; "apresenta"; "apresentou"; "apresentado"; "apresentando";
  "considerar"; "considera"; "considerou"; "considerado"; "considerando";
  "constituir"; "constitui"; "constituído"; "constituem"; "constituição";
  "determinar"; "determina"; "determinou"; "determinado"; "determinação";
  "dispor"; "dispõe"; "disposto"; "disposição"; "disposições";
  "estabelecer"; "estabelece"; "estabeleceu"; "estabelecido";
  "estabelecimento";
  "existir"; "existe"; "existem"; "existiu"; "existência";
  "indicar"; "indica"; "indicou"; "indicado"; "indicação";
  "manter"; "mantém"; "mantem"; "manteve"; "mantido"; "manutenção";
  "mostrar"; "mostra"; "mostrou"; "mostrado"; "mostrando";
  "ocorrer"; "ocorre"; "ocorreu"; "ocorrido"; "ocorrência";
  "parecer"; "parece"; "parecem"; "pareceu"; "parecendo";
  "pedir"; "pede"; "pedem"; "pediu"; "pedido"; "pedindo";
  "permitir"; "permite"; "permitiu"; "permitido"; "permitindo";
  "precisar"; "precisa"; "precisam"; "precisou"; "precisando";
  "produzir"; "produz"; "produziu"; "produzido"; "produção";
  "realizar"; "realiza"; "realizou"; "realizado"; "realização";
  "receber"; "recebe"; "recebeu"; "recebido"; "recebendo";
  "reconhecer"; "reconhece"; "reconheceu"; "reconhecido"; "reconhecimento";
  "referir"; "refere"; "referiu"; "referido"; "referência"; "referente";
  "representar"; "representa"; "representou"; "representado";
  "representação";
  "resultar"; "resulta"; "resultou"; "resultado"; "resultados";
  "tratar"; "trata"; "tratou"; "tratado"; "tratando";
  "utilizar"; "utiliza"; "utilizou"; "utilizado"; "utilização";
  "verificar"; "verifica"; "verificou"; "verificado"; "verificação";
  "aplicar"; "aplica"; "aplicou"; "aplicado"; "aplicação"; "aplicável";
  "caber"; "cabe"; "cabem"; "coube"; "cabendo"; "cabível";
  "cumprir"; "cumpre"; "cumpriu"; "cumprido"; "cumprimento";
  "decidir"; "decide"; "decidiu"; "decidido"; "decisão";
  "declarar"; "declara"; "declarou"; "declarado"; "declaração";
  "negar"; "nega"; "negou"; "negado"; "negando";
  "observar"; "observa"; "observou"; "observado"; "observação";
  "prevalecer"; "prevalece"; "prevaleceu"; "prevalecendo";
  "prever"; "prevê"; "preve"; "previu"; "previsto"; "previsão";
  "provar"; "prova"; "provou"; "provado"; "provando";
  "requerer"; "requer"; "requereu"; "requerido"; "requerimento";
  "requerente";
  "resolver"; "resolve"; "resolveu"; "resolvido"; "resolução";
  "restar"; "resta"; "restou"; "restando";
  "violar"; "viola"; "violou"; "violado"; "violação";
  "alegar"; "alega"; "alegou"; "alegado"; "alegação"; "alegações";
  "analisar"; "analisa"; "analisou"; "analisado"; "análise";
  "assinar"; "assina"; "assinou"; "assinado"; "assinatura";
  "julgar"; "julga"; "julgou"; "julgado"; "julgamento"; "julgando";
  "publicar"; "publica"; "publicou"; "publicado"; "publicação";
  "constar"; "consta"; "constou"; "constando"; "constante";
  (* Common nouns, adjectives, administrative (~500) *)
  "ano"; "anos"; "dia"; "dias"; "vez"; "vezes"; "parte"; "partes"; "forma";
  "formas";
  "caso"; "casos"; "tempo"; "tempos"; "modo"; "modos"; "tipo"; "tipos";
  "grupo";
  "ponto"; "pontos"; "lado"; "lados"; "lugar"; "lugares"; "pessoa";
  "pessoas";
  "vida"; "vidas"; "coisa"; "coisas"; "exemplo"; "fato"; "fatos"; "razão";
  "fim";
  "nome"; "nomes"; "número"; "numero"; "números"; "numeros"; "estado";
  "país"; "pais";
  "mundo"; "cidade"; "empresa"; "empresas"; "governo"; "sistema"; "área";
  "area";
  "problema"; "questão"; "questao"; "trabalho"; "serviço"; "servico";
  "informação";
  "informacao"; "direito"; "direitos"; "lei"; "leis"; "artigo"; "artigos";
  "parágrafo"; "paragrafo"; "inciso"; "incisos"; "alínea"; "alinea";
  "processo"; "processos"; "ação"; "acao"; "ações"; "acoes"; "pedido";
  "pedidos";
  "prazo"; "prazos"; "termo"; "termos"; "documento"; "documentos"; "prova";
  "provas";
  "valor"; "valores"; "pagamento"; "pagamentos"; "crédito"; "credito";
  "débito";
  "conta"; "contas"; "total"; "parcela"; "parcelas"; "multa"; "multas";
  "imposto"; "impostos"; "tributo"; "tributos"; "contribuição";
  "contribuição";
  "base"; "cálculo"; "calculo"; "alíquota"; "aliquota"; "período"; "periodo";
  "exercício"; "exercicio"; "ano"; "mês"; "mes"; "data"; "datas";
  "tribunal"; "tribunais"; "juiz"; "juízo"; "juizo"; "vara"; "turma";
  "câmara";
  "camara"; "seção"; "secao"; "plenário"; "plenario"; "relator"; "relatora";
  "ministro"; "ministra"; "desembargador"; "desembargadora"; "juíza";
  "recurso"; "recursos"; "apelação"; "apelacao"; "agravo"; "agravos";
  "embargo";
  "embargos"; "mandado"; "mandados"; "sentença"; "sentenca"; "acórdão";
  "acordao";
  "decisão"; "decisao"; "despacho"; "despachos"; "intimação"; "intimacao";
  "citação"; "citacao"; "notificação"; "notificacao"; "certidão"; "certidao";
  "petição"; "peticao"; "contestação"; "contestacao"; "réplica"; "replica";
  "parecer"; "pareceres"; "laudo"; "laudos"; "perícia"; "pericia"; "perito";
  "autor"; "autora"; "autores"; "réu"; "reu"; "ré"; "requerente";
  "requerido";
  "requerida"; "impetrante"; "impetrado"; "apelante"; "apelado"; "agravante";
  "agravado"; "recorrente"; "recorrido"; "recorrida"; "embargante";
  "embargado";
  "exequente"; "executado"; "executada"; "devedor"; "credor"; "credora";
  "advogado"; "advogada"; "advogados"; "procurador"; "procuradora";
  "procuração";
  "procuracao"; "substabelecimento"; "outorga"; "poderes"; "mandato";
  "federal"; "estadual"; "municipal"; "público"; "publico"; "pública";
  "publica";
  "nacional"; "internacional"; "geral"; "especial"; "ordinário"; "ordinario";
  "extraordinário"; "extraordinario"; "constitucional"; "legal"; "ilegal";
  "lícito"; "licito"; "ilícito"; "ilicito";
  "ministério"; "ministerio"; "secretaria"; "secretário"; "secretario";
  "superintendência"; "superintendencia"; "superintendente"; "diretoria";
  "diretor"; "diretora"; "coordenação"; "coordenador"; "coordenadora";
  "presidente"; "vice"; "chefe"; "gerente"; "assessor"; "assessora";
  "procuradoria"; "advocacia"; "delegacia"; "delegado"; "delegada";
  "receita"; "fazenda"; "tesouro"; "previdência"; "previdencia";
  "social"; "saúde"; "saude"; "educação"; "educacao"; "segurança";
  "seguranca";
  "fiscal"; "tributário"; "tributario"; "tributária"; "tributaria";
  "administrativo"; "administrativa"; "civil"; "penal"; "criminal";
  "trabalhista"; "previdenciário"; "previdenciario"; "ambiental";
  "eleitoral";
  "comercial"; "empresarial"; "societário"; "societario"; "contratual";
  "constitutivo"; "constitutiva"; "incentivo"; "incentivos"; "benefício";
  "beneficio"; "isenção"; "isencao"; "redução"; "reducao";
  "ofício"; "oficio"; "memorando"; "portaria"; "resolução"; "resolucao";
  "decreto"; "regulamento"; "instrução"; "instrucao"; "normativa";
  "circular"; "edital"; "aviso"; "comunicado"; "comunicação"; "comunicacao";
  "relatório"; "relatorio"; "ata"; "registro"; "registros"; "cadastro";
  "certidão"; "certidao"; "atestado"; "alvará"; "alvara"; "licença";
  "licenca";
  "contrato"; "contratos"; "convênio"; "convenio"; "acordo"; "acordos";
  "cláusula"; "clausula"; "cláusulas"; "condição"; "condicao"; "condições";
  "obrigação"; "obrigacao"; "obrigações"; "responsabilidade"; "responsável";
  "responsavel"; "competência"; "competencia"; "competente"; "jurisdição";
  "jurisdicao"; "comarca"; "foro"; "auditoria"; "inspeção"; "inspecao";
  "investigação"; "investigacao"; "inquérito"; "inquerito"; "sindicância";
  "sindicancia"; "diligência"; "diligencia";
  (* General frequent words (~300) *)
  "grande"; "grandes"; "pequeno"; "pequena"; "novo"; "nova"; "novos";
  "novas";
  "primeiro"; "primeira"; "segundo"; "segunda"; "terceiro"; "terceira";
  "último";
  "ultimo"; "última"; "ultima"; "próximo"; "proximo"; "próxima"; "anterior";
  "atual"; "presente"; "real"; "possível"; "possivel"; "necessário";
  "necessario";
  "importante"; "principal"; "diferentes"; "diferente"; "igual"; "igual";
  "melhor"; "pior"; "maior"; "menor"; "alto"; "alta"; "baixo"; "baixa";
  "longo"; "longa"; "curto"; "curta"; "bom"; "boa"; "mau"; "ruim";
  "certo"; "certa"; "errado"; "errada"; "verdadeiro"; "verdadeira";
  "falso"; "falsa"; "próprio"; "proprio"; "própria"; "comum"; "comum";
  "simples"; "final"; "inicial"; "central"; "local"; "regional";
  "interno"; "interna"; "externo"; "externa"; "superior"; "inferior";
  "máximo"; "maximo"; "mínimo"; "minimo"; "médio"; "medio"; "total";
  "parcial"; "integral"; "completo"; "completa"; "pleno"; "plena";
  "adequado"; "adequada"; "devido"; "devida"; "previsto"; "prevista";
  "expressamente"; "devidamente"; "anteriormente"; "posteriormente";
  "respectivamente"; "imediatamente"; "diretamente"; "indiretamente";
  "inclusive"; "exclusivamente"; "especialmente"; "principalmente";
  "apenas"; "somente"; "simplesmente"; "certamente"; "claramente";
  "evidentemente"; "obviamente"; "naturalmente"; "efetivamente";
  "realmente"; "atualmente"; "normalmente"; "geralmente"; "usualmente";
  "frequentemente"; "raramente"; "eventualmente"; "oportunamente";
  "tempestivamente"; "intempestivamente";
  "situação"; "situacao"; "condição"; "condicao"; "relação"; "relacao";
  "referência"; "referencia"; "consequência"; "consequencia"; "decorrência";
  "existência"; "existencia"; "ausência"; "ausencia"; "presença"; "presenca";
  "ocorrência"; "ocorrencia"; "providência"; "providencia"; "procedência";
  "procedencia"; "improcedência"; "improcedencia"; "competência";
  "competencia";
  "urgência"; "urgencia"; "relevância"; "relevancia"; "importância";
  "importancia";
  "necessidade"; "possibilidade"; "impossibilidade"; "capacidade";
  "incapacidade";
  "responsabilidade"; "legitimidade"; "legalidade"; "ilegalidade";
  "validade";
  "nulidade"; "eficácia"; "eficacia";
  "conforme"; "inclusive"; "exclusive"; "mediante"; "perante"; "consoante";
  "outrossim"; "destarte"; "dessarte"; "ademais"; "demais"; "aliás"; "alias";
  "todavia"; "conquanto"; "porquanto"; "mormente"; "sobretudo";
  "precipuamente";
  "consubstanciar"; "consubstanciado"; "consubstanciada";
  "requerer"; "pleitear"; "postular"; "pugnar"; "vindicar"; "impugnar";
  "recorrer"; "apelar"; "embargar"; "agravar"; "interpor";
  "indeferir"; "deferir"; "julgar"; "decidir"; "determinar"; "ordenar";
  "intimação"; "citação"; "notificação"; "publicação"; "distribuição";
  "procedimento"; "procedimentos"; "expediente"; "diligência";
  "protocolo"; "autuação"; "juntada"; "certidão"; "traslado"; "cópia";
  "original"; "via"; "autos"; "folha"; "folhas"; "página"; "pagina";
  "volume"; "volumes"; "anexo"; "anexos"; "apenso"; "apensos";
  "art"; "arts"; "inc"; "par"; "caput"; "alínea";
  (* SUDENE/ADENE/Fiscal specific *)
  "sudene"; "adene"; "sudam"; "suframa"; "laudo"; "laudos";
  "constitutivo"; "constitutiva"; "constitutivos";
  "imposto"; "renda"; "irpj"; "csll"; "pis"; "cofins"; "icms"; "iss";
  "lucro"; "receita"; "despesa"; "custo"; "custos";
  "contribuinte"; "fisco"; "autuação"; "auto"; "infração"; "infracao";
  "penalidade"; "sanção"; "sancao"; "débito"; "debito";
  "lançamento"; "lancamento"; "compensação"; "compensacao";
  "restituição"; "restituicao"; "creditamento";
  "certidão"; "cda"; "dívida"; "divida"; "ativa"; "execução"; "execucao";
  "embargos"; "impugnação"; "impugnacao"; "exceção"; "excecao";
  "preliminar"; "mérito"; "merito"; "procedente"; "improcedente";
  "provimento"; "improvimento"; "desprovimento"; "provido"; "desprovido";
  "celulose"; "papel"; "suzano"; "fibria"; "produção"; "producao";
  "industrial"; "indústria"; "industria"; "fábrica"; "fabrica";
  "exportação"; "exportacao"; "importação"; "importacao"; "comércio";
  "comercio"
].

(** [String.prototype.toLowerCase] on the Latin-1 letters, the Kelvin sign
    and the dotted capital I. The scripts only use the result after removing
    or ignoring every code unit outside ASCII and Latin-1, or to compare a
    suffix with an ASCII literal, so other case pairs play no role. *)
Definition toLowerCase (s : jsstring) : jsstring :=
  flat_map (fun c => if (c =? 8490)%N then [107%N]
                     else if (c =? 304)%N then [105%N; 775%N]
                     else [lower1 c]) s.

Definition has (set : list string) (w : jsstring) : bool :=
  existsb (fun e => JS.eqb (js e) w) set.

(** [stripPJeFooter]: each pattern cuts the text at its first match when
    that match starts in the last 40% of the text. *)
Definition footerPatterns : list string := [
  "Este documento foi gerado pelo usu[áa]rio[\s\S]*";
  "N[úu]mero do documento:[\s\S]*";
  "Assinado eletronicamente por:[\s\S]*";
  "https?:\/\/pje\d?g?\.[\s\S]*";
  "Num\.\s*\d+\s*-\s*P[áa]g\.\s*\d+[\s\S]*"
].

Definition stripFooterStep (cleaned : jsstring) (pattern : string) : jsstring :=
  match find fl_i (re pattern) cleaned with
  | Some (index, _) =>
    if Qgtb (ofnat index) (ofnat (List.length cleaned) * (6 # 10))
    then trim (firstn index cleaned)
    else cleaned
  | None => cleaned
  end.

Definition stripPJeFooter (text : jsstring) : jsstring :=
  fold_left stripFooterStep footerPatterns text.

(** [cleanText.split(/\s+/).filter(w => w.length > 0)]. *)
Definition splitWords (s : jsstring) : list jsstring :=
  filter (fun w => (0 <? List.length w)%nat) (split fl_none (re "\s+") s).

Definition strip (f : flags) (src : string) (w : jsstring) : jsstring :=
  replace_all f (re src) [] w.

Definition count {A} (p : A -> bool) (l : list A) : nat := List.length (filter p l).

Definition ratio (a b : nat) : Q := ofnat a / ofnat b.

Definition commonWords : list string := [
  "de"; "da"; "do"; "dos"; "das"; "que"; "para"; "com"; "por"; "em";
  "no"; "na"; "nos"; "nas"; "se"; "ao"; "ou"; "um"; "uma"; "os"; "as";
  "sua"; "seu"; "como"; "mais"; "foi"; "não"; "nao"; "ser"; "são"; "sao";
  "este"; "esta"; "essa"; "esse"; "entre"; "sobre"; "pela"; "pelo";
  "art"; "lei"; "processo"; "valor"; "data"; "fiscal"; "federal"
].

Definition lowerAlpha (w : jsstring) : jsstring :=
  strip fl_none "[^a-záàâãéèêíïóôõúüç]" (toLowerCase w).

(** The seven signals, after the two early returns: [signals]. *)
Definition signalPoints (cleanText : jsstring) (words : list jsstring) : nat :=
  let nwords := List.length words in
  (* Signal 1: short fragment ratio *)
  let shortWords :=
    count (fun w => (List.length (strip fl_none "[^a-zA-ZÀ-ɏ0-9]" w) <=? 2)%nat) words in
  let shortRatio := ratio shortWords nwords in
  let s1 := if Qgtb shortRatio (45 # 100) then 2%nat
            else if Qgtb shortRatio (30 # 100) then 1%nat else 0%nat in
  (* Signal 2: punctuation-as-word ratio *)
  let punctWords :=
    count (fun w =>
             let alpha := strip fl_none "[^a-zA-ZÀ-ɏ0-9]" w in
             Qltb (ofnat (List.length alpha)) (ofnat (List.length w) * (4 # 10))
             && (1 <? List.length w)%nat) words in
  let punctRatio := ratio punctWords nwords in
  let s2 := if Qgtb punctRatio (15 # 100) then 2%nat
            else if Qgtb punctRatio (8 # 100) then 1%nat else 0%nat in
  (* Signal 3: tilde and garbage operator ratio *)
  let tildeCount := count_all fl_none (re "[~*§¬¨£¢¡¿]") cleanText in
  let tildeRatio := ratio tildeCount (List.length cleanText) in
  let s3 := if Qgtb tildeRatio (2 # 100) then 1%nat else 0%nat in
  (* Signal 4: low ratio of common Portuguese words *)
  let lowerWords := map lowerAlpha words in
  let commonCount := count (has commonWords) lowerWords in
  let commonRatio := ratio commonCount nwords in
  let s4 := if Qltb commonRatio (5 # 100) then 2%nat
            else if Qltb commonRatio (10 # 100) then 1%nat else 0%nat in
  (* Signal 5: broken word patterns *)
  let brokenWords :=
    count (fun w =>
             let clean := strip fl_none "[^a-zA-Z]" w in
             if (List.length clean <? 3)%nat then false
             else if test fl_i (re "[bcdfghjklmnpqrstvwxyz]{4,}") clean then true
             else test fl_none (re "[a-z][A-Z][a-z]") clean) words in
  let brokenRatio :=
    ratio brokenWords (Nat.max (count (fun w => (3 <=? List.length w)%nat) words) 1) in
  let s5 := if Qgtb brokenRatio (15 # 100) then 2%nat
            else if Qgtb brokenRatio (8 # 100) then 1%nat else 0%nat in
  (* Signal 6: encoding corruption *)
  let encodingCorruptWords :=
    count (fun w =>
             let clean := strip fl_none "[^a-zA-ZÀ-ɏ0-9~\-=]" w in
             if (List.length clean <? 3)%nat then false
             else if test fl_i (re "[a-záéíóúàâêôãõç0-9][~\-=][a-záéíóúàâêôãõç0-9]") clean
                  then true
             else if test fl_i (re "[a-z]\d[a-z]|\d[a-z]\d") clean then true
             else test fl_none (re "[a-z][A-Z][a-z]") clean) words in
  let encodingCorruptRatio := ratio encodingCorruptWords nwords in
  let s6 := if Qgtb encodingCorruptRatio (10 # 100) then 2%nat
            else if Qgtb encodingCorruptRatio (5 # 100) then 1%nat else 0%nat in
  (* Signal 7: dictionary miss rate *)
  let longWords :=
    filter (fun w => (4 <=? List.length (strip fl_none "[^a-záàâãéèêíïóôõúüç]" w))%nat)
           lowerWords in
  let s7 :=
    if (10 <=? List.length longWords)%nat then
      let missCount := count (fun w => negb (has PT_COMMON_WORDS w)) longWords in
      let missRate := ratio missCount (List.length longWords) in
      if Qgtb missRate (70 # 100) then 2%nat
      else if Qgtb missRate (55 # 100) then 1%nat else 0%nat
    else 0%nat in
  (s1 + s2 + s3 + s4 + s5 + s6 + s7)%nat.

(** [totalSignals] at the end of the function. *)
Definition totalSignals : nat := (2 + 2 + 1 + 2 + 2 + 2 + 2)%nat.

(** [signals / totalSignals]. *)
Definition garbageSignals (cleanText : jsstring) (words : list jsstring) : Q :=
  ratio (signalPoints cleanText words) totalSignals.

(** [detectWordLevelGarbage]: a score between 0 and 1. *)
Definition detectWordLevelGarbage (text : jsstring) : Q :=
  if (List.length (trim text) <? 30)%nat then 0%Q
  else
    let cleanText := stripPJeFooter text in
    let words := splitWords cleanText in
    if (List.length words <? 5)%nat then 0%Q
    else garbageSignals cleanText words.

(** [calculateReadability]: a score between 0 and 100. *)
Definition calculateReadability (text : jsstring) (pageCount : nat) : Z :=
  if (List.length (trim text) =? 0)%nat then 0%Z
  else
    let charCount := List.length text in
    let wordCount := List.length (splitWords text) in
    let avgWordLength := ratio charCount (Nat.max wordCount 1) in
    let charsPerPage := ratio charCount (Nat.max pageCount 1) in
    let density :=
      if Qgtb charsPerPage 1500 then 30%Z
      else if Qgtb charsPerPage 800 then 20%Z
      else if Qgtb charsPerPage 300 then 10%Z
      else 5%Z in
    let wordq :=
      if Qgeb avgWordLength 3 && Qle_bool avgWordLength 8 then 25%Z
      else if Qgeb avgWordLength 2 && Qle_bool avgWordLength 12 then 15%Z
      else 5%Z in
    let asciiRatio :=
      ratio (List.length (strip fl_none "[^\x20-\x7EÀ-ɏ]" text)) charCount in
    let unicode := round (asciiRatio * 30) in
    let nlines :=
      count (fun l => (0 <? List.length (trim l))%nat) (lines text) in
    let avgLineLength := ratio charCount (Nat.max nlines 1) in
    let linesc :=
      if Qgtb avgLineLength 30 && Qltb avgLineLength 120 then 15%Z
      else if Qgtb avgLineLength 10 then 8%Z
      else 0%Z in
    Z.min 100 (density + wordq + unicode + linesc).

Inductive noise := low | medium | high.

(** The character class of [detectNoiseLevel]; the double quote of the
    class is given by its code. *)
Definition garbagePattern : regex :=
  parse (js "[^\w\sÀ-ɏ.,;:!?()[\]{}" ++ [34%N]
         ++ js "'\-\/\\@#$%&*+=<>|~`^]").

Definition detectNoiseLevel (text : jsstring) : noise :=
  match text with
  | [] => high
  | _ =>
    let charGarbageRatio :=
      ratio (count_all fl_none garbagePattern text) (Nat.max (List.length text) 1) in
    let wordGarbageScore := detectWordLevelGarbage text in
    if Qgeb charGarbageRatio (8 # 100) || Qgeb wordGarbageScore (5 # 10) then high
    else if Qgeb charGarbageRatio (2 # 100) || Qgeb wordGarbageScore (3 # 10) then medium
    else low
  end.

Inductive tier := A | B | C | D | F.

Definition getQualityTier (readabilityScore : Z) : tier :=
  if (80 <=? readabilityScore)%Z then A
  else if (60 <=? readabilityScore)%Z then B
  else if (40 <=? readabilityScore)%Z then C
  else if (20 <=? readabilityScore)%Z then D
  else F.

End Profiler.

Module PageProfile.

Record t := {
  page_number : Z;
  readability_score : Z;
  noise_level : Profiler.noise;
  word_garbage_score : Q;
  quality_tier : Profiler.tier;
  char_count : nat;
  is_degraded : bool;
  empty : bool;
  propagated : option bool
}.

Definition set_degraded (p : t) (d : bool) (pr : option bool) : t :=
  {| page_number := page_number p; readability_score := readability_score p;
     noise_level := noise_level p; word_garbage_score := word_garbage_score p;
     quality_tier := quality_tier p; char_count := char_count p;
     is_degraded := d; empty := empty p; propagated := pr |}.

End PageProfile.

Module DocumentProfile.

(** The summary of [aggregatePageProfiles]; [file] and [file_path] come from
    the path given by the caller and the time stamp is left out. *)
Record t := {
  file_path : string;
  page_count : nat;
  readability_score : Z;
  quality_tier : Profiler.tier;
  noise_level : Profiler.noise;
  has_text_layer : bool;
  degraded_pages : list Z;
  degraded_count : nat;
  clean_count : nat;
  is_mixed_quality : bool;
  page_profiles : option (list PageProfile.t)
}.

End DocumentProfile.

Module Profiling.
Import Profiler.

Definition noise_eqb (a b : noise) : bool :=
  match a, b with
  | low, low | medium, medium | high, high => true
  | _, _ => false
  end.

(** The per-page part of [profilePages] (the callback of [pages.map]). *)
Definition profilePage (page : Page.t) : PageProfile.t :=
  let text := Page.text page in
  let readability := calculateReadability text 1 in
  let noise := detectNoiseLevel text in
  let wordGarbage := detectWordLevelGarbage text in
  let tier := getQualityTier readability in
  let charCount := List.length text in
  let isDegraded :=
    (readability <? 60)%Z || noise_eqb noise high || noise_eqb noise medium
    || Qgeb wordGarbage (15 # 100) || (charCount <? 50)%nat in
  {| PageProfile.page_number := Page.page_number page;
     PageProfile.readability_score := readability;
     PageProfile.noise_level := noise;
     PageProfile.word_garbage_score := round2 wordGarbage;
     PageProfile.quality_tier := tier;
     PageProfile.char_count := charCount;
     PageProfile.is_degraded := isDegraded;
     PageProfile.empty := Page.empty page;
     PageProfile.propagated := None |}.

Definition truthy (o : option bool) : bool :=
  match o with Some true => true | _ => false end.

(** The document-level propagation of [profilePages]: the loop that runs
    when [degradedCount > nonEmpty.length * 0.5]. *)
Definition nonEmptyOf (profiles : list PageProfile.t) : list PageProfile.t :=
  filter (fun p => negb (PageProfile.empty p)) profiles.

Definition degradedCountOf (profiles : list PageProfile.t) : nat :=
  List.length (filter PageProfile.is_degraded (nonEmptyOf profiles)).

Definition propagates (profiles : list PageProfile.t) : bool :=
  let nonEmpty := nonEmptyOf profiles in
  (0 <? List.length nonEmpty)%nat
  && Qgtb (ofnat (degradedCountOf profiles)) (ofnat (List.length nonEmpty) * (5 # 10)).

Definition propagateOne (degradedCount nonEmptyLength : nat) (p : PageProfile.t)
  : PageProfile.t :=
  if negb (PageProfile.empty p) then
    PageProfile.set_degraded p true
      (if negb (truthy (PageProfile.propagated p))
       then Some (degradedCount <? nonEmptyLength)%nat
       else PageProfile.propagated p)
  else p.

Definition propagate (profiles : list PageProfile.t) : list PageProfile.t :=
  if propagates profiles
  then map (propagateOne (degradedCountOf profiles)
                         (List.length (nonEmptyOf profiles))) profiles
  else profiles.

Definition profilePages (pages : list Page.t) : list PageProfile.t :=
  propagate (map profilePage pages).

(** [scores.sort((a, b) => a - b)]: insertion into an ascending list. *)
Fixpoint insertAsc (x : Z) (l : list Z) : list Z :=
  match l with
  | [] => [x]
  | y :: l' => if (x <=? y)%Z then x :: l else y :: insertAsc x l'
  end.

Fixpoint sortAsc (l : list Z) : list Z :=
  match l with
  | [] => []
  | x :: l' => insertAsc x (sortAsc l')
  end.

Definition worstNoise (levels : list noise) : noise :=
  if existsb (noise_eqb high) levels then high
  else if existsb (noise_eqb medium) levels then medium
  else low.

Definition aggregatePageProfiles (pageProfiles : list PageProfile.t)
           (filePath : string) : DocumentProfile.t :=
  match pageProfiles with
  | [] =>
    {| DocumentProfile.file_path := filePath;
       DocumentProfile.page_count := 0;
       DocumentProfile.readability_score := 0;
       DocumentProfile.quality_tier := F;
       DocumentProfile.noise_level := high;
       DocumentProfile.has_text_layer := false;
       DocumentProfile.degraded_pages := [];
       DocumentProfile.degraded_count := 0;
       DocumentProfile.clean_count := 0;
       DocumentProfile.is_mixed_quality := false;
       DocumentProfile.page_profiles := None |}
  | _ =>
    let scores := sortAsc (map PageProfile.readability_score pageProfiles) in
    let median := nth (List.length scores / 2) scores 0%Z in
    let degradedPages := filter PageProfile.is_degraded pageProfiles in
    let cleanPages :=
      filter (fun p => negb (PageProfile.is_degraded p) && negb (PageProfile.empty p))
             pageProfiles in
    let hasTextLayer := (0 <? List.length cleanPages)%nat in
    let noiseLevels := map PageProfile.noise_level pageProfiles in
    {| DocumentProfile.file_path := filePath;
       DocumentProfile.page_count := List.length pageProfiles;
       DocumentProfile.readability_score := median;
       DocumentProfile.quality_tier := getQualityTier median;
       DocumentProfile.noise_level := worstNoise noiseLevels;
       DocumentProfile.has_text_layer := hasTextLayer;
       DocumentProfile.degraded_pages := map PageProfile.page_number degradedPages;
       DocumentProfile.degraded_count := List.length degradedPages;
       DocumentProfile.clean_count := List.length cleanPages;
       DocumentProfile.is_mixed_quality :=
         (0 <? List.length degradedPages)%nat && (0 <? List.length cleanPages)%nat;
       DocumentProfile.page_profiles := Some pageProfiles |}
  end.

End Profiling.

(* ================================================================== *)
(** ** quality-profiler.js: DocumentClassifier (L1) *)
(* ================================================================== *)

Module Classifier.
Import Re ReParse.

Definition VALID_TYPES : list string := [
  (* Fase Judicial: Peticoes Iniciais *)
  "peticao-inicial"; "inicial-eef"; "inicial-execfiscal"; "inicial-ms";
  (* Fase Judicial: Contestacao / Impugnacao *)
  "contestacao"; "impugnacao";
  (* Fase Judicial: Instrucao *)
  "laudo-pericial"; "decisao-interlocutoria";
  (* Fase Judicial: Julgamento *)
  "sentenca"; "sentenca-edcl"; "edcl";
  (* Fase Judicial: Recurso *)
  "apelacao"; "contrarrazoes"; "agravo"; "recurso-especial";
  "recurso-extraordinario";
  (* Fase Judicial: Tribunal *)
  "acordao"; "acordao-trf"; "distribuicao"; "pauta";
  (* Fase Administrativa *)
  "auto-infracao"; "defesa-admin"; "impugnacao-admin"; "decisao-admin-1inst";
  "recurso-admin"; "recurso-carf"; "contrarrazoes-admin"; "resposta-fazenda";
  "acordao-carf"; "acordao-csrf";
  (* Documentos Probatorios / Anexos *)
  "cda"; "laudo-constitutivo"; "documento-fiscal"; "parecer-tecnico";
  (* Decisoes e Despachos *)
  "despacho";
  (* Pecas Ministeriais *)
  "parecer-mp"; "parecer-pgfn"; "parecer-agu";
  (* Oficios e Comunicacoes *)
  "oficio"; "portaria"; "memorando";
  (* Certidoes *)
  "certidao"; "certidao-publicacao";
  (* LIXO *)
  "lixo"; "lixo-procuracao"; "lixo-societario"; "lixo-fianca"; "lixo-capa";
  "lixo-certidao-publicacao"; "lixo-ato-ordinatorio";
  "lixo-substabelecimento"; "lixo-termo-abertura";
  (* Meta *)
  "unknown"
].

Definition mem (x : string) (l : list string) : bool :=
  existsb (String.eqb x) l.

(** A rule of the cascade; every pattern carries the [i] flag and is kept by
    its source text. *)
Record Rule := { type : string; weight : Q; patterns : list string }.

Definition rules : list Rule := [
  {| type := "inicial-eef"; weight := (90 # 100); patterns := [
       "embargos?\s+[àa]\s+execu[cç][aã]o\s+fiscal";
       "excelent[ií]ssim[oa]";
       "embargante";
       "requer\s"] |};
  {| type := "inicial-execfiscal"; weight := (85 # 100); patterns := [
       "execu[cç][aã]o\s+fiscal";
       "fazenda\s+(nacional|p[uú]blica|estadual|municipal)";
       "d[ií]vida\s+ativa";
       "citar?\s+o\s+executado"] |};
  {| type := "inicial-ms"; weight := (90 # 100); patterns := [
       "mandado\s+de\s+seguran[cç]a";
       "impetrante";
       "autoridade\s+coatora";
       "liminar"] |};
  {| type := "peticao-inicial"; weight := (85 # 100); patterns := [
       "excelent[ií]ssim[oa]";
       "requer\s";
       "qualifica[cç][aã]o\s+das?\s+partes"] |};
  {| type := "impugnacao"; weight := (85 # 100); patterns := [
       "impugna[cç][aã]o";
       "fazenda\s+nacional";
       "impugnante";
       "embargos?\s+improcedentes"] |};
  {| type := "contestacao"; weight := (80 # 100); patterns := [
       "contesta[cç][aã]o";
       "contesta\s";
       "preliminar";
       "m[ée]rito"] |};
  {| type := "laudo-pericial"; weight := (85 # 100); patterns := [
       "perito";
       "quesitos";
       "laudo\s+pericial";
       "per[ií]cia";
       "assist[eê]nte\s+t[eé]cnico"] |};
  {| type := "sentenca"; weight := (90 # 100); patterns := [
       "julgo";
       "procedente";
       "improcedente";
       "senten[cç]a";
       "vistos\s*(,|\.|\s)"] |};
  {| type := "sentenca-edcl"; weight := (85 # 100); patterns := [
       "embargos?\s+de\s+declara[cç][aã]o";
       "senten[cç]a";
       "acolho";
       "rejeito\s+os\s+embargos"] |};
  {| type := "edcl"; weight := (80 # 100); patterns := [
       "embargos?\s+de\s+declara[cç][aã]o";
       "omiss[aã]o";
       "contradi[cç][aã]o";
       "obscuridade"] |};
  {| type := "apelacao"; weight := (85 # 100); patterns := [
       "apela[cç][aã]o";
       "apelante";
       "apelado";
       "tribunal\s+regional"] |};
  {| type := "contrarrazoes"; weight := (85 # 100); patterns := [
       "contrarraz[oõ]es";
       "contra-raz[oõ]es";
       "apelado";
       "nega\s*r?\s+provimento"] |};
  {| type := "agravo"; weight := (80 # 100); patterns := [
       "agravo";
       "efeito\s+suspensivo";
       "agravo\s+de\s+instrumento";
       "agravante"] |};
  {| type := "recurso-especial"; weight := (85 # 100); patterns := [
       "recurso\s+especial";
       "superior\s+tribunal";
       "stj";
       "al[ií]nea"] |};
  {| type := "recurso-extraordinario"; weight := (85 # 100); patterns := [
       "recurso\s+extraordin[aá]rio";
       "supremo\s+tribunal";
       "stf";
       "repercuss[aã]o\s+geral"] |};
  {| type := "acordao"; weight := (90 # 100); patterns := [
       "ac[oó]rd[aã][om]";
       "desembargador";
       "ementa";
       "v\.?\s*u\.?"] |};
  {| type := "acordao-trf"; weight := (90 # 100); patterns := [
       "ac[oó]rd[aã][om]";
       "tribunal\s+regional\s+federal";
       "trf";
       "turma"] |};
  {| type := "distribuicao"; weight := (75 # 100); patterns := [
       "distribui[cç][aã]o";
       "certid[aã]o\s+de\s+distribui[cç][aã]o";
       "relator";
       "c[aâ]mara"] |};
  {| type := "pauta"; weight := (75 # 100); patterns := [
       "pauta";
       "inclus[aã]o\s+em\s+pauta";
       "sess[aã]o\s+de\s+julgamento";
       "designo"] |};
  {| type := "auto-infracao"; weight := (85 # 100); patterns := [
       "auto\s+de\s+infra[cç][aã]o";
       "penalidade\s+(isolada|apl[ií]cada)";
       "multa\s+(de|no\s+valor)";
       "notifica[cç][aã]o\s+de\s+lan[cç]amento"] |};
  {| type := "defesa-admin"; weight := (80 # 100); patterns := [
       "impugna[cç][aã]o\s+administrativa";
       "defesa\s+administrativa";
       "delegacia\s+da\s+receita\s+federal";
       "drj"] |};
  {| type := "impugnacao-admin"; weight := (80 # 100); patterns := [
       "impugna[cç][aã]o\s+ao\s+auto";
       "impugna[cç][aã]o\s+administrativa";
       "delegacia\s+de\s+julgamento"] |};
  {| type := "decisao-admin-1inst"; weight := (80 # 100); patterns := [
       "delegacia\s+da\s+receita\s+federal\s+de\s+julgamento";
       "drj";
       "decis[aã]o\s+administrativa";
       "julgamento\s+administrativo"] |};
  {| type := "recurso-admin"; weight := (85 # 100); patterns := [
       "recurso\s+(volunt[aá]rio|administrativo)";
       "conselho\s+administrativo";
       "carf"] |};
  {| type := "recurso-carf"; weight := (85 # 100); patterns := [
       "carf";
       "conselho\s+administrativo\s+de\s+recursos\s+fiscais";
       "recurso\s+volunt[aá]rio";
       "recorrente"] |};
  {| type := "contrarrazoes-admin"; weight := (80 # 100); patterns := [
       "contrarraz[oõ]es";
       "carf";
       "recurso\s+(volunt[aá]rio|administrativo)"] |};
  {| type := "resposta-fazenda"; weight := (80 # 100); patterns := [
       "procuradoria";
       "pgfn";
       "resposta\s+ao\s+recurso";
       "contrarraz[oõ]es\s+da\s+fazenda"] |};
  {| type := "acordao-carf"; weight := (90 # 100); patterns := [
       "ac[oó]rd[aã][om]";
       "carf";
       "conselho\s+administrativo\s+de\s+recursos\s+fiscais";
       "c[aâ]mara"] |};
  {| type := "acordao-csrf"; weight := (90 # 100); patterns := [
       "csrf";
       "c[aâ]mara\s+superior";
       "recurso\s+especial\s+do\s+contribuinte";
       "recurso\s+especial\s+da\s+fazenda"] |};
  {| type := "cda"; weight := (85 # 100); patterns := [
       "certid[aã]o\s+de\s+d[ií]vida\s+ativa";
       "cda";
       "inscri[cç][aã]o\s+em\s+d[ií]vida\s+ativa"] |};
  {| type := "laudo-constitutivo"; weight := (85 # 100); patterns := [
       "laudo\s+constitutivo";
       "laudo\s+const";
       "superintend[eê]ncia";
       "sudene";
       "adene";
       "incentivo\s+fiscal";
       "redu[cç][aã]o\s+do\s+imposto";
       "redu[cç][aã]o\s+do\s+irpj"] |};
  {| type := "documento-fiscal"; weight := (75 # 100); patterns := [
       "nota\s+fiscal";
       "dan?fe";
       "demonstrativo\s+fiscal";
       "guia\s+de\s+(recolhimento|pagamento)";
       "darf"] |};
  {| type := "parecer-tecnico"; weight := (80 # 100); patterns := [
       "parecer\s+t[eé]cnico";
       "laudo\s+t[eé]cnico";
       "relat[oó]rio\s+t[eé]cnico";
       "an[aá]lise\s+t[eé]cnica"] |};
  {| type := "decisao-interlocutoria"; weight := (75 # 100); patterns := [
       "defiro";
       "indefiro";
       "tutela";
       "decis[aã]o\s+interlocut[oó]ria"] |};
  {| type := "despacho"; weight := (70 # 100); patterns := [
       "cite-se";
       "intime-se";
       "despacho";
       "mero\s+expediente"] |};
  {| type := "parecer-mp"; weight := (80 # 100); patterns := [
       "minist[eé]rio\s+p[uú]blico";
       "opina";
       "promotor";
       "parquet"] |};
  {| type := "parecer-pgfn"; weight := (85 # 100); patterns := [
       "pgfn";
       "procuradoria[- ]geral\s+da\s+fazenda";
       "parecer\s+pgfn"] |};
  {| type := "parecer-agu"; weight := (85 # 100); patterns := [
       "agu";
       "advocacia[- ]geral\s+da\s+uni[aã]o";
       "parecer\s+agu"] |};
  {| type := "oficio"; weight := (70 # 100); patterns := [
       "of[ií]cio\s+n[º°.\s]";
       "of[ií]cio\s+de\s+n[º°.\s]";
       "of[ií]c[ri]o\b";
       "cumprimentos";
       "atenciosamente";
       "prezados?\s+senhor";
       "senhor\s+(delegado|secret[aá]rio|diretor|superintendente)"] |};
  {| type := "portaria"; weight := (75 # 100); patterns := [
       "portaria\s+n[º°]";
       "resolve:";
       "o\s+ministro";
       "o\s+superintendente"] |};
  {| type := "memorando"; weight := (70 # 100); patterns := [
       "memorando";
       "memo\s+n[º°.\s]";
       "memo\s+\d{1,4}\s*[\/\-]\s*\d{2,4}";
       "comunica[cç][aã]o\s+interna"] |};
  {| type := "certidao"; weight := (80 # 100); patterns := [
       "certifico";
       "dou\s+f[eé]";
       "certid[aã]o"] |};
  {| type := "certidao-publicacao"; weight := (75 # 100); patterns := [
       "certid[aã]o\s+de\s+publica[cç][aã]o";
       "publicado\s+no\s+di[aá]rio";
       "intima[cç][aã]o\s+eletr[oô]nica"] |};
  {| type := "lixo-procuracao"; weight := (80 # 100); patterns := [
       "procura[cç][aã]o";
       "poderes";
       "substabelecer";
       "outorg";
       "ad\s+judicia"] |};
  {| type := "lixo-substabelecimento"; weight := (80 # 100); patterns := [
       "substabelecimento";
       "substabelece"] |};
  {| type := "lixo-societario"; weight := (80 # 100); patterns := [
       "contrato\s+social";
       "estatuto\s+social";
       "ata\s+de\s+(assembleia|reuni[aã]o)";
       "junta\s+comercial";
       "jucesp";
       "altera[cç][aã]o\s+contratual"] |};
  {| type := "lixo-fianca"; weight := (80 # 100); patterns := [
       "fian[cç]a\s+banc[aá]ria";
       "carta\s+de\s+fian[cç]a";
       "garantia\s+banc[aá]ria";
       "seguro[- ]garantia"] |};
  {| type := "lixo-capa"; weight := (75 # 100); patterns := [
       "capa\s+(do\s+)?processo";
       "autuamento";
       "termo\s+de\s+autura[cç][aã]o"] |};
  {| type := "lixo-certidao-publicacao"; weight := (70 # 100); patterns := [
       "certid[aã]o\s+de\s+publica[cç][aã]o";
       "publicado\s+no\s+di[aá]rio";
       "intima[cç][aã]o\s+gen[eé]rica"] |};
  {| type := "lixo-ato-ordinatorio"; weight := (70 # 100); patterns := [
       "ato\s+ordinat[oó]rio";
       "cumpra-se";
       "intimem-se";
       "remeta-se"] |};
  {| type := "lixo-termo-abertura"; weight := (70 # 100); patterns := [
       "termo\s+de\s+(abertura|encerramento)";
       "volume\s+\d"] |}
].

Record Disambiguation := {
  dtype : string;
  structural : list string;
  entityOnly : list string
}.

Definition disambiguationRules : list Disambiguation := [
  {| dtype := "laudo-constitutivo";
     structural := ["laudo\s+constitutivo"; "redu[cç][aã]o\s+do\s+imposto"; "redu[cç][aã]o\s+do\s+irpj"; "incentivo\s+fiscal"; "superintend[eê]ncia"];
     entityOnly := ["sudene"; "adene"] |};
  {| dtype := "acordao";
     structural := ["ac[oó]rd[aã][om]"; "ementa"];
     entityOnly := ["desembargador"; "v\.?\s*u\.?"] |};
  {| dtype := "acordao-trf";
     structural := ["ac[oó]rd[aã][om]"; "tribunal\s+regional\s+federal"];
     entityOnly := ["trf"; "turma"] |};
  {| dtype := "acordao-carf";
     structural := ["ac[oó]rd[aã][om]"; "conselho\s+administrativo\s+de\s+recursos\s+fiscais"];
     entityOnly := ["carf"; "c[aâ]mara"] |};
  {| dtype := "acordao-csrf";
     structural := ["csrf"; "c[aâ]mara\s+superior"];
     entityOnly := [] |};
  {| dtype := "agravo";
     structural := ["agravo\s+de\s+instrumento"; "agravante"];
     entityOnly := ["agravo"; "efeito\s+suspensivo"] |};
  {| dtype := "recurso-carf";
     structural := ["recurso\s+volunt[aá]rio"; "conselho\s+administrativo\s+de\s+recursos\s+fiscais"];
     entityOnly := ["carf"] |};
  {| dtype := "parecer-agu";
     structural := ["parecer\s+agu"; "advocacia[- ]geral\s+da\s+uni[aã]o"];
     entityOnly := ["agu"] |};
  {| dtype := "parecer-pgfn";
     structural := ["parecer\s+pgfn"; "procuradoria[- ]geral\s+da\s+fazenda"];
     entityOnly := ["pgfn"] |};
  {| dtype := "resposta-fazenda";
     structural := ["resposta\s+ao\s+recurso"; "contrarraz[oõ]es\s+da\s+fazenda"];
     entityOnly := ["procuradoria"; "pgfn"] |};
  {| dtype := "recurso-admin";
     structural := ["recurso\s+(volunt[aá]rio|administrativo)"; "conselho\s+administrativo"];
     entityOnly := ["carf"] |};
  {| dtype := "distribuicao";
     structural := ["certid[aã]o\s+de\s+distribui[cç][aã]o"];
     entityOnly := ["distribui[cç][aã]o"; "relator"; "c[aâ]mara"] |}
].

Definition specificityOrder : list string := [
  "inicial-eef"; "inicial-execfiscal"; "inicial-ms";
  "acordao-carf"; "acordao-csrf"; "acordao-trf";
  "sentenca-edcl";
  "recurso-carf";
  "impugnacao-admin"; "defesa-admin"; "decisao-admin-1inst";
  "parecer-pgfn"; "parecer-agu";
  "lixo-procuracao"; "lixo-substabelecimento"; "lixo-societario";
  "lixo-fianca"; "lixo-capa"; "lixo-certidao-publicacao";
  "lixo-ato-ordinatorio"; "lixo-termo-abertura";
  "certidao-publicacao"
].

(** [pattern.test(text)] for a pattern [/src/i]. *)
Definition ptest (src : string) (text : jsstring) : bool :=
  test fl_i (re src) text.

(** [_stripPJeBlocks] (the same text in the classifier and the segmenter). *)
Definition stripPJeBlocks (text : jsstring) : jsstring :=
  let cleaned :=
    replace_all fl_i
      (re "Num\.\s*\d+\s*-\s*P[áa]g\.\s*\d+[\s\S]*?Este documento foi gerado[^\n]*")
      nl text in
  let cleaned := replace_all fl_im (re "^Assinado eletronicamente[^\n]*") [] cleaned in
  let cleaned := replace_all fl_im (re "^https?:\/\/pje\d?g?\.[\S]*") [] cleaned in
  let cleaned := replace_all fl_im (re "^N[úu]mero do documento:[^\n]*") [] cleaned in
  let cleaned := replace_all fl_im (re "^Este documento foi gerado[^\n]*") [] cleaned in
  let cleaned :=
    replace_all fl_im (re "^Num\.\s*\d+\s*-\s*P[áa]g\.\s*\d+[^\n]*") [] cleaned in
  let cleaned := replace_all fl_none (re "\n{3,}") (nl ++ nl) cleaned in
  trim cleaned.

(** [text.split('\n').map(l => l.trim()).filter(l => l.length > 3)]. *)
Definition meaningfulLines (text : jsstring) : list jsstring :=
  filter (fun l => (3 <? List.length l)%nat) (map trim (lines text)).

(** The insertion order of a [Set]: first occurrences. *)
Fixpoint dedup (seen : list string) (l : list string) : list string :=
  match l with
  | [] => []
  | x :: l' => if mem x seen then dedup seen l' else x :: dedup (x :: seen) l'
  end.

Record Score := {
  stype : string;
  sconfidence : Q;
  sindicators : list string;
  disambiguation : option string
}.

Definition nonempty (s : jsstring) : bool :=
  match s with [] => false | _ => true end.

Definition bodyMatches (rule : Rule) (cleanedText : jsstring) : list string :=
  filter (fun p => ptest p cleanedText) (patterns rule).

Definition scopeMatches (rule : Rule) (scope : jsstring) : list string :=
  if nonempty scope then filter (fun p => ptest p scope) (patterns rule) else [].

Definition allMatchSources (rule : Rule) (cleanedText heading tail : jsstring)
  : list string :=
  dedup [] (bodyMatches rule cleanedText ++ scopeMatches rule heading
            ++ scopeMatches rule tail).

(** [rawConfidence] of a rule that matched somewhere, as a double. *)
Definition rawConfidence (rule : Rule) (cleanedText heading tail : jsstring) : Q :=
  let bodyRatio :=
    F64.div (ofnat (List.length (bodyMatches rule cleanedText)))
            (ofnat (List.length (patterns rule))) in
  let headingBoost :=
    Qmin (F64.lit (3 # 10))
         (F64.mul (ofnat (List.length (scopeMatches rule heading)))
                  (F64.lit (15 # 100))) in
  let tailBoost :=
    Qmin (F64.lit (2 # 10))
         (F64.mul (ofnat (List.length (scopeMatches rule tail)))
                  (F64.lit (1 # 10))) in
  F64.add (F64.add (F64.mul bodyRatio (F64.lit (weight rule))) headingBoost)
          tailBoost.

(** One iteration of the scoring loop: the score pushed for the rule, if
    any. *)
Definition scoreRule (rule : Rule) (cleanedText heading tail : jsstring)
  : option Score :=
  let sources := allMatchSources rule cleanedText heading tail in
  if (0 <? List.length sources)%nat then
    let confidence := Qmin 1 (rawConfidence rule cleanedText heading tail) in
    Some {| stype := type rule;
            sconfidence := F64.round2 confidence;
            sindicators := sources;
            disambiguation := None |}
  else None.

Definition lookupDisambiguation (t : string) : option Disambiguation :=
  List.find (fun d => String.eqb (dtype d) t) disambiguationRules.

Definition hasStructuralInHeading (rule : Disambiguation) (heading : jsstring) : bool :=
  nonempty heading && existsb (fun p => ptest p heading) (structural rule).

Definition hasStructuralInBody (rule : Disambiguation) (cleanedText : jsstring) : bool :=
  existsb (fun p => ptest p cleanedText) (structural rule).

(** [e.source === m.source || e.test(m.source)] for every indicator. *)
Definition allMatchesAreEntityOnly (rule : Disambiguation) (indicators : list string)
  : bool :=
  (0 <? List.length (entityOnly rule))%nat
  && forallb (fun m => existsb (fun e => String.eqb e m || ptest e (js m))
                               (entityOnly rule)) indicators.

Definition setConfidence (s : Score) (c : Q) (d : option string) : Score :=
  {| stype := stype s; sconfidence := c; sindicators := sindicators s;
     disambiguation := d |}.

(** One iteration of the disambiguation loop. *)
Definition disambiguate (cleanedText heading : jsstring) (score : Score) : Score :=
  match lookupDisambiguation (stype score) with
  | None => score
  | Some rule =>
    if hasStructuralInHeading rule heading then score
    else if allMatchesAreEntityOnly rule (sindicators score)
            && negb (hasStructuralInBody rule cleanedText)
    then setConfidence score
                       (F64.round2 (F64.mul (F64.lit (sconfidence score))
                                            (F64.lit (3 # 10))))
                       (Some "entity-mention-only")
    else if negb (hasStructuralInHeading rule heading)
            && hasStructuralInBody rule cleanedText
    then setConfidence score
                       (F64.round2 (F64.mul (F64.lit (sconfidence score))
                                            (F64.lit (7 # 10))))
                       (Some "structural-not-in-heading")
    else score
  end.

(** One iteration of the specificity loop. *)
Definition specificity (score : Score) : Score :=
  if mem (stype score) specificityOrder
  then setConfidence score
                     (F64.round2 (Qmin 1 (F64.add (F64.lit (sconfidence score))
                                                  (F64.lit (5 # 100)))))
                     (disambiguation score)
  else score.

(** [scores.sort((a, b) => b.confidence - a.confidence)]: stable, descending. *)
Fixpoint insertDesc (x : Score) (l : list Score) : list Score :=
  match l with
  | [] => [x]
  | y :: l' =>
    if Qgtb (sconfidence y) (sconfidence x) then y :: insertDesc x l' else x :: l
  end.

Fixpoint sortDesc (l : list Score) : list Score :=
  match l with
  | [] => []
  | x :: l' => insertDesc x (sortDesc l')
  end.

Fixpoint somes {A} (l : list (option A)) : list A :=
  match l with
  | [] => []
  | Some x :: l' => x :: somes l'
  | None :: l' => somes l'
  end.

(** The scores after the three loops and the sort. *)
Definition scoreText (cleanedText : jsstring) : list Score :=
  let nonEmptyLines := meaningfulLines cleanedText in
  let heading := join nl (slice_first 5 nonEmptyLines) in
  let tail := join nl (slice_last 3 nonEmptyLines) in
  let scores := somes (map (fun r => scoreRule r cleanedText heading tail) rules) in
  let scores := map (disambiguate cleanedText heading) scores in
  let scores := map specificity scores in
  sortDesc scores.

Record Classification := {
  primary_type : string;
  confidence : Q;
  indicators : list string;
  secondary_type : option string;
  secondary_confidence : option Q
}.

Definition unknown : Classification :=
  {| primary_type := "unknown"; confidence := 0; indicators := [];
     secondary_type := None; secondary_confidence := None |}.

Definition whitelist (t : string) : string :=
  if mem t VALID_TYPES then t else "unknown".

Definition classify (text : jsstring) : Classification :=
  if (List.length (trim text) <? 50)%nat then unknown
  else
    match scoreText (stripPJeBlocks text) with
    | [] => unknown
    | s0 :: rest =>
      let second :=
        match rest with
        | s1 :: _ =>
          if Qltb (sconfidence s0) (8 # 10) then Some s1 else None
        | [] => None
        end in
      {| primary_type := whitelist (stype s0);
         confidence := sconfidence s0;
         indicators := sindicators s0;
         secondary_type := option_map (fun s => whitelist (stype s)) second;
         secondary_confidence := option_map sconfidence second |}
    end.

End Classifier.

(* ================================================================== *)
(** ** page-segmenter.js: PageSegmenter *)
(* ================================================================== *)

Module Marker.

Record t := {
  rule : string;
  weight : Q;
  description : string;
  page : Z
}.

End Marker.

Module Segment.

(** A segment with the decorations of stages 5.5 and 5.6 as options. *)
Record t := {
  segment_id : string;
  type : string;
  doc_type : string;
  classification_source : string;
  page_start : Z;
  page_end : Z;
  confidence : Q;
  boundary_markers : list Marker.t;
  classification_confidence : option Q;
  classification_indicators : option (list string);
  l2_previous_type : option string;
  l2_boost : option Q;
  l2_reasons : option (list string);
  cascade_level : option nat
}.

Definition set_page_end (s : t) (e : Z) : t :=
  {| segment_id := segment_id s; type := type s; doc_type := doc_type s;
     classification_source := classification_source s;
     page_start := page_start s; page_end := e; confidence := confidence s;
     boundary_markers := boundary_markers s;
     classification_confidence := classification_confidence s;
     classification_indicators := classification_indicators s;
     l2_previous_type := l2_previous_type s; l2_boost := l2_boost s;
     l2_reasons := l2_reasons s; cascade_level := cascade_level s |}.

End Segment.

Module Segmenter.
Import Re ReParse.

Record BoundaryRule := {
  name : string;
  pattern : string;
  flags_ : flags;
  weight : Q;
  description : string
}.

Definition boundaryRules : list BoundaryRule := [
  {| name := "court-header";
     pattern := "poder\s+judici[aá]rio|tribunal\s+de\s+justi[cç]a|justi[cç]a\s+(federal|estadual|do\s+trabalho)";
     flags_ := fl_i; weight := 9 # 10;
     description := "Court header or seal detected" |};
  {| name := "petition-start";
     pattern := "(?:excelent[ií]ssim[oa]|exm[oa]\.?)\s+s(?:enhor[a]?|r\.?)\s+(?:d(?:outor[a]?|r\.?)\s+)?(?:juiz|ju[ií]z[a]?|desembargador)";
     flags_ := fl_i; weight := 85 # 100;
     description := "Petition opening formula" |};
  {| name := "sentence-start";
     pattern := "\bsenten[cç]a\b";
     flags_ := fl_i; weight := 9 # 10;
     description := "Sentence header" |};
  {| name := "acordao-start";
     pattern := "\bac[oó]rd[aã][om]\b";
     flags_ := fl_i; weight := 9 # 10;
     description := "Acordao header" |};
  {| name := "certidao-start";
     pattern := "\bcertid[aã]o\b.*\bcertifico";
     flags_ := fl_i; weight := 8 # 10;
     description := "Certidao header" |};
  {| name := "attachment-label";
     pattern := "\b(anexo\s+[IVX\d]|documento\s+n)";
     flags_ := fl_i; weight := 75 # 100;
     description := "Attachment or exhibit label" |};
  {| name := "process-number";
     pattern := "\d{7}-\d{2}\.\d{4}\.\d\.\d{2}\.\d{4}";
     flags_ := fl_none; weight := 6 # 10;
     description := "CNJ process number format" |};
  {| name := "despacho";
     pattern := "\bdespacho\b";
     flags_ := fl_i; weight := 7 # 10;
     description := "Despacho header" |};
  {| name := "decisao";
     pattern := "\bdecis[aã]o\s*(interlocut[oó]ria)?";
     flags_ := fl_i; weight := 75 # 100;
     description := "Decision header" |};
  {| name := "oficio";
     pattern := "\bof[ií]cio\s+n";
     flags_ := fl_i; weight := 7 # 10;
     description := "Oficio header" |}
].

Definition stripPJeBlocks := Classifier.stripPJeBlocks.

(** [_extractHeading(text, maxLines)]. *)
Definition extractHeading (text : jsstring) (maxLines : nat) : jsstring :=
  join nl (slice_first maxLines (Classifier.meaningfulLines text)).

(** [line.match(/^(\d{1,3})\s*[.)\-]\s/)] and [parseInt] of the group: the
    greedy group tries three, two and one digit in this order. *)
Definition all_digits (l : jsstring) : bool := forallb is_digit l.

Definition lastUnit (d : jsstring) : option N :=
  match rev d with c :: _ => Some c | [] => None end.

Definition digitsAt (k : nat) (line : jsstring) : option nat :=
  let d := firstn k line in
  if (List.length d =? k)%nat && all_digits d then
    match match_here fl_none (re "\s*[.)\-]\s") (lastUnit d) (skipn k line) with
    | Some _ => Some (fst (decnum k 0 d))
    | None => None
    end
  else None.

Definition paragraphNumOfLine (line : jsstring) : option nat :=
  match digitsAt 3 line with
  | Some n => Some n
  | None =>
    match digitsAt 2 line with
    | Some n => Some n
    | None => digitsAt 1 line
    end
  end.

Fixpoint firstSome {A B} (f : A -> option B) (l : list A) : option B :=
  match l with
  | [] => None
  | x :: l' => match f x with Some y => Some y | None => firstSome f l' end
  end.

(** [_extractParagraphNum(text, fromEnd)]. *)
Definition extractParagraphNum (text : jsstring) (fromEnd : bool) : option nat :=
  let ls := Classifier.meaningfulLines text in
  if fromEnd then firstSome paragraphNumOfLine (rev (slice_last 20 ls))
  else firstSome paragraphNumOfLine (slice_first 5 ls).

Definition blankMarker (pageNumber : Z) : Marker.t :=
  {| Marker.rule := "blank-page"; Marker.weight := 7 # 10;
     Marker.description := "Blank or near-blank separator page";
     Marker.page := pageNumber |}.

(** [detectBoundaries(pageText, pageNumber)]. *)
Definition detectBoundaries (pageText : jsstring) (pageNumber : Z) : list Marker.t :=
  let cleanedText := stripPJeBlocks pageText in
  let heading := extractHeading cleanedText 3 in
  let markers :=
    flat_map (fun r =>
                if test (flags_ r) (re (pattern r)) heading
                then [{| Marker.rule := name r; Marker.weight := weight r;
                         Marker.description := description r;
                         Marker.page := pageNumber |}]
                else []) boundaryRules in
  if (List.length cleanedText <? 30)%nat
  then markers ++ [blankMarker pageNumber]
  else markers.

(** The type table of [_inferSegmentType]: [(type, doc_type)] by rule. *)
Definition ruleToType (rule : string) : option (string * string) :=
  if String.eqb rule "court-header" then Some ("piece", "unknown")
  else if String.eqb rule "petition-start" then Some ("piece", "peticao")
  else if String.eqb rule "sentence-start" then Some ("piece", "sentenca")
  else if String.eqb rule "acordao-start" then Some ("piece", "acordao")
  else if String.eqb rule "certidao-start" then Some ("piece", "certidao")
  else if String.eqb rule "attachment-label" then Some ("attachment", "attachment")
  else if String.eqb rule "despacho" then Some ("piece", "despacho")
  else if String.eqb rule "decisao" then Some ("piece", "decisao-interlocutoria")
  else if String.eqb rule "oficio" then Some ("piece", "oficio")
  else if String.eqb rule "blank-page" then Some ("separator", "separator")
  else None.

(** [[...markers].sort((a, b) => b.weight - a.weight)]: stable, descending. *)
Fixpoint insertMarker (x : Marker.t) (l : list Marker.t) : list Marker.t :=
  match l with
  | [] => [x]
  | y :: l' =>
    if Qgtb (Marker.weight y) (Marker.weight x) then y :: insertMarker x l'
    else x :: l
  end.

Fixpoint sortMarkers (l : list Marker.t) : list Marker.t :=
  match l with
  | [] => []
  | x :: l' => insertMarker x (sortMarkers l')
  end.

Record SegType := {
  st_type : string;
  st_doc_type : string;
  st_classification_source : option string
}.

Definition fallbackOk (classification : option Classifier.Classification) : bool :=
  match classification with
  | Some c => Qgeb (Classifier.confidence c) (20 # 100)
  | None => false
  end.

Definition primaryOf (classification : option Classifier.Classification) : string :=
  match classification with
  | Some c => Classifier.primary_type c
  | None => "unknown"
  end.

(** [_inferSegmentType(markers, classification)]. *)
Definition inferSegmentType (markers : list Marker.t)
           (classification : option Classifier.Classification) : SegType :=
  let default :=
    if fallbackOk classification
    then {| st_type := "piece"; st_doc_type := primaryOf classification;
            st_classification_source := Some "profiler-fallback" |}
    else {| st_type := "piece"; st_doc_type := "unknown";
            st_classification_source := None |} in
  match sortMarkers markers with
  | m :: _ =>
    match ruleToType (Marker.rule m) with
    | Some (t, d) =>
      if String.eqb d "unknown" && fallbackOk classification
      then {| st_type := t; st_doc_type := primaryOf classification;
              st_classification_source := Some "profiler-fallback" |}
      else {| st_type := t; st_doc_type := d; st_classification_source := None |}
    | None => default
    end
  | [] => default
  end.

(** [String(n).padStart(3, '0')]. *)
Definition digitChar (d : nat) : ascii := ascii_of_nat (48 + d).

Fixpoint decimalRev (fuel n : nat) : list ascii :=
  match fuel with
  | O => []
  | S fuel' =>
    if (n <? 10)%nat then [digitChar n]
    else digitChar (n mod 10) :: decimalRev fuel' (n / 10)
  end.

Definition decimal (n : nat) : list ascii := rev (decimalRev (S n) n).

Definition padStart3 (l : list ascii) : list ascii :=
  repeat "0"%char (3 - List.length l) ++ l.

Definition pad3 (n : nat) : string := string_of_list_ascii (padStart3 (decimal n)).

(** The state of the loop of [segment]. *)
Record State := {
  segments : list Segment.t;
  currentSegment : option Segment.t;
  segmentCounter : nat;
  prevPageLastParaNum : option nat
}.

Definition init : State :=
  {| segments := []; currentSegment := None; segmentCounter := 0;
     prevPageLastParaNum := None |}.

Definition strongNonBlank (markers : list Marker.t) : bool :=
  existsb (fun m => Qgeb (Marker.weight m) (7 # 10)
                    && negb (String.eqb (Marker.rule m) "blank-page")) markers.

Definition hasBlank (markers : list Marker.t) : bool :=
  existsb (fun m => String.eqb (Marker.rule m) "blank-page") markers.

(** The paragraph-continuation suppression. *)
Definition isNewPiece (st : State) (page : Page.t) (markers : list Marker.t) : bool :=
  let isNew := strongNonBlank markers in
  match isNew, currentSegment st, prevPageLastParaNum st with
  | true, Some _, Some prevNum =>
    let hasStrongStructural :=
      existsb (fun m => Qgeb (Marker.weight m) (85 # 100)) markers in
    if negb hasStrongStructural then
      match extractParagraphNum (stripPJeBlocks (Page.text page)) false with
      | Some firstParaNum =>
        if (firstParaNum =? prevNum + 1)%nat then false else true
      | None => true
      end
    else true
  | _, _, _ => isNew
  end.

Definition maxWeight (markers : list Marker.t) : Q :=
  fold_left (fun acc m => Qmax acc (Marker.weight m)) markers (5 # 10).

Definition newSegment (counter : nat) (page : Page.t) (markers : list Marker.t)
           (classification : option Classifier.Classification) : Segment.t :=
  let segType := inferSegmentType markers classification in
  {| Segment.segment_id := String.append "seg-" (pad3 counter);
     Segment.type := st_type segType;
     Segment.doc_type := st_doc_type segType;
     Segment.classification_source :=
       match st_classification_source segType with
       | Some s => s
       | None => "boundary-rules"
       end;
     Segment.page_start := Page.page_number page;
     Segment.page_end := Page.page_number page;
     Segment.confidence := maxWeight markers;
     Segment.boundary_markers := markers;
     Segment.classification_confidence := None;
     Segment.classification_indicators := None;
     Segment.l2_previous_type := None;
     Segment.l2_boost := None;
     Segment.l2_reasons := None;
     Segment.cascade_level := None |}.

(** One iteration of the loop over the pages. *)
Definition step (classification : option Classifier.Classification)
           (st : State) (page : Page.t) : State :=
  let markers := detectBoundaries (Page.text page) (Page.page_number page) in
  let isNew := isNewPiece st page markers in
  let isBlank := hasBlank markers in
  let prev' :=
    match extractParagraphNum (stripPJeBlocks (Page.text page)) true with
    | Some lastParaNum => Some lastParaNum
    | None => prevPageLastParaNum st
    end in
  match currentSegment st with
  | None =>
    {| segments := segments st;
       currentSegment :=
         Some (newSegment (S (segmentCounter st)) page markers classification);
       segmentCounter := S (segmentCounter st);
       prevPageLastParaNum := prev' |}
  | Some cur =>
    if isNew then
      {| segments := segments st ++ [cur];
         currentSegment :=
           Some (newSegment (S (segmentCounter st)) page markers classification);
         segmentCounter := S (segmentCounter st);
         prevPageLastParaNum := prev' |}
    else if isBlank then
      {| segments := segments st;
         currentSegment := Some (Segment.set_page_end cur (Page.page_number page));
         segmentCounter := segmentCounter st;
         prevPageLastParaNum := prev' |}
    else
      {| segments := segments st;
         currentSegment := Some (Segment.set_page_end cur (Page.page_number page));
         segmentCounter := segmentCounter st;
         prevPageLastParaNum := prev' |}
  end.

Definition close (st : State) : list Segment.t :=
  match currentSegment st with
  | Some cur => segments st ++ [cur]
  | None => segments st
  end.

(** [segment(extractedData)]: the pages and the bridged classification. *)
Definition segment (pages : list Page.t)
           (classification : option Classifier.Classification) : list Segment.t :=
  close (fold_left (step classification) pages init).

End Segmenter.

(* ================================================================== *)
(** ** Stage 5.6: contextual positional reclassification (L2) *)
(* ================================================================== *)

Module L2.
Import Classifier.

Definition TRANSITIONS : list (string * list string) := [
  ("inicial-eef", ["cda"; "laudo-constitutivo"; "documento-fiscal"; "impugnacao"; "decisao-interlocutoria"; "despacho"]);
  ("inicial-execfiscal", ["cda"; "documento-fiscal"; "despacho"; "decisao-interlocutoria"]);
  ("inicial-ms", ["decisao-interlocutoria"; "contestacao"; "impugnacao"; "despacho"]);
  ("peticao-inicial", ["decisao-interlocutoria"; "contestacao"; "impugnacao"; "despacho"; "cda"]);
  ("cda", ["impugnacao"; "decisao-interlocutoria"; "despacho"; "documento-fiscal"; "laudo-constitutivo"]);
  ("laudo-constitutivo", ["decisao-interlocutoria"; "despacho"; "impugnacao"; "sentenca"; "laudo-constitutivo"]);
  ("documento-fiscal", ["decisao-interlocutoria"; "despacho"; "impugnacao"; "laudo-constitutivo"; "documento-fiscal"]);
  ("parecer-tecnico", ["decisao-interlocutoria"; "despacho"; "sentenca"]);
  ("laudo-pericial", ["sentenca"; "decisao-interlocutoria"; "despacho"]);
  ("impugnacao", ["decisao-interlocutoria"; "sentenca"; "laudo-pericial"; "despacho"]);
  ("contestacao", ["sentenca"; "decisao-interlocutoria"; "laudo-pericial"; "despacho"]);
  ("sentenca", ["edcl"; "apelacao"; "sentenca-edcl"; "certidao-publicacao"]);
  ("sentenca-edcl", ["apelacao"; "edcl"; "certidao-publicacao"]);
  ("edcl", ["sentenca-edcl"; "sentenca"; "acordao"; "acordao-trf"]);
  ("apelacao", ["contrarrazoes"; "acordao"; "acordao-trf"; "distribuicao"]);
  ("contrarrazoes", ["acordao"; "acordao-trf"; "distribuicao"; "pauta"]);
  ("agravo", ["decisao-interlocutoria"; "despacho"]);
  ("recurso-especial", ["acordao"; "contrarrazoes"]);
  ("recurso-extraordinario", ["acordao"; "contrarrazoes"]);
  ("distribuicao", ["pauta"; "acordao"; "acordao-trf"]);
  ("pauta", ["acordao"; "acordao-trf"]);
  ("acordao", ["edcl"; "recurso-especial"; "recurso-extraordinario"; "certidao-publicacao"]);
  ("acordao-trf", ["edcl"; "recurso-especial"; "recurso-extraordinario"; "certidao-publicacao"]);
  ("auto-infracao", ["defesa-admin"; "impugnacao-admin"; "decisao-interlocutoria"]);
  ("defesa-admin", ["decisao-admin-1inst"; "decisao-interlocutoria"]);
  ("impugnacao-admin", ["decisao-admin-1inst"; "decisao-interlocutoria"]);
  ("decisao-admin-1inst", ["recurso-admin"; "recurso-carf"]);
  ("recurso-admin", ["contrarrazoes-admin"; "resposta-fazenda"; "acordao-carf"]);
  ("recurso-carf", ["contrarrazoes-admin"; "resposta-fazenda"; "acordao-carf"]);
  ("contrarrazoes-admin", ["acordao-carf"]);
  ("resposta-fazenda", ["acordao-carf"]);
  ("acordao-carf", ["acordao-csrf"; "edcl"; "recurso-especial"]);
  ("acordao-csrf", ["edcl"; "recurso-especial"]);
  ("parecer-pgfn", ["sentenca"; "decisao-interlocutoria"; "acordao"; "despacho"]);
  ("parecer-agu", ["sentenca"; "decisao-interlocutoria"; "acordao"; "despacho"]);
  ("parecer-mp", ["sentenca"; "decisao-interlocutoria"; "despacho"])
].

Definition NEUTRAL_TYPES : list string := [
  "despacho"; "decisao-interlocutoria"; "certidao"; "certidao-publicacao";
  "oficio"; "portaria"; "memorando"; "parecer-tecnico";
  "lixo"; "lixo-procuracao"; "lixo-substabelecimento"; "lixo-societario";
  "lixo-fianca"; "lixo-capa"; "lixo-certidao-publicacao";
  "lixo-ato-ordinatorio"; "lixo-termo-abertura"; "unknown"
].

Definition RESPONSE_TYPES : list string := [
  "impugnacao"; "contestacao"; "contrarrazoes"; "contrarrazoes-admin";
  "defesa-admin"; "impugnacao-admin"; "resposta-fazenda"; "sentenca-edcl"
].

Definition INITIATOR_TYPES : list string := [
  "inicial-eef"; "inicial-execfiscal"; "inicial-ms"; "peticao-inicial"; "auto-infracao"
].

Definition transitions (t : string) : option (list string) :=
  option_map snd (List.find (fun kv => String.eqb (fst kv) t) TRANSITIONS).

Definition truthyStr (o : option string) : bool :=
  match o with
  | Some s => negb (String.eqb s "")
  | None => false
  end.

Definition strOf (o : option string) : string :=
  match o with Some s => s | None => "" end.

(** [x || d] on an optional number: zero is falsy. *)
Definition orDefault (o : option Q) (d : Q) : Q :=
  match o with
  | Some x => if Qeq_bool x 0 then d else x
  | None => d
  end.

(** The state carried along the piece segments of one file: the index [j],
    the [doc_type] of the previous piece as it stands after its own update,
    and the keys counted in [assignedInicialTypes]. *)
Record State := {
  j : nat;
  prevType : option string;
  assigned : list string
}.

Definition init : State := {| j := 0; prevType := None; assigned := [] |}.

(** The positional part of the boost: transition, position and duplicate
    rules, in the order of the script. Each rule is its amount and reason. *)
Definition transitionRule (prevType : option string) (currentType : string)
  : list (Q * string) :=
  if truthyStr prevType && negb (mem currentType NEUTRAL_TYPES)
     && negb (mem (strOf prevType) NEUTRAL_TYPES)
  then
    match transitions (strOf prevType) with
    | Some probableNext =>
      if mem currentType probableNext
      then [(15 # 100, String.append "probable-after-" (strOf prevType))]
      else if mem currentType INITIATOR_TYPES
      then [(- (20 # 100), String.append "impossible-initiator-after-" (strOf prevType))]
      else []
    | None => []
    end
  else [].

Definition positionRule (j : nat) (currentType : string) : list (Q * string) :=
  if (j =? 0)%nat then
    (if mem currentType RESPONSE_TYPES
     then [(- (15 # 100), "response-at-start")] else [])
    ++ (if mem currentType INITIATOR_TYPES
        then [(10 # 100, "initiator-at-start")] else [])
  else [].

Definition isInicial (t : string) : bool := String.prefix "inicial-" t.

Definition duplicateRule (assigned : list string) (currentType : string)
  : list (Q * string) :=
  if isInicial currentType && mem currentType assigned
  then [(- (25 # 100), String.append "duplicate-" currentType)]
  else [].

Definition pdfRules (pdfType : string) (currentType : string) (currentConfidence : Q)
  : list (Q * string) :=
  (if String.eqb currentType "inicial-eef" && String.eqb pdfType "inicial-eef"
   then [(5 # 100, "pdf-context-confirms-eef")] else [])
  ++ (if String.eqb currentType pdfType && Qltb currentConfidence (8 # 10)
      then [(10 # 100, "pdf-segment-agreement")] else []).

Definition total (rs : list (Q * string)) : Q :=
  fold_left (fun acc r => acc + fst r) rs 0.

Definition pdfTypeOf (pdf : option Classification) : string :=
  match pdf with Some c => primary_type c | None => "" end.

Definition pdfIndicators (pdf : option Classification) : list string :=
  match pdf with Some c => indicators c | None => [] end.

Definition pdfConfidence (pdf : option Classification) : Q :=
  orDefault (option_map confidence pdf) (7 # 10).

Definition eefOverride (pdf : option Classification) (currentType : string) : bool :=
  String.eqb currentType "inicial-execfiscal"
  && (String.eqb (pdfTypeOf pdf) "inicial-eef"
      || existsb (fun ind => ptest "embargos?\s+.*execu" (js ind)) (pdfIndicators pdf)).

Definition segText (pages : list Page.t) (seg : Segment.t) : jsstring :=
  join nl (map Page.text
               (filter (fun p => (Segment.page_start seg <=? Page.page_number p)%Z
                                 && (Page.page_number p <=? Segment.page_end seg)%Z)
                       pages)).

(** The boost of the secondary type and its boosted confidence. *)
Definition boostedSecondary (st : State) (secType : string) (secConfidence : Q) : Q :=
  let b1 :=
    if truthyStr (prevType st)
    then match transitions (strOf (prevType st)) with
         | Some next => if mem secType next then 15 # 100 else 0
         | None => 0
         end
    else 0 in
  let b2 := if (j st =? 0)%nat && mem secType INITIATOR_TYPES then 10 # 100 else 0 in
  Qmin 1 (round2 (secConfidence + (b1 + b2))).

Definition update (s : Segment.t) (docType : string) (conf : Q)
           (indicators : option (list string)) (previous : option string)
           (boost : Q) (reasons : list string) : Segment.t :=
  {| Segment.segment_id := Segment.segment_id s;
     Segment.type := Segment.type s;
     Segment.doc_type := docType;
     Segment.classification_source := "per-segment-L2";
     Segment.page_start := Segment.page_start s;
     Segment.page_end := Segment.page_end s;
     Segment.confidence := Segment.confidence s;
     Segment.boundary_markers := Segment.boundary_markers s;
     Segment.classification_confidence := Some conf;
     Segment.classification_indicators := indicators;
     Segment.l2_previous_type := previous;
     Segment.l2_boost := Some boost;
     Segment.l2_reasons := Some reasons;
     Segment.cascade_level := Some 2%nat |}.

(** The body of the loop for one piece segment: the segment after the
    iteration and the keys added to [assignedInicialTypes]. *)
Definition reclassify (pages : list Page.t) (pdf : option Classification)
           (st : State) (seg : Segment.t) : Segment.t * list string :=
  let currentType := Segment.doc_type seg in
  if String.eqb currentType "" || String.eqb currentType "unknown" then (seg, [])
  else
    let currentConfidence :=
      orDefault (Segment.classification_confidence seg) (5 # 10) in
    let positional :=
      transitionRule (prevType st) currentType ++ positionRule (j st) currentType
      ++ duplicateRule (assigned st) currentType in
    let counted := if isInicial currentType then [currentType] else [] in
    if eefOverride pdf currentType then
      (update seg "inicial-eef" (Qmax currentConfidence (pdfConfidence pdf))
              (Segment.classification_indicators seg) (Some currentType) 0
              ["pdf-context-eef-overrides-execfiscal"],
       counted ++ counted)
    else
      let rs := positional ++ pdfRules (pdfTypeOf pdf) currentType currentConfidence in
      let boost := total rs in
      let reasons := map snd rs in
      if Qeq_bool boost 0 then (seg, counted)
      else
        let newConfidence := Qmin 1 (Qmax 0 (round2 (currentConfidence + boost))) in
        let keep :=
          update seg currentType newConfidence
                 (Segment.classification_indicators seg)
                 (Segment.l2_previous_type seg) boost reasons in
        if Qltb newConfidence currentConfidence && Qltb newConfidence (5 # 10) then
          let text := segText pages seg in
          if (50 <=? List.length (trim text))%nat then
            let reClass := classify text in
            match secondary_type reClass, secondary_confidence reClass with
            | Some secType, Some secConf =>
              if negb (String.eqb secType "") && negb (String.eqb secType "unknown")
                 && Qgtb (boostedSecondary st secType secConf) newConfidence
              then (update seg secType (boostedSecondary st secType secConf)
                           (Some (indicators reClass)) (Some currentType)
                           boost reasons,
                    counted)
              else (keep, counted)
            | _, _ => (keep, counted)
            end
          else (keep, counted)
        else (keep, counted).

(** One iteration over [segments]: separators are not piece segments. *)
Definition step (pages : list Page.t) (pdf : option Classification)
           (acc : State * list Segment.t) (seg : Segment.t)
  : State * list Segment.t :=
  let '(st, out) := acc in
  if String.eqb (Segment.type seg) "separator" then (st, out ++ [seg])
  else
    let '(seg', counted) := reclassify pages pdf st seg in
    ({| j := S (j st);
        prevType := Some (Segment.doc_type seg');
        assigned := assigned st ++ counted |},
     out ++ [seg']).

(** The Stage 5.6 block for one file. *)
Definition l2pass (pages : list Page.t) (pdf : option Classification)
           (segments : list Segment.t) : list Segment.t :=
  snd (fold_left (step pages pdf) segments (init, [])).

End L2.

(* ================================================================== *)
(** ** ocr-router.js: TextExtractor (rotation retry and hybrid merge) *)
(* ================================================================== *)

Module Extractor.
Import Profiler.

Definition setScore (p : Page.t) (score : Q) : Page.t :=
  {| Page.page_number := Page.page_number p; Page.text := Page.text p;
     Page.confidence := Page.confidence p; Page.empty := Page.empty p;
     Page.method := Page.method p;
     Page.rotation_applied := Page.rotation_applied p;
     Page.ocr_replaced := Page.ocr_replaced p;
     Page.ocr_fallback_to_fp := Page.ocr_fallback_to_fp p;
     Page.word_garbage_score := Some score |}.

(** The loop over the rotations, with its [continue] and [break]. *)
Fixpoint tryRotations (ocrRotated : nat -> Page.t) (rotations : list nat)
         (bestResult : Page.t) (bestGarbage : Q) : Page.t * Q :=
  match rotations with
  | [] => (bestResult, bestGarbage)
  | degrees :: rest =>
    let rotated := ocrRotated degrees in
    match Page.text rotated with
    | [] => tryRotations ocrRotated rest bestResult bestGarbage
    | _ =>
      if Page.empty rotated then tryRotations ocrRotated rest bestResult bestGarbage
      else
        let rotGarbage := detectWordLevelGarbage (Page.text rotated) in
        let '(best, garbage) :=
          if Qltb rotGarbage bestGarbage then (rotated, rotGarbage)
          else (bestResult, bestGarbage) in
        if Qltb garbage (2 # 10) then (best, garbage)
        else tryRotations ocrRotated rest best garbage
    end
  end.

(** [_ocrSinglePageWithRetry]: [result] is what [_ocrSinglePage] returns for
    the page and [ocrRotated] what [_ocrSinglePageRotated] returns for a
    rotation. *)
Definition ocrSinglePageWithRetry (result : Page.t) (ocrRotated : nat -> Page.t)
  : Page.t :=
  if Page.empty result || (List.length (Page.text result) <? 30)%nat then result
  else
    let garbageScore := detectWordLevelGarbage (Page.text result) in
    if Qltb garbageScore (4 # 10) then result
    else
      let '(bestResult, bestGarbage) :=
        tryRotations ocrRotated [180; 90; 270]%nat result garbageScore in
      setScore bestResult (round2 bestGarbage).

(** The callback of [fastParsePages.map] in [extractHybrid]; [ocrPage] is
    the entry of the page in [ocrMap], if any. *)
Definition mergePage (ocrPage : option Page.t) (fp : Page.t) : Page.t :=
  let unchanged :=
    {| Page.page_number := Page.page_number fp; Page.text := Page.text fp;
       Page.confidence := Page.confidence fp; Page.empty := Page.empty fp;
       Page.method := Page.method fp;
       Page.rotation_applied := Page.rotation_applied fp;
       Page.ocr_replaced := Some false;
       Page.ocr_fallback_to_fp := Page.ocr_fallback_to_fp fp;
       Page.word_garbage_score := Page.word_garbage_score fp |} in
  match ocrPage with
  | Some ocr =>
    if (0 <? List.length (Page.text ocr))%nat then
      let ocrGarbage :=
        match Page.word_garbage_score ocr with
        | Some g => g
        | None => detectWordLevelGarbage (Page.text ocr)
        end in
      let fpGarbage := detectWordLevelGarbage (Page.text fp) in
      if Qltb ocrGarbage fpGarbage then
        {| Page.page_number := Page.page_number fp; Page.text := Page.text ocr;
           Page.confidence :=
             if Qgtb ocrGarbage (3 # 10) then 4 # 10 else Page.confidence ocr;
           Page.empty := Page.empty ocr; Page.method := Page.method ocr;
           Page.rotation_applied := None;
           Page.ocr_replaced := Some true;
           Page.ocr_fallback_to_fp := None;
           Page.word_garbage_score := Some (round2 ocrGarbage) |}
      else
        {| Page.page_number := Page.page_number fp; Page.text := Page.text fp;
           Page.confidence :=
             if Qgtb fpGarbage (3 # 10) then 4 # 10 else Page.confidence fp;
           Page.empty := Page.empty fp; Page.method := Page.method fp;
           Page.rotation_applied := Page.rotation_applied fp;
           Page.ocr_replaced := Some false;
           Page.ocr_fallback_to_fp := Some true;
           Page.word_garbage_score := Some (round2 fpGarbage) |}
    else unchanged
  | None => unchanged
  end.

End Extractor.

(* ================================================================== *)
(** ** md-exporter.js: MarkdownExporter (file names) *)
(* ================================================================== *)

Module Exporter.

Definition orElse (s d : string) : string :=
  if String.eqb s "" then d else s.

(** [generateFilename(segment, index)]. *)
Definition generateFilename (segment : Segment.t) (index : nat) : string :=
  let num := Segmenter.pad3 (index + 1) in
  let type := orElse (Segment.type segment) "piece" in
  let docType := orElse (Segment.doc_type segment) "unknown" in
  String.append num
    (String.append "-" (String.append type
       (String.append "-" (String.append docType ".md")))).

Fixpoint namesFrom (i : nat) (segments : list Segment.t) : list string :=
  match segments with
  | [] => []
  | s :: rest => generateFilename s i :: namesFrom (S i) rest
  end.

(** The [file] entries of [exportAll], in order. *)
Definition exportNames (segments : list Segment.t) : list string :=
  namesFrom 0 segments.

End Exporter.

(* ================================================================== *)
(** ** pdf-ingester.js: PDFIngester *)
(* ================================================================== *)

Module Ingester.

(** A directory as [fs.readdirSync(dir, { withFileTypes: true })] lists it:
    the entries in the order the file system returns them. A file that
    cannot be read has no content. *)
#[warnings="-register-all"] Inductive entry : Type :=
| File (name : string) (content : option (list N))
| Dir (name : string) (entries : list entry)
| Other (name : string).

Definition pathJoin (dir name : string) : string :=
  String.append dir (String.append "/" name).

Definition endsWithPdf (name : string) : bool :=
  let l := Profiler.toLowerCase (js name) in
  JS.eqb (slice_last 4 l) (js ".pdf") && (4 <=? List.length l)%nat.

(** [scanDirectory(dirPath)]: the paths with what is read from each. The
    loop body is [scanEntry]; the recursive call on a subdirectory is the
    inner [flat_map]. *)
Fixpoint scanEntry (recursive : bool) (dirPath : string) (e : entry)
  : list (string * option (list N)) :=
  match e with
  | File name content =>
    if endsWithPdf name then [(pathJoin dirPath name, content)] else []
  | Dir name sub =>
    if recursive
    then flat_map (scanEntry recursive (pathJoin dirPath name)) sub
    else []
  | Other _ => []
  end.

Definition scanDirectory (recursive : bool) (dirPath : string) (entries : list entry)
  : list (string * option (list N)) :=
  flat_map (scanEntry recursive dirPath) entries.

Inductive source : Type :=
| SourceFile (path : string) (content : option (list N))
| SourceDir (path : string) (entries : list entry).

Fixpoint basenameAux (acc : string) (s : string) : string :=
  match s with
  | EmptyString => acc
  | String c s' =>
    if Ascii.eqb c "/"%char then basenameAux s' s'
    else basenameAux acc s'
  end.

Definition basename (p : string) : string := basenameAux p p.

Record FileRecord := {
  name : string;
  size : nat;
  source_path : string;
  hash : string;
  partial_hash : string
}.

Record Duplicate := {
  dup_name : string;
  dup_hash : string;
  original_path : string
}.

Record Summary := {
  total_scanned : nat;
  registered : nat;
  duplicates_count : nat;
  errors_count : nat
}.

Record Manifest := {
  source_ : string;
  summary : Summary;
  files : list FileRecord;
  duplicates : list Duplicate;
  errors : list string
}.

Section Ingest.

(** SHA-256 of a byte sequence, in hexadecimal (Node's [crypto]). *)
Variable sha256 : list N -> string.

Variable dedup : bool.
Variable recursive : bool.

(** [ingestFile]. *)
Definition ingestFile (path : string) (content : list N) : FileRecord :=
  {| name := basename path;
     size := List.length content;
     source_path := path;
     hash := sha256 content;
     partial_hash := sha256 (firstn 4096 content) |}.

Record Acc := {
  fingerprintDB : list (string * string);
  acc_files : list FileRecord;
  acc_duplicates : list Duplicate;
  acc_errors : list string
}.

Definition lookup (db : list (string * string)) (h : string) : option string :=
  option_map snd (List.find (fun kv => String.eqb (fst kv) h) db).

(** One iteration of the loop of [ingest]. *)
Definition ingestStep (acc : Acc) (p : string * option (list N)) : Acc :=
  match snd p with
  | None =>
    {| fingerprintDB := fingerprintDB acc; acc_files := acc_files acc;
       acc_duplicates := acc_duplicates acc;
       acc_errors := acc_errors acc ++ [basename (fst p)] |}
  | Some content =>
    let result := ingestFile (fst p) content in
    match (if dedup then lookup (fingerprintDB acc) (hash result) else None) with
    | Some original =>
      {| fingerprintDB := fingerprintDB acc; acc_files := acc_files acc;
         acc_duplicates :=
           acc_duplicates acc
           ++ [{| dup_name := name result; dup_hash := hash result;
                  original_path := original |}];
         acc_errors := acc_errors acc |}
    | None =>
      {| fingerprintDB := (hash result, source_path result) :: fingerprintDB acc;
         acc_files := acc_files acc ++ [result];
         acc_duplicates := acc_duplicates acc;
         acc_errors := acc_errors acc |}
    end
  end.

Definition pdfPaths (src : source) : list (string * option (list N)) :=
  match src with
  | SourceDir path entries => scanDirectory recursive path entries
  | SourceFile path content => [(path, content)]
  end.

Definition sourcePath (src : source) : string :=
  match src with
  | SourceDir path _ => path
  | SourceFile path _ => path
  end.

(** [ingest(sourcePath)] of a fresh ingester. *)
Definition ingest (src : source) : Manifest :=
  let paths := pdfPaths src in
  let acc :=
    fold_left ingestStep paths
              {| fingerprintDB := []; acc_files := []; acc_duplicates := [];
                 acc_errors := [] |} in
  {| source_ := sourcePath src;
     summary := {| total_scanned := List.length paths;
                   registered := List.length (acc_files acc);
                   duplicates_count := List.length (acc_duplicates acc);
                   errors_count := List.length (acc_errors acc) |};
     files := acc_files acc;
     duplicates := acc_duplicates acc;
     errors := acc_errors acc |}.

End Ingest.

(** Lexicographic order on paths by code unit, the order of
    [Array.prototype.sort] without a comparator. *)
Fixpoint pathLeb (a b : list N) : bool :=
  match a, b with
  | [], _ => true
  | _ :: _, [] => false
  | x :: a', y :: b' =>
    if (x <? y)%N then true
    else if (y <? x)%N then false
    else pathLeb a' b'
  end.

Fixpoint sortedPaths (l : list string) : bool :=
  match l with
  | [] => true
  | x :: rest =>
    match rest with
    | [] => true
    | y :: _ => pathLeb (js x) (js y) && sortedPaths rest
    end
  end.

End Ingester.

(* ================================================================== *)
(** ** autosplit-pipeline.js: checkpoint, resume and reports *)
(* ================================================================== *)

Module Pipeline.

(** *** Checkpoint *)

Record StageResult := {
  status : string;
  duration_ms : Z;
  output_path : string
}.

(** The checkpoint without its [checksum] field. *)
Record CheckpointData := {
  pipeline_version : string;
  source : string;
  started_at : string;
  current_stage : nat;
  completed_stages : list nat;
  stage_results : list (string * StageResult)
}.

(** What [JSON.parse] gives for a checkpoint file: the data and the stored
    [checksum], if the field is there. *)
Record Checkpoint := {
  data : CheckpointData;
  checksum : option string
}.

(** The checkpoint path as the file system has it. *)
Inductive CheckpointFile : Type :=
| Absent
| Malformed
| Parsed (raw : Checkpoint).

Inductive level := INFO | WARN | ERROR.

Definition Log := list (level * string).

(** What a run of [main] ends with: [process.exit(code)] or a normal return
    with the result of [runPipeline]. *)
Inductive Outcome (R : Type) : Type :=
| Exit (code : Z)
| Returned (result : R).

Arguments Exit {R} code.
Arguments Returned {R} result.

(** How [await runPipeline(...)] settles: with a result, or with the error
    that a stage has thrown. *)
Inductive Settled (R : Type) : Type :=
| Fulfilled (result : R)
| Rejected (message : string).

Arguments Fulfilled {R} result.
Arguments Rejected {R} message.

Section Resume.

(** [JSON.stringify(obj, null, 2)] and SHA-256 in hexadecimal. *)
Variable stringify : CheckpointData -> string.
Variable sha256 : string -> string.

(** [runPipeline(source, outputDir, args, log, checkpoint)], and whether
    its result was interrupted. *)
Variable R : Type.
Variable runPipeline : string -> option Checkpoint -> Settled R.
Variable interrupted : R -> bool.

Definition computeChecksum (obj : CheckpointData) : string :=
  sha256 (stringify obj).

(** [raw.completed_stages.join(',')]. *)
Definition stagesText (stages : list nat) : string :=
  String.concat "," (map (fun n => string_of_list_ascii (Segmenter.decimal n)) stages).

(** [loadCheckpoint(checkpointPath, log)]; [name] is the base name of the
    path, for the message of [safeReadJSON]. *)
Definition loadCheckpoint (name : string) (file : CheckpointFile)
  : Log * option Checkpoint :=
  match file with
  | Absent => ([], None)
  | Malformed =>
    ([(WARN, String.append "Malformed JSON in " (String.append name " — skipping"));
      (WARN, "Checkpoint file is malformed JSON — starting fresh")], None)
  | Parsed raw =>
    let expected := computeChecksum (data raw) in
    if match checksum raw with
       | Some c => String.eqb c expected
       | None => false
       end
    then ([(INFO, String.append "Checkpoint loaded: completed stages ["
                    (String.append (stagesText (completed_stages (data raw))) "]"))],
          Some raw)
    else ([(WARN, "Checkpoint checksum mismatch — checkpoint is corrupted, starting fresh")],
          None)
  end.

(** The resume branch of [main]. An error thrown by [runPipeline] rejects
    [main], and [main().catch] prints it with [console.error] and leaves
    with exit code 1. *)
Definition mainResume (name : string) (file : CheckpointFile) : Log * Outcome R :=
  let '(log, ckpt) := loadCheckpoint name file in
  match ckpt with
  | None => (log ++ [(WARN, "No valid checkpoint found — cannot resume")], Exit 1)
  | Some c =>
    match runPipeline (source (data c)) (Some c) with
    | Rejected _ => (log, Exit 1)
    | Fulfilled result =>
      if interrupted result
      then (log ++ [(WARN, "Pipeline interrupted during resume")], Exit 130)
      else (log ++ [(INFO, "Resume complete — all stages done")], Returned result)
    end
  end.

End Resume.

(** *** Quality-gate counters and reports *)

Record QcSummary := {
  passed : Z;
  flagged : Z;
  rejected : Z;
  mislabels_caught : Z
}.

(** [qcResults.reduce((sum, q) => sum + f(q.summary), 0)]. *)
Definition reduceSum (f : QcSummary -> Z) (qcResults : list QcSummary) : Z :=
  fold_left (fun sum q => (sum + f q)%Z) qcResults 0%Z.

(** The merge of Stage 6 ("merge all QC results instead of retaining only
    last"). *)
Definition mergeQc (qcResults : list QcSummary) : QcSummary :=
  {| passed := reduceSum passed qcResults;
     flagged := reduceSum flagged qcResults;
     rejected := reduceSum rejected qcResults;
     mislabels_caught := reduceSum mislabels_caught qcResults |}.

(** The parts of the per-run report that the batch report reads. *)
Record Report := {
  r_source : string;
  r_duration_ms : Z;
  total_segments : Z;
  qc : QcSummary;
  review_needed : bool
}.

Definition reviewNeeded (q : option QcSummary) : bool :=
  match q with
  | Some s => (0 <? flagged s)%Z || (0 <? rejected s)%Z || (0 <? mislabels_caught s)%Z
  | None => false
  end.

(** [generateReport]: [stages.qc] is the merged summary, or zeros when
    Stage 6 did not run. *)
Definition generateReport (src : string) (duration : Z) (segments : Z)
           (qcResult : option QcSummary) : Report :=
  {| r_source := src;
     r_duration_ms := duration;
     total_segments := segments;
     qc := match qcResult with
           | Some s => s
           | None => {| passed := 0; flagged := 0; rejected := 0;
                        mislabels_caught := 0 |}
           end;
     review_needed := reviewNeeded qcResult |}.

(** A JSON value, for what is written to [batch-report.json]. *)
#[warnings="-register-all"] Inductive json : Type :=
| JNum (n : Z)
| JStr (s : string)
| JBool (b : bool)
| JArr (items : list json)
| JObj (fields : list (string * json)).

Definition field (key : string) (v : json) : option json :=
  match v with
  | JObj fields =>
    option_map snd (List.find (fun kv => String.eqb (fst kv) key) fields)
  | _ => None
  end.

(** [x || 0] on a number. *)
Definition orZero (x : Z) : Z := if (x =? 0)%Z then 0%Z else x.

(** [generateBatchReport(reports, outputBase, totalDuration, log)]: the
    object written to [batch-report.json], without its time stamp. *)
Definition generateBatchReport (version : string) (reports : list Report)
           (totalDuration : Z) : json :=
  JObj [
    ("pipeline_version", JStr version);
    ("total_duration_ms", JNum totalDuration);
    ("total_pdfs", JNum (Z.of_nat (List.length reports)));
    ("total_segments",
     JNum (fold_left (fun sum r => (sum + orZero (total_segments r))%Z) reports 0%Z));
    ("review_needed", JBool (existsb review_needed reports));
    ("pdfs",
     JArr (map (fun r =>
                  JObj [
                    ("source", JStr (r_source r));
                    ("duration_ms", JNum (r_duration_ms r));
                    ("segments", JNum (total_segments r));
                    ("qc_passed", JNum (orZero (passed (qc r))));
                    ("qc_flagged", JNum (orZero (flagged (qc r))));
                    ("qc_rejected", JNum (orZero (rejected (qc r))));
                    ("review_needed", JBool (review_needed r))
                  ]) reports))
  ].

End Pipeline.

(* ================================================================== *)
(** * Statements of the specification and sample inputs *)
(* ================================================================== *)

Unset Implicit Arguments.

Module ResumeSpec.
Import Pipeline.

(** A stand-in for [JSON.stringify] and SHA-256 on sample checkpoints: the
    stage number decides the digest. *)
Definition sampleStringify (d : CheckpointData) : string :=
  Segmenter.pad3 (current_stage d).

Definition sampleSha256 (s : string) : string := String.append "sha256:" s.

Definition stage3 : CheckpointData :=
  {| pipeline_version := "1.3.0"; source := "/in/processo.pdf";
     started_at := "2026-02-16T10:00:00.000Z"; current_stage := 3;
     completed_stages := [1; 2]%nat; stage_results := [] |}.

(** The checkpoint of stage 3 edited by hand to stage 5, with the checksum
    left as it was. *)
Definition tampered : Checkpoint :=
  {| data := {| pipeline_version := "1.3.0"; source := "/in/processo.pdf";
                started_at := "2026-02-16T10:00:00.000Z"; current_stage := 5;
                completed_stages := [1; 2]%nat; stage_results := [] |};
     checksum := Some (computeChecksum sampleStringify sampleSha256 stage3) |}.

End ResumeSpec.

Module ReportSpec.
Import Pipeline.

Definition zsum (l : list Z) : Z := fold_right Z.add 0%Z l.

(** The claim in the words of the specification: the batch report, or a
    [summary] object inside it, carries the four summed counters. *)
Definition batchSummaryAdditive (reports : list Report) : Prop :=
  let batch := generateBatchReport "1.3.0" reports 0 in
  exists summary : json,
    (summary = batch \/ field "summary" batch = Some summary)
    /\ field "passed" summary = Some (JNum (zsum (map (fun r => passed (qc r)) reports)))
    /\ field "flagged" summary = Some (JNum (zsum (map (fun r => flagged (qc r)) reports)))
    /\ field "rejected" summary = Some (JNum (zsum (map (fun r => rejected (qc r)) reports)))
    /\ field "mislabels_caught" summary
       = Some (JNum (zsum (map (fun r => mislabels_caught (qc r)) reports))).

Definition qcE4a : QcSummary :=
  {| passed := 3; flagged := 1; rejected := 0; mislabels_caught := 0 |}.
Definition qcE4b : QcSummary :=
  {| passed := 2; flagged := 0; rejected := 1; mislabels_caught := 1 |}.
Definition qcE4c : QcSummary :=
  {| passed := 5; flagged := 2; rejected := 0; mislabels_caught := 0 |}.

Definition reportsE4 : list Report :=
  [generateReport "a.pdf" 10 3 (Some qcE4a);
   generateReport "b.pdf" 10 2 (Some qcE4b);
   generateReport "c.pdf" 10 5 (Some qcE4c)].

(** The entry of one PDF in the [pdfs] array of the batch report. *)
Definition pdfEntry (r : Report) : json :=
  JObj [("source", JStr (r_source r));
        ("duration_ms", JNum (r_duration_ms r));
        ("segments", JNum (total_segments r));
        ("qc_passed", JNum (passed (qc r)));
        ("qc_flagged", JNum (flagged (qc r)));
        ("qc_rejected", JNum (rejected (qc r)));
        ("review_needed", JBool (review_needed r))].

End ReportSpec.

Module IngestSpec.
Import Ingester.

Definition pdfBytes : list N := [37; 80; 68; 70; 45; 49; 46; 52]%N.

(** A directory that the file system lists as [b.pdf], [a.pdf]. *)
Definition unsortedListing : list entry :=
  [File "b.pdf" (Some pdfBytes); File "a.pdf" (Some (pdfBytes ++ [10%N]))].

End IngestSpec.

Module ProfilingSpec.
Import Profiler Profiling.

(** The claim in the words of the specification. *)
Definition propagationClaim (pages : list Page.t) : Prop :=
  let before := map profilePage pages in
  let after := profilePages pages in
  let n := List.length (nonEmptyOf before) in
  let d := degradedCountOf before in
  ((n <= 2 * d)%nat ->
   Forall2 (fun b a =>
              PageProfile.empty b = false ->
              PageProfile.is_degraded a = true
              /\ (PageProfile.propagated a = Some true
                  <-> PageProfile.is_degraded b = false))
           before after)
  /\ ((2 * d < n)%nat ->
      map PageProfile.is_degraded after = map PageProfile.is_degraded before).

(** What the propagation loop does to one profile. *)
Definition propagatedFrom (d n : nat) (b a : PageProfile.t) : Prop :=
  if PageProfile.empty b then a = b
  else a = PageProfile.set_degraded b true (Some (d <? n)%nat).

Definition cleanText : jsstring :=
  js "Vistos. Ante o exposto, julgo procedente o pedido formulado na inicial para condenar o réu ao pagamento das custas e honorários. P.R.I.".

Definition shortPage (n : Z) : Page.t :=
  Page.mk n (js "fls. 12") (95 # 100) false "fast-parse-poppler".

Definition cleanPage (n : Z) : Page.t :=
  Page.mk n cleanText (95 # 100) false "fast-parse-poppler".

Definition pages3 : list Page.t := [shortPage 1; shortPage 2; cleanPage 3].

Definition mkProfile (n r : Z) (lvl : noise) (g : Q) (t : tier) (c : nat)
           (d e : bool) (p : option bool) : PageProfile.t :=
  {| PageProfile.page_number := n; PageProfile.readability_score := r;
     PageProfile.noise_level := lvl; PageProfile.word_garbage_score := g;
     PageProfile.quality_tier := t; PageProfile.char_count := c;
     PageProfile.is_degraded := d; PageProfile.empty := e;
     PageProfile.propagated := p |}.

(** The statistical median of the specification: the middle value of the
    sorted scores, or the mean of the two middle values. *)
Definition statisticalMedian (scores : list Z) : Q :=
  let s := sortAsc scores in
  let n := List.length s in
  if Nat.even n
  then (inject_Z (nth (n / 2 - 1) s 0%Z) + inject_Z (nth (n / 2) s 0%Z)) / 2
  else inject_Z (nth (n / 2) s 0%Z).

(** The claim in the words of the specification. *)
Definition medianClaim (pageProfiles : list PageProfile.t) (filePath : string) : Prop :=
  pageProfiles <> [] ->
  let doc := aggregatePageProfiles pageProfiles filePath in
  let m := statisticalMedian (map PageProfile.readability_score pageProfiles) in
  inject_Z (DocumentProfile.readability_score doc) == m
  /\ (forall z, inject_Z z == m -> DocumentProfile.quality_tier doc = getQualityTier z).

Definition profileWith (score : Z) : PageProfile.t :=
  mkProfile 1 score low 0 (getQualityTier score) 1000 (score <? 60)%Z false None.

End ProfilingSpec.

Module ClassifierSpec.
Import Classifier.

(** Every structural pattern of a disambiguation entry is a pattern of the
    rule of that type, and none is among its entity-only patterns. *)
Definition tableConsistent : bool :=
  forallb (fun r =>
             match lookupDisambiguation (type r) with
             | None => true
             | Some d =>
               forallb (fun p => mem p (patterns r) && negb (mem p (entityOnly d)))
                       (structural d)
             end) rules.

(** The claim in the words of the specification: the penalised confidence is
    at most 0.30 times the raw confidence of the rule. *)
Definition entityOnlyClaim (rule : Rule) (d : Disambiguation)
           (cleanedText heading tail : jsstring) (s : Score) : Prop :=
  In rule rules ->
  lookupDisambiguation (type rule) = Some d ->
  scoreRule rule cleanedText heading tail = Some s ->
  (forall m, In m (sindicators s) -> In m (entityOnly d)) ->
  hasStructuralInBody d cleanedText = false ->
  sconfidence (disambiguate cleanedText heading s)
  <= (3 # 10) * rawConfidence rule cleanedText heading tail
  /\ disambiguation (disambiguate cleanedText heading s) = Some "entity-mention-only".

(** Nine lines that mention a judge of appeal once, below the heading and
    above the tail. *)
Definition body9 : jsstring :=
  join nl (map js ["Processo de origem na comarca";
                   "Segue o resumo dos autos";
                   "Parte autora: empresa de papel";
                   "Parte passiva: municipio local";
                   "Assunto: tributos municipais";
                   "O desembargador foi sorteado na data de ontem";
                   "Espera-se a juntada de documentos";
                   "Nada mais consta dos autos";
                   "Local e data conforme protocolo"]).

Definition heading9 : jsstring := join nl (slice_first 5 (meaningfulLines body9)).
Definition tail9 : jsstring := join nl (slice_last 3 (meaningfulLines body9)).

Definition acordaoRule : Rule :=
  {| type := "acordao"; weight := (90 # 100);
     patterns := ["ac[oó]rd[aã][om]"; "desembargador"; "ementa"; "v\.?\s*u\.?"] |}.

Definition acordaoEntry : Disambiguation :=
  {| dtype := "acordao";
     structural := ["ac[oó]rd[aã][om]"; "ementa"];
     entityOnly := ["desembargador"; "v\.?\s*u\.?"] |}.

Definition score9 : Score :=
  {| stype := "acordao"; sconfidence := 23 # 100;
     sindicators := ["desembargador"]; disambiguation := None |}.

Definition carfText : jsstring :=
  js "Consta dos autos que o orgao CARF examinou o caso com a devida calma e prudencia hoje.".

End ClassifierSpec.

Module SegmenterSpec.
Import Segmenter.

(** A page whose only boundary marker is [blank-page]: the marker is there
    and no other marker has weight 0.7 or more. *)
Definition onlyBlank (page : Page.t) : Prop :=
  let markers := detectBoundaries (Page.text page) (Page.page_number page) in
  hasBlank markers = true /\ strongNonBlank markers = false.

(** The counter is the number of segments opened so far. *)
Definition counted (st : State) : Prop :=
  List.length (close st) = segmentCounter st.

(** The claim in the words of the specification, at any position: the
    pages before are [pre]. *)
Definition blankNeverOpens (c : option Classifier.Classification)
           (pre : list Page.t) (page : Page.t) : Prop :=
  onlyBlank page ->
  segmentCounter (step c (fold_left (step c) pre init) page)
  = segmentCounter (fold_left (step c) pre init).

Definition blankPage (n : Z) : Page.t := Page.mk n [] 0 true "fast-parse-poppler".

Definition sentencePage (n : Z) : Page.t :=
  Page.mk n (join nl [js "SENTENÇA";
                      js "Vistos. Ante o exposto, julgo procedente o pedido formulado na inicial. P.R.I."])
          (95 # 100) false "fast-parse-poppler".

End SegmenterSpec.

Module L2Spec.
Import Classifier L2.

(** What Stage 5.6 decides for a segment. *)
Definition labels (segments : list Segment.t) : list (string * option Q) :=
  map (fun s => (Segment.doc_type s, Segment.classification_confidence s)) segments.

(** The claim in the words of the specification. *)
Definition l2Idempotent (pages : list Page.t) (pdf : option Classification)
           (segments : list Segment.t) : Prop :=
  labels (l2pass pages pdf (l2pass pages pdf segments))
  = labels (l2pass pages pdf segments).

(** A segment that Stage 5.6 leaves alone: a separator, a segment without a
    known type, or a segment of a neutral type other than the type of the
    PDF. *)
Definition quiet (pdf : option Classification) (s : Segment.t) : bool :=
  String.eqb (Segment.type s) "separator"
  || String.eqb (Segment.doc_type s) ""
  || String.eqb (Segment.doc_type s) "unknown"
  || (mem (Segment.doc_type s) NEUTRAL_TYPES
      && negb (String.eqb (Segment.doc_type s) (pdfTypeOf pdf))).

Definition segmentOf (id type docType : string) (first last : Z)
           (conf : option Q) : Segment.t :=
  {| Segment.segment_id := id; Segment.type := type;
     Segment.doc_type := docType;
     Segment.classification_source := "boundary-rules";
     Segment.page_start := first; Segment.page_end := last;
     Segment.confidence := 85 # 100; Segment.boundary_markers := [];
     Segment.classification_confidence := conf;
     Segment.classification_indicators := None;
     Segment.l2_previous_type := None; Segment.l2_boost := None;
     Segment.l2_reasons := None; Segment.cascade_level := None |}.

Definition pieceOf (id docType : string) (first last : Z) : Segment.t :=
  segmentOf id "piece" docType first last None.

Definition separatorOf (id : string) (n : Z) : Segment.t :=
  segmentOf id "separator" "separator" n n None.

Definition quietSegments : list Segment.t :=
  [separatorOf "seg-001" 1; pieceOf "seg-002" "despacho" 2 3;
   pieceOf "seg-003" "certidao" 4 4].

End L2Spec.

Module ExporterSpec.
Import Exporter.

(** The pattern of the specification for Markdown file names. *)
Definition mdPattern : Re.regex := ReParse.re "^[0-9]{3}-[a-z-]+-[a-z-]+\.md$".

Definition matchesSpec (name : string) : bool :=
  Re.test Re.fl_none mdPattern (js name).

Definition segmentTypes : list string :=
  ["piece"; "attachment"; "exhibit"; "cover"; "separator"].

(** The claim in the words of the specification. *)
Definition filenameClaim (segments : list Segment.t) : Prop :=
  Forall (fun s => Classifier.mem (Segment.doc_type s) Classifier.VALID_TYPES = true)
         segments ->
  Forall (fun name => matchesSpec name = true) (exportNames segments)
  /\ NoDup (exportNames segments).

(** The whitelist without the one type that has a digit. *)
Definition plainTypes : list string :=
  filter (fun d => negb (String.eqb d "decisao-admin-1inst")) Classifier.VALID_TYPES.

(** A segment of one of the five segment types whose [doc_type] is in the
    whitelist and has no digit. *)
Definition wellTyped (s : Segment.t) : bool :=
  Classifier.mem (Segment.type s) segmentTypes
  && Classifier.mem (Segment.doc_type s) Classifier.VALID_TYPES
  && negb (String.eqb (Segment.doc_type s) "decisao-admin-1inst").

Definition adminDecision : Segment.t :=
  L2Spec.segmentOf "seg-001" "piece" "decisao-admin-1inst" 1 3 (Some (6 # 10)).

Definition sentenceSegment : Segment.t :=
  L2Spec.segmentOf "seg-002" "piece" "sentenca" 4 9 (Some (9 # 10)).

(** Decimal digits and the number they write, least significant first. *)
Definition digitValue (c : ascii) : nat := nat_of_ascii c - 48.

Fixpoint valueRev (l : list ascii) : nat :=
  match l with
  | [] => 0
  | c :: r => digitValue c + 10 * valueRev r
  end.

Definition isDigit (c : ascii) : bool :=
  (48 <=? nat_of_ascii c)%nat && (nat_of_ascii c <=? 57)%nat.

(** The pattern after its three digits. *)
Definition digitSet : Re.regex := Re.RSet false [(48, 57)]%N.

Definition tailRe : Re.regex :=
  Eval vm_compute in ReParse.re "-[a-z-]+-[a-z-]+\.md$".

Definition isDigitUnit (c : N) : bool := Re.set_mem Re.fl_none false [(48, 57)]%N c.

Definition tailMatches (s : jsstring) : bool :=
  match Re.rmatch Re.fl_none tailRe None s (fun p s' => Some (p, s')) with
  | Some _ => true
  | None => false
  end.

Definition threeDigits (s : string) : bool :=
  match s with
  | String a (String b (String c EmptyString)) =>
    isDigitUnit (byte_of a) && isDigitUnit (byte_of b) && isDigitUnit (byte_of c)
    && (byte_of a <? 128)%N && (byte_of b <? 128)%N && (byte_of c <? 128)%N
  | _ => false
  end.

Definition tailOf (type docType : string) : string :=
  String.append "-" (String.append type
    (String.append "-" (String.append docType ".md"))).

End ExporterSpec.

Module GarbageSpec.
Import Profiler.

(** A text that takes one of the two early returns of
    [detectWordLevelGarbage]. *)
Definition tooShort (text : jsstring) : Prop :=
  (List.length (trim text) < 30)%nat
  \/ (List.length (splitWords (stripPJeFooter text)) < 5)%nat.

Definition garbledShort : jsstring := js "x~q Zz§ k¬ w~~".

Definition garbledFewWords : jsstring :=
  js "FIORIACELULOSSSSSSSSSSSSSSSSSSS C~sponsavel~~~~~~~~~ staRvIço§§§§".

End GarbageSpec.

(* ================================================================== *)
(** * More of the scripts *)
(* ================================================================== *)

(** ** quality-profiler.js: PageSegmenter._validateCoverage *)

Module Coverage.

(** The values of [p] in [for (let p = a; p <= b; p++)]. *)
Definition range (a b : Z) : list Z :=
  map (fun k => (a + Z.of_nat k)%Z) (seq 0 (Z.to_nat (b - a + 1))).

Definition memZ (p : Z) (set : list Z) : bool := existsb (Z.eqb p) set.

(** [coveredPages] after the first loop: a [Set], kept as the list of what
    was added. *)
Definition coveredPages (segments : list Segment.t) : list Z :=
  flat_map (fun seg => range (Segment.page_start seg) (Segment.page_end seg)) segments.

(** [_validateCoverage(segments, totalPages)]: the orphans. *)
Definition validateCoverage (segments : list Segment.t) (totalPages : nat) : list Z :=
  filter (fun p => negb (memZ p (coveredPages segments)))
         (range 1 (Z.of_nat totalPages)).

End Coverage.

(** ** ocr-router.js: OCRRouter *)

Module Router.
Import Profiler.

(** What [route] reads of a profile. [orientation] is missing in the
    profiles of [aggregatePageProfiles]; a missing [skew_detected] is
    falsy. *)
Record Profile := {
  orientation : option string;
  skew_detected : bool;
  has_text_layer : bool;
  readability_score : Z;
  quality_tier : tier
}.

Record Decision := {
  method : string;
  engine : string;
  preprocessing : list string;
  rationale : string;
  d_quality_tier : tier;
  d_readability_score : Z
}.

Definition isNormal (o : option string) : bool :=
  match o with
  | Some s => String.eqb s "normal"
  | None => false
  end.

(** [route(profile)]; [[...new Set(preprocessing)]] keeps first
    occurrences. *)
Definition route (profile : Profile) : Decision :=
  let pre :=
    (if negb (isNormal (orientation profile)) then ["auto-rotate"] else [])
    ++ (if skew_detected profile then ["deskew"] else []) in
  let r := readability_score profile in
  let '(m, e, extra, why) :=
    if has_text_layer profile && (80 <=? r)%Z then
      ("fast-parse", "pdf-parse", [], "Clean digital PDF with native text layer")
    else if has_text_layer profile && (60 <=? r)%Z then
      ("fast-parse", "pdf-parse", [],
       "Text layer present but moderate quality — fast parse with OCR verify")
    else if (60 <=? r)%Z then
      ("ocr-standard", "tesseract", ["deskew"],
       "Scan with good quality — standard OCR sufficient")
    else if (40 <=? r)%Z then
      ("ocr-enhanced", "tesseract", ["deskew"; "denoise"],
       "Degraded scan — enhanced OCR with preprocessing")
    else if (20 <=? r)%Z then
      ("ocr-enhanced", "tesseract",
       ["deskew"; "denoise"; "contrast-enhance"; "binarize"],
       "Poor quality scan — full preprocessing pipeline")
    else
      ("manual-review", "none", [], "Unusable quality — requires human review") in
  {| method := m; engine := e;
     preprocessing := Classifier.dedup [] (pre ++ extra);
     rationale := why;
     d_quality_tier := quality_tier profile;
     d_readability_score := r |}.

(** The profile that Stage 3 routes: the one of [aggregatePageProfiles],
    which has neither [orientation] nor [skew_detected]. *)
Definition ofDocument (d : DocumentProfile.t) : Profile :=
  {| orientation := None; skew_detected := false;
     has_text_layer := DocumentProfile.has_text_layer d;
     readability_score := DocumentProfile.readability_score d;
     quality_tier := DocumentProfile.quality_tier d |}.

(** The [reason] of a page route is a text made of these data. *)
Inductive reason : Type :=
| EmptyPage
| CleanDigitalText
| Degraded (readability : Z) (n : noise)
| PoorQuality (readability : Z) (n : noise).

Record PageRoute := {
  page : Z;
  pr_method : string;
  needs_ocr : bool;
  pr_reason : reason
}.

(** The callback of [routePages]. *)
Definition routePage (pp : PageProfile.t) : PageRoute :=
  if PageProfile.empty pp then
    {| page := PageProfile.page_number pp; pr_method := "skip";
       needs_ocr := false; pr_reason := EmptyPage |}
  else if negb (PageProfile.is_degraded pp) then
    {| page := PageProfile.page_number pp; pr_method := "fast-parse";
       needs_ocr := false; pr_reason := CleanDigitalText |}
  else if (40 <=? PageProfile.readability_score pp)%Z then
    {| page := PageProfile.page_number pp; pr_method := "ocr-standard";
       needs_ocr := true;
       pr_reason := Degraded (PageProfile.readability_score pp)
                             (PageProfile.noise_level pp) |}
  else
    {| page := PageProfile.page_number pp; pr_method := "ocr-enhanced";
       needs_ocr := true;
       pr_reason := PoorQuality (PageProfile.readability_score pp)
                                (PageProfile.noise_level pp) |}.

Definition routePages (pageProfiles : list PageProfile.t) : list PageRoute :=
  map routePage pageProfiles.

End Router.

(** ** ocr-router.js: TextExtractor._splitIntoPages and extractHybrid *)

Module Hybrid.
Import Profiler Extractor.

(** [Math.ceil(a / b)] for a positive [b]. *)
Definition ceilDiv (a b : nat) : nat := ((a + b - 1) / b)%nat.

(** [fullText.slice(from, to)]. *)
Definition slice (from to : nat) (s : jsstring) : jsstring :=
  firstn (to - from) (skipn from s).

Fixpoint numbered {A B} (f : nat -> A -> B) (i : nat) (l : list A) : list B :=
  match l with
  | [] => []
  | x :: rest => f i x :: numbered f (S i) rest
  end.

(** [_splitIntoPages(fullText, pageCount)]. The pages have no [method]; it
    is the empty string here. *)
Definition splitIntoPages (fullText : jsstring) (pageCount : nat) : list Page.t :=
  match fullText with
  | [] => [Page.mk 1 [] (95 # 100) true ""]
  | _ =>
    if (pageCount <=? 1)%nat then [Page.mk 1 fullText (95 # 100) false ""]
    else
      let formFeedPages := split_on 12%N fullText in
      if Qgeb (ofnat (List.length formFeedPages)) (ofnat pageCount * (8 # 10)) then
        numbered (fun i text =>
                    Page.mk (Z.of_nat (i + 1)) (trim text) (95 # 100)
                            (List.length (trim text) <? 50)%nat "")
                 0 formFeedPages
      else
        let charsPerPage := ceilDiv (List.length fullText) pageCount in
        map (fun i =>
               let text := trim (slice (i * charsPerPage) ((i + 1) * charsPerPage)
                                       fullText) in
               Page.mk (Z.of_nat (i + 1)) text (8 # 10)
                       (List.length text <? 50)%nat "")
            (seq 0 pageCount)
  end.

Record Extraction := {
  method : string;
  pages : list Page.t;
  overall_confidence : Q;
  fallback_triggered : bool;
  ocr_pages : list Z;
  ocr_method : option string
}.

(** [ocrMap.get(n)] after the loop of [ocrMap.set]: the last result with
    that page number. *)
Definition ocrMapGet (ocrResults : list Page.t) (n : Z) : option Page.t :=
  List.find (fun r => (Page.page_number r =? n)%Z) (rev ocrResults).

(** [extractHybrid(filePath, fastParsePages, pageRoutes)]; [ocrPages] is
    what [this.ocrPages(filePath, pageNumbers)] returns. *)
Definition extractHybrid (ocrPages : list Z -> list Page.t)
           (fastParsePages : list Page.t) (pageRoutes : list Router.PageRoute)
  : Extraction :=
  let ocrNeeded := filter Router.needs_ocr pageRoutes in
  match ocrNeeded with
  | [] =>
    {| method := "fast-parse"; pages := fastParsePages;
       overall_confidence := 95 # 100; fallback_triggered := false;
       ocr_pages := []; ocr_method := None |}
  | _ =>
    let ocrPageNums := map Router.page ocrNeeded in
    let hasEnhanced :=
      existsb (fun r => String.eqb (Router.pr_method r) "ocr-enhanced") ocrNeeded in
    let ocrResults := ocrPages ocrPageNums in
    let mergedPages :=
      map (fun fp => mergePage (ocrMapGet ocrResults (Page.page_number fp)) fp)
          fastParsePages in
    let confidences :=
      map Page.confidence (filter (fun p => negb (Page.empty p)) mergedPages) in
    let avgConf :=
      F64.div (fold_left (fun s c => F64.add s (F64.lit c)) confidences 0)
              (ofnat (Nat.max (List.length confidences) 1)) in
    {| method := "hybrid"; pages := mergedPages;
       overall_confidence := F64.round2 avgConf; fallback_triggered := false;
       ocr_pages := ocrPageNums;
       ocr_method := Some (if hasEnhanced then "ocr-enhanced" else "ocr-standard") |}
  end.

End Hybrid.

(** ** md-exporter.js: MarkdownExporter.buildBody *)

Module Body.

(** The entries of [parts]; the two comments are rendered with the page
    number. *)
Inductive part : Type :=
| EmptyPageComment (n : Z)
| PageBreak (n : Z)
| PageText (text : jsstring).

Definition relevant (pageStart pageEnd : Z) (p : Page.t) : bool :=
  (pageStart <=? Page.page_number p)%Z && (Page.page_number p <=? pageEnd)%Z.

(** The loop over [relevantPages], from the parts pushed so far. *)
Fixpoint pushPages (parts : list part) (relevantPages : list Page.t) : list part :=
  match relevantPages with
  | [] => parts
  | page :: rest =>
    if Page.empty page
    then pushPages (parts ++ [EmptyPageComment (Page.page_number page)]) rest
    else
      let parts' :=
        match parts with
        | [] => parts
        | _ => parts ++ [PageBreak (Page.page_number page)]
        end in
      pushPages (parts' ++ [PageText (Page.text page)]) rest
  end.

(** [buildBody(pages, pageStart, pageEnd)]: [None] is the note that the
    content was not extracted, [Some parts] the parts that are joined. *)
Definition buildBody (pages : list Page.t) (pageStart pageEnd : Z)
  : option (list part) :=
  match filter (relevant pageStart pageEnd) pages with
  | [] => None
  | relevantPages => Some (pushPages [] relevantPages)
  end.

End Body.

(** ** qc-validator.js: QCValidator *)

Module QC.
Import Coverage.

Inductive severity := REJECT | FLAG.

(** An issue: severity, check, and the page and file of its message. *)
Record Issue := {
  i_severity : severity;
  check : string;
  i_page : option Z;
  i_file : option string
}.

(** An entry of [index.files] with its [pages] split at the dash. *)
Record IndexFile := {
  file : string;
  start : Z;
  end_ : Z
}.

Definition overlapIssue (p : Z) (f : IndexFile) : Issue :=
  {| i_severity := REJECT; check := "page-overlap"; i_page := Some p;
     i_file := Some (file f) |}.

Definition gapIssue (p : Z) : Issue :=
  {| i_severity := FLAG; check := "page-gap"; i_page := Some p; i_file := None |}.

(** The inner loop of [validatePageRanges] over the pages of one file. *)
Definition coverFile (acc : list Issue * list Z) (f : IndexFile)
  : list Issue * list Z :=
  fold_left (fun a p =>
               let '(issues, covered) := a in
               ((if memZ p covered then issues ++ [overlapIssue p f] else issues),
                p :: covered))
            (range (start f) (end_ f)) acc.

(** [validatePageRanges(indexData)]. *)
Definition validatePageRanges (files : list IndexFile) (total_pages : nat)
  : list Issue :=
  let '(issues, covered) := fold_left coverFile files ([], []) in
  issues
  ++ map gapIssue
         (filter (fun p => negb (memZ p covered)) (range 1 (Z.of_nat total_pages))).

(** What the exporter writes for a segment in [index.json]. *)
Definition indexFileOf (name : string) (s : Segment.t) : IndexFile :=
  {| file := name; start := Segment.page_start s; end_ := Segment.page_end s |}.

Inductive status := passed | flagged | rejected.

Definition isReject (i : Issue) : bool :=
  match i_severity i with REJECT => true | FLAG => false end.

Definition isFlag (i : Issue) : bool :=
  match i_severity i with FLAG => true | REJECT => false end.

(** The [status] of the result of [validateFile]. *)
Definition statusOf (issues : list Issue) : status :=
  if existsb isReject issues then rejected
  else if existsb isFlag issues then flagged
  else passed.

Record Summary := {
  total_files : nat;
  s_passed : nat;
  s_flagged : nat;
  s_rejected : nat;
  mislabels_caught : nat
}.

Definition missingFile : Issue :=
  {| i_severity := REJECT; check := "missing-file"; i_page := None; i_file := None |}.

Record Counters := {
  c_results : list (string * status * list Issue);
  c_passed : nat;
  c_flagged : nat;
  c_rejected : nat;
  c_mislabels : nat
}.

(** One iteration of the loop of [runQualityGate] over [index.files];
    [issuesOf] gives the issues that [validateFile] finds in a file, or
    nothing when the file is not on disk. *)
Definition gateStep (issuesOf : string -> option (list Issue)) (c : Counters)
           (f : IndexFile) : Counters :=
  match issuesOf (file f) with
  | None =>
    {| c_results := c_results c ++ [(file f, rejected, [missingFile])];
       c_passed := c_passed c; c_flagged := c_flagged c;
       c_rejected := S (c_rejected c); c_mislabels := c_mislabels c |}
  | Some issues =>
    let st := statusOf issues in
    {| c_results := c_results c ++ [(file f, st, issues)];
       c_passed := match st with passed => S (c_passed c) | _ => c_passed c end;
       c_flagged := match st with flagged => S (c_flagged c) | _ => c_flagged c end;
       c_rejected := match st with rejected => S (c_rejected c) | _ => c_rejected c end;
       c_mislabels :=
         if existsb (fun i => String.eqb (check i) "mislabel") issues
         then S (c_mislabels c) else c_mislabels c |}
  end.

(** [runQualityGate(outputDir, indexPath)]: the summary and the results,
    with the result of the page ranges at the end when it has issues. *)
Definition runQualityGate (issuesOf : string -> option (list Issue))
           (files : list IndexFile) (total_pages : nat)
  : Summary * list (string * status * list Issue) :=
  let c :=
    fold_left (gateStep issuesOf) files
              {| c_results := []; c_passed := 0; c_flagged := 0; c_rejected := 0;
                 c_mislabels := 0 |} in
  let rangeIssues := validatePageRanges files total_pages in
  let results :=
    match rangeIssues with
    | [] => c_results c
    | _ =>
      c_results c
      ++ [("_page-coverage",
           (if existsb isReject rangeIssues then rejected else flagged),
           rangeIssues)]
    end in
  ({| total_files := List.length files; s_passed := c_passed c;
      s_flagged := c_flagged c; s_rejected := c_rejected c;
      mislabels_caught := c_mislabels c |},
   results).

End QC.

(** ** index-generator.js and qc-validator.js: essential pieces *)

Module Essential.

Definition ESSENTIAL_PIECES : list (string * list string) := [
  ("eef", ["inicial-eef"; "cda"; "sentenca"]);
  ("fase-administrativa",
   ["defesa-administrativa"; "impugnacao-auto-infracao";
    "recurso-voluntario"; "parecer-seort"; "decisao-adene"]);
  ("mandado-seguranca", ["inicial-ms"; "informacoes-ms"; "decisao-liminar"; "sentenca"]);
  ("embargos-execucao",
   ["impugnacao-embargos"; "replica-impugnacao"; "sentenca-embargos";
    "embargos-declaracao"; "apelacao"; "contrarrazoes"]);
  ("recurso", ["peticao-recursal"; "contrarrazoes"; "acordao"]);
  ("acao-rescisoria", ["inicial"; "contestacao"; "sentenca"]);
  ("agravo", ["peticao-recursal"; "decisao-agravada"; "contrarrazoes"])
].

(** The pieces that the table lists for [processType]; none for a name that
    is not a key of the table. *)
Definition expectedOf (processType : string) : list string :=
  match List.find (fun kv => String.eqb (fst kv) processType) ESSENTIAL_PIECES with
  | Some kv => snd kv
  | None => []
  end.

(** The properties that the object literal [ESSENTIAL_PIECES] inherits from
    [Object.prototype], with the [length] of each: the number of parameters
    of a function, nothing for the object behind [__proto__]. *)
Definition OBJECT_PROTOTYPE : list (string * option nat) := [
  ("constructor", Some 1%nat);
  ("__defineGetter__", Some 2%nat);
  ("__defineSetter__", Some 2%nat);
  ("hasOwnProperty", Some 1%nat);
  ("__lookupGetter__", Some 1%nat);
  ("__lookupSetter__", Some 1%nat);
  ("isPrototypeOf", Some 1%nat);
  ("propertyIsEnumerable", Some 1%nat);
  ("toString", Some 0%nat);
  ("valueOf", Some 0%nat);
  ("__proto__", None);
  ("toLocaleString", Some 0%nat)
].

(** What [ESSENTIAL_PIECES[processType] || []] evaluates to: the array of a
    key of the table, the empty array for a name that the object does not
    have, or an inherited member, which is truthy and is not an array. *)
Inductive member : Type :=
| Pieces (expected : list string)
| Inherited (length : option nat).

Definition lookup (processType : string) : member :=
  match List.find (fun kv => String.eqb (fst kv) processType) ESSENTIAL_PIECES with
  | Some kv => Pieces (snd kv)
  | None =>
    match List.find (fun kv => String.eqb (fst kv) processType) OBJECT_PROTOTYPE with
    | Some kv => Inherited (snd kv)
    | None => Pieces []
    end
  end.

Definition includes (l : list string) (x : string) : bool := Classifier.mem x l.

Record Check := {
  complete : bool;
  missing : list string;
  found : list string;
  coverage : Q
}.

(** [checkEssentialPieces(foundTypes, processType)] of index-generator.js;
    [None] is the [TypeError] of [expected.filter] on a member that is not
    an array and whose [length] is not 0. *)
Definition checkEssentialPieces (foundTypes : list string) (processType : string)
  : option Check :=
  match lookup processType with
  | Pieces [] | Inherited (Some O) =>
    Some {| complete := true; missing := []; found := []; coverage := 1 |}
  | Pieces expected =>
    let found := filter (includes foundTypes) expected in
    let missing := filter (fun e => negb (includes foundTypes e)) expected in
    Some {| complete := (List.length missing =? 0)%nat;
            missing := missing; found := found;
            coverage := ofnat (List.length found) / ofnat (List.length expected) |}
  | Inherited _ => None
  end.

Record QcCheck := {
  qc_complete : bool;
  qc_missing : list string;
  qc_coverage : Q
}.

(** [checkEssentialPieces(segments, processType)] of qc-validator.js, on
    the [doc_type] of the segments; its table is a copy of the one above.
    [None] is the [TypeError] of [expected.filter]. *)
Definition qcCheckEssentialPieces (segmentTypes : list string) (processType : string)
  : option QcCheck :=
  let found := segmentTypes in
  match lookup processType with
  | Pieces [] | Inherited (Some O) =>
    Some {| qc_complete := true; qc_missing := []; qc_coverage := 1 |}
  | Pieces expected =>
    let missing := filter (fun e => negb (includes found e)) expected in
    Some {| qc_complete := (List.length missing =? 0)%nat;
            qc_missing := missing;
            qc_coverage :=
              (ofnat (List.length expected) - ofnat (List.length missing))
              / ofnat (List.length expected) |}
  | Inherited _ => None
  end.

Definition matched (foundTypes : list string) (expected : list string) : nat :=
  List.length (filter (includes foundTypes) expected).

(** [detectProcessType(foundTypes)]: the loop over the entries, from
    [bestType] and [bestScore]. *)
Definition detectStep (foundTypes : list string) (best : option string * nat)
           (entry : string * list string) : option string * nat :=
  let m := matched foundTypes (snd entry) in
  if (snd best <? m)%nat then (Some (fst entry), m) else best.

Definition detectProcessType (foundTypes : list string) : option string :=
  let '(bestType, bestScore) :=
    fold_left (detectStep foundTypes) ESSENTIAL_PIECES (None, 0%nat) in
  if (0 <? bestScore)%nat then bestType else None.

End Essential.

(** ** autosplit-pipeline.js: command line, source and checkpoint *)

Module Cli.

Record Args := {
  source : option string;
  output : option string;
  resume : option string;
  verbose : bool;
  help : bool
}.

Definition noArgs : Args :=
  {| source := None; output := None; resume := None; verbose := false;
     help := false |}.

Definition startsWithDash (s : string) : bool := String.prefix "-" s.

Definition oneOf (a x y : string) : bool := String.eqb a x || String.eqb a y.

(** The loop of [parseArgs] over [argv] from index 2: the arguments, or the
    message printed before [process.exit(1)]. *)
Fixpoint parseFrom (rest : list string) (args : Args) : Args + string :=
  match rest with
  | [] => inl args
  | a :: rest' =>
    if oneOf a "--source" "-s" then
      match rest' with
      | v :: rest'' =>
        if startsWithDash v then inr "Error: --source requires a path value"
        else parseFrom rest''
               {| source := Some v; output := output args; resume := resume args;
                  verbose := verbose args; help := help args |}
      | [] => inr "Error: --source requires a path value"
      end
    else if oneOf a "--output" "-o" then
      match rest' with
      | v :: rest'' =>
        if startsWithDash v then inr "Error: --output requires a directory value"
        else parseFrom rest''
               {| source := source args; output := Some v; resume := resume args;
                  verbose := verbose args; help := help args |}
      | [] => inr "Error: --output requires a directory value"
      end
    else if oneOf a "--resume" "-r" then
      match rest' with
      | v :: rest'' =>
        if startsWithDash v then inr "Error: --resume requires a checkpoint file path"
        else parseFrom rest''
               {| source := source args; output := output args; resume := Some v;
                  verbose := verbose args; help := help args |}
      | [] => inr "Error: --resume requires a checkpoint file path"
      end
    else if oneOf a "--verbose" "-v" then
      parseFrom rest'
        {| source := source args; output := output args; resume := resume args;
           verbose := true; help := help args |}
    else if oneOf a "--help" "-h" then
      parseFrom rest'
        {| source := source args; output := output args; resume := resume args;
           verbose := verbose args; help := true |}
    else if startsWithDash a then inr (String.append "Unknown option: " a)
    else parseFrom rest' args
  end.

(** [parseArgs(argv)]: the first two entries are the interpreter and the
    script. *)
Definition parseArgs (argv : list string) : Args + string :=
  parseFrom (skipn 2 argv) noArgs.

End Cli.

Module Source.
Import Ingester.

(** What [fs.statSync(sourcePath)] and [fs.readdirSync(sourcePath)] give. *)
Inductive node : Type :=
| IsFile
| IsDirectory (listing : list string)
| IsOther.

Inductive detected : Type :=
| Single (file : string)
| Batch (files : list string).

(** [names.sort()]: ascending by UTF-16 code units. *)
Fixpoint insertName (x : string) (l : list string) : list string :=
  match l with
  | [] => [x]
  | y :: l' => if pathLeb (js x) (js y) then x :: l else y :: insertName x l'
  end.

Fixpoint sortNames (l : list string) : list string :=
  match l with
  | [] => []
  | x :: l' => insertName x (sortNames l')
  end.

(** [detectSource(sourcePath)] for a resolved [sourcePath]: the mode and
    files, or the message of the error thrown. *)
Definition detectSource (sourcePath : string) (n : node) : detected + string :=
  match n with
  | IsFile =>
    if endsWithPdf sourcePath then inl (Single sourcePath)
    else inr (String.append "Source file is not a PDF: " sourcePath)
  | IsDirectory listing =>
    match sortNames (filter endsWithPdf listing) with
    | [] => inr (String.append "No PDF files found in directory: " sourcePath)
    | pdfs => inl (Batch (map (pathJoin sourcePath) pdfs))
    end
  | IsOther =>
    inr (String.append "Source path is neither file nor directory: " sourcePath)
  end.

End Source.

Module Checkpointing.
Import Pipeline.

Section Save.

Variable stringify : CheckpointData -> string.
Variable sha256 : string -> string.


End Save.

End Checkpointing.

(* ================================================================== *)
(** * Invariants and notions used in the statements *)
(* ================================================================== *)

Module IngestInv.
Import Ingester.

(** With deduplication on: the fingerprint map holds the registered files,
    their hashes are distinct, and every duplicate names a registered file
    with its hash. *)
Definition dedupInv (acc : Acc) : Prop :=
  (forall x, In x (fingerprintDB acc)
             <-> In x (map (fun f => (hash f, source_path f)) (acc_files acc)))
  /\ NoDup (map hash (acc_files acc))
  /\ Forall (fun d => exists f, In f (acc_files acc) /\ hash f = dup_hash d
                                /\ source_path f = original_path d)
            (acc_duplicates acc).

(** The files that can be read, as [ingestFile] records them. *)
Definition readable (sha256 : list N -> string)
           (paths : list (string * option (list N))) : list FileRecord :=
  flat_map (fun p => match snd p with
                     | Some content => [ingestFile sha256 (fst p) content]
                     | None => []
                     end) paths.

Definition unreadable (paths : list (string * option (list N))) : list string :=
  flat_map (fun p => match snd p with
                     | Some _ => []
                     | None => [basename (fst p)]
                     end) paths.

End IngestInv.

Module ProfilingInv.
Import Profiler Profiling.

(** What the propagation leaves of a profile: everything but the two
    flags. *)
Definition sameMeasurements (a b : PageProfile.t) : Prop :=
  PageProfile.page_number a = PageProfile.page_number b
  /\ PageProfile.readability_score a = PageProfile.readability_score b
  /\ PageProfile.noise_level a = PageProfile.noise_level b
  /\ PageProfile.word_garbage_score a = PageProfile.word_garbage_score b
  /\ PageProfile.quality_tier a = PageProfile.quality_tier b
  /\ PageProfile.char_count a = PageProfile.char_count b
  /\ PageProfile.empty a = PageProfile.empty b.

(** The profile [p] that [profilePages] returns for [page]. *)
Definition profiled (page : Page.t) (p : PageProfile.t) : Prop :=
  sameMeasurements (profilePage page) p
  /\ (PageProfile.is_degraded (profilePage page) = true
      -> PageProfile.is_degraded p = true)
  /\ (Page.empty page = true -> p = profilePage page).

(** A page that is clean on its own measurements. *)
Definition cleanMeasurements (text : jsstring) : Prop :=
  (60 <= calculateReadability text 1)%Z
  /\ detectNoiseLevel text = low
  /\ detectWordLevelGarbage text < 15 # 100
  /\ (50 <= List.length text)%nat.

End ProfilingInv.

Module ClassifierInv.
Import Classifier.

(** A confidence: a number from 0 to 1. *)
Definition unit (c : Q) : Prop := 0 <= c /\ c <= 1.

(** The order of the scores after the sort: [b] is not above [a]. *)
Definition descending (a b : Score) : Prop := sconfidence b <= sconfidence a.

End ClassifierInv.

Module SegmenterInv.
Import Segmenter.

(** Pages numbered consecutively from [k], as the extractors number them
    from 1. *)
Fixpoint numberedFrom (k : Z) (pages : list Page.t) : Prop :=
  match pages with
  | [] => True
  | p :: rest => Page.page_number p = k /\ numberedFrom (k + 1) rest
  end.

Definition span (s : Segment.t) : Z * Z := (Segment.page_start s, Segment.page_end s).

(** The spans cover the pages from [from] to [to] one after the other,
    without gap or overlap. *)
Fixpoint tiles (from : Z) (spans : list (Z * Z)) (to : Z) : Prop :=
  match spans with
  | [] => to = (from - 1)%Z
  | (s, e) :: rest => s = from /\ (s <= e)%Z /\ tiles (e + 1) rest to
  end.

(** The tiling kept by the loop of [segment] after the pages up to [k]. *)
Definition tiled (st : State) (k : Z) : Prop :=
  match currentSegment st with
  | None => segments st = [] /\ k = 0%Z
  | Some _ => tiles 1 (map span (close st)) k
  end.

Definition segmentId (i : nat) : string := String.append "seg-" (pad3 i).

(** The identifiers given so far are the first [segmentCounter] ones. *)
Definition numbered (st : State) : Prop :=
  map Segment.segment_id (close st) = map segmentId (seq 1 (segmentCounter st)).

(** The shape of a segment of the segmenter. *)
Definition wellFormed (s : Segment.t) : Prop :=
  (Segment.type s = "piece" \/ Segment.type s = "attachment"
   \/ (Segment.type s = "separator" /\ Segment.doc_type s = "separator"))
  /\ 5 # 10 <= Segment.confidence s /\ Segment.confidence s <= 9 # 10.

(** The entries of [index.json] for the segments, with their file names. *)
Definition indexFiles (segments : list Segment.t) : list QC.IndexFile :=
  map (fun ns => QC.indexFileOf (fst ns) (snd ns))
      (combine (Exporter.exportNames segments) segments).

End SegmenterInv.

Module L2Inv.
Import Classifier L2.

(** What Stage 5.6 never touches in a segment. *)
Definition sameFrame (a b : Segment.t) : Prop :=
  Segment.segment_id b = Segment.segment_id a
  /\ Segment.type b = Segment.type a
  /\ Segment.page_start b = Segment.page_start a
  /\ Segment.page_end b = Segment.page_end a
  /\ Segment.confidence b = Segment.confidence a
  /\ Segment.boundary_markers b = Segment.boundary_markers a.

(** A segment [b] that Stage 5.6 has written over [a]: the source and the
    cascade level say so, a change of type records the type before, and the
    confidence is a number from 0 to 1 unless it comes from the override by
    the type of the PDF. *)
Definition revised (pdf : option Classification) (a b : Segment.t) : Prop :=
  Segment.classification_source b = "per-segment-L2"
  /\ Segment.cascade_level b = Some 2%nat
  /\ (Segment.doc_type b <> Segment.doc_type a ->
      Segment.l2_previous_type b = Some (Segment.doc_type a))
  /\ exists conf,
      Segment.classification_confidence b = Some conf
      /\ (eefOverride pdf (Segment.doc_type a) = false -> 0 <= conf /\ conf <= 1).

Definition l2Step (pdf : option Classification) (a b : Segment.t) : Prop :=
  sameFrame a b
  /\ (String.eqb (Segment.type a) "separator" = true -> b = a)
  /\ (b = a \/ revised pdf a b).

End L2Inv.

Module ExtractorInv.
Import Profiler Extractor.

(** The garbage score of the text of a page. *)
Definition garbage (p : Page.t) : Q := detectWordLevelGarbage (Page.text p).

(** A rotated result that the retry loop takes into account. *)
Definition usable (p : Page.t) : Prop := Page.text p <> [] /\ Page.empty p = false.

(** The text of the merged page [m] comes from the fast-parse page [fp] or
    from an OCR result for the same page number. *)
Definition textFrom (ocrResults : list Page.t) (fp m : Page.t) : Prop :=
  Page.page_number m = Page.page_number fp
  /\ (Page.text m = Page.text fp
      \/ exists r, In r ocrResults
                   /\ Page.page_number r = Page.page_number fp
                   /\ Page.text m = Page.text r).

End ExtractorInv.

Module QCInv.
Import Coverage QC.

Definition pagesOf (f : IndexFile) : list Z := range (start f) (end_ f).

(** No page is in the ranges of two files of the index. *)
Fixpoint disjointRanges (files : list IndexFile) : Prop :=
  match files with
  | [] => True
  | f :: rest =>
    (forall p g, In p (pagesOf f) -> In g rest -> ~ In p (pagesOf g))
    /\ disjointRanges rest
  end.

(** Every page from 1 to [total] is in the range of some file. *)
Definition covers (files : list IndexFile) (total : nat) : Prop :=
  forall p, (1 <= p <= Z.of_nat total)%Z -> exists f, In f files /\ In p (pagesOf f).

(** The overlap issues of [validatePageRanges], from the pages covered
    before. *)
Fixpoint overlapsFrom (covered : list Z) (files : list IndexFile) : list Issue :=
  match files with
  | [] => []
  | f :: rest =>
    map (fun p => overlapIssue p f) (filter (fun p => memZ p covered) (pagesOf f))
    ++ overlapsFrom (rev (pagesOf f) ++ covered) rest
  end.

End QCInv.

Module EssentialInv.

(** The names for which [ESSENTIAL_PIECES[name]] is neither an array nor a
    function without parameters. *)
Definition notArrays : list string :=
  ["constructor"; "__defineGetter__"; "__defineSetter__"; "hasOwnProperty";
   "__lookupGetter__"; "__lookupSetter__"; "isPrototypeOf";
   "propertyIsEnumerable"; "__proto__"].

End EssentialInv.

Module CliInv.
Import Cli.

Definition knownOptions : list string :=
  ["--source"; "-s"; "--output"; "-o"; "--resume"; "-r"; "--verbose"; "-v";
   "--help"; "-h"].

(** A value of the result: the one before, or an argument that does not
    start with a dash. *)
Definition valueFrom (rest : list string) (before after : option string) : Prop :=
  forall v, after = Some v ->
            before = Some v \/ (startsWithDash v = false /\ In v rest).

(** A switch of the result: on before, or given among the arguments. *)
Definition switchFrom (rest : list string) (long short : string)
           (before after : bool) : Prop :=
  after = true <-> before = true \/ In long rest \/ In short rest.

(** What a successful run of the loop over [rest] from [args0] to [args]
    tells. *)
Definition parsed (rest : list string) (args0 args : Args) : Prop :=
  (forall a, In a rest -> startsWithDash a = true ->
             Classifier.mem a knownOptions = true)
  /\ valueFrom rest (source args0) (source args)
  /\ valueFrom rest (output args0) (output args)
  /\ valueFrom rest (resume args0) (resume args)
  /\ switchFrom rest "--verbose" "-v" (verbose args0) (verbose args)
  /\ switchFrom rest "--help" "-h" (help args0) (help args).

End CliInv.

Module SourceInv.
Import Ingester Source.

(** The answer of [detectSource] for a directory: the PDF names of the
    listing, each once, in ascending order, under the path of the
    directory. *)
Definition batchOf (sourcePath : string) (listing : list string)
           (r : detected + string) : Prop :=
  match r with
  | inl (Batch files) =>
    exists names,
      files = map (pathJoin sourcePath) names
      /\ names <> []
      /\ sortedPaths names = true
      /\ Permutation names (filter endsWithPdf listing)
  | inl (Single _) => False
  | inr _ => filter endsWithPdf listing = []
  end.

End SourceInv.

Module BodyInv.
Import Body.

Definition texts (parts : list part) : list jsstring :=
  flat_map (fun p => match p with PageText t => [t] | _ => [] end) parts.

Definition emptyComments (parts : list part) : list Z :=
  flat_map (fun p => match p with EmptyPageComment n => [n] | _ => [] end) parts.

Definition pageBreaks (parts : list part) : list Z :=
  flat_map (fun p => match p with PageBreak n => [n] | _ => [] end) parts.

Definition withText (p : Page.t) : bool := negb (Page.empty p).

Definition bodyPages : list Page.t :=
  [Page.mk 1 (js "") 0%Q true ""; Page.mk 2 (js "AUTOS") 90%Q false "";
   Page.mk 3 (js "CONCLUSOS") 90%Q false ""; Page.mk 4 (js "FIM") 90%Q false ""].

End BodyInv.

Module ReportInv.
Import Pipeline.

(** What one run of the pipeline hands to [generateReport]. *)
Record Run := {
  run_source : string;
  run_duration : Z;
  run_segments : Z;
  run_qc : option QcSummary
}.

Definition reportOf (run : Run) : Report :=
  generateReport (run_source run) (run_duration run) (run_segments run)
                 (run_qc run).

Definition hasIssues (run : Run) : Prop :=
  exists s, run_qc run = Some s
            /\ (0 < flagged s \/ 0 < rejected s \/ 0 < mislabels_caught s)%Z.

End ReportInv.

Module Samples.
Import Profiler.

Definition profileOf (n r : Z) (lvl : noise) (d : bool) : PageProfile.t :=
  {| PageProfile.page_number := n; PageProfile.readability_score := r;
     PageProfile.noise_level := lvl; PageProfile.word_garbage_score := 0;
     PageProfile.quality_tier := getQualityTier r; PageProfile.char_count := 900;
     PageProfile.is_degraded := d; PageProfile.empty := false;
     PageProfile.propagated := None |}.

Definition twoProfiles : list PageProfile.t :=
  [profileOf 1 85 low false; profileOf 2 30 medium true].

Definition scannedProfile : Router.Profile :=
  {| Router.orientation := Some "normal"; Router.skew_detected := true;
     Router.has_text_layer := false; Router.readability_score := 45;
     Router.quality_tier := C |}.

Definition twoPages : list Page.t :=
  [Page.mk 1 (js "CERTIDAO") (95 # 100) false "fast-parse-poppler";
   Page.mk 2 [] 0 true "fast-parse-poppler"].

Definition ocrPage : Page.t :=
  Page.mk 1 (js "Vistos. Ante o exposto, julgo procedente o pedido.") (80 # 100)
          false "ocr-tesseract".

Definition fpPage : Page.t :=
  Page.mk 1 (js "V1st0s. 4nt3 0 3xp0st0, julg0 pr0c3d3nt3 0 p3d1d0.") 0 false
          "fast-parse-poppler".

Definition commandLine : list string :=
  ["node"; "autosplit-pipeline.js"; "--source"; "in.pdf"; "-v"].

End Samples.

(* ================================================================== *)
(** * Properties of the code *)
(* ================================================================== *)

Module Util.

Lemma mem_In (x : string) (l : list string) : Classifier.mem x l = true <-> In x l.
Proof.
  unfold Classifier.mem. rewrite existsb_exists. split.
  - intros [y [Hy E]]. apply String.eqb_eq in E. subst. exact Hy.
  - intro H. exists x. split; [exact H|apply String.eqb_refl].
Qed.

Lemma Qltb_lt (x y : Q) : Qltb x y = true <-> x < y.
Proof.
  unfold Qltb. rewrite negb_true_iff. split.
  - intro H. apply Qnot_le_lt. intro Hle. apply Qle_bool_iff in Hle. congruence.
  - intro H. destruct (Qle_bool y x) eqn:E; [|reflexivity].
    apply Qle_bool_iff in E. exfalso. exact (Qlt_not_le _ _ H E).
Qed.

Lemma Qltb_ge (x y : Q) : Qltb x y = false <-> y <= x.
Proof.
  unfold Qltb. rewrite negb_false_iff. apply Qle_bool_iff.
Qed.

Lemma Qmin_le_l (x y : Q) : Qmin x y <= x.
Proof.
  unfold Qmin. destruct (Qle_bool x y) eqn:E; [apply Qle_refl|].
  apply Qlt_le_weak. apply Qltb_lt. unfold Qltb. rewrite E. reflexivity.
Qed.

Lemma Qmin_glb (x y z : Q) : z <= x -> z <= y -> z <= Qmin x y.
Proof. intros. unfold Qmin. destruct (Qle_bool x y); assumption. Qed.

Lemma Qplus_ge_0 (a b : Q) : 0 <= a -> 0 <= b -> 0 <= a + b.
Proof. intros Ha Hb. exact (Qplus_le_compat 0 a 0 b Ha Hb). Qed.

Lemma Qdiv_ge_0 (a b : Q) : 0 <= a -> 0 <= b -> 0 <= a / b.
Proof.
  intros Ha Hb. unfold Qdiv. apply Qmult_le_0_compat; [exact Ha|].
  apply Qinv_le_0_compat. exact Hb.
Qed.

Lemma ofnat_ge_0 (n : nat) : 0 <= ofnat n.
Proof. unfold ofnat. change 0 with (inject_Z 0). rewrite <- Zle_Qle. lia. Qed.

End Util.

(** ** Double precision: the rounding error *)

Module F64Facts.
Import F64.

Lemma two_pos (k : Z) : 0 < 2 ^ k.
Proof. apply Qpower_0_lt. reflexivity. Qed.

Lemma ilog2_lower (x : Q) : 0 < x -> 2 ^ (ilog2 x) <= x.
Proof.
  intro Hx. unfold ilog2. cbv zeta.
  destruct (Qle_bool _ x) eqn:E; [apply Qle_bool_iff; exact E|]. clear E.
  destruct x as [a b]. cbn [Qnum Qden].
  assert (Ha : (0 < a)%Z).
  { unfold Qlt in Hx. cbn in Hx. lia. }
  destruct (Z.log2_spec a Ha) as [La _].
  destruct (Z.log2_spec (Zpos b) (Pos2Z.is_pos b)) as [_ Lb].
  replace (Z.log2 a - Z.log2 (Zpos b) - 1)%Z
    with (Z.log2 a - Z.succ (Z.log2 (Zpos b)))%Z by lia.
  rewrite Qpower_minus by discriminate.
  change 2 with (inject_Z 2).
  rewrite <- !Zpower_Qpower;
    [|apply Z.le_le_succ_r; apply Z.log2_nonneg|apply Z.log2_nonneg].
  rewrite (Qmake_Qdiv a b).
  assert (Hq : 0 < inject_Z (2 ^ Z.succ (Z.log2 (Zpos b)))).
  { change 0 with (inject_Z 0). rewrite <- Zlt_Qlt. lia. }
  assert (Hb : 0 < inject_Z (Zpos b)).
  { change 0 with (inject_Z 0). rewrite <- Zlt_Qlt. lia. }
  apply Qle_shift_div_r; [exact Hq|].
  apply Qle_trans with (inject_Z a / inject_Z (Zpos b) * inject_Z (Zpos b)).
  - apply Qle_trans with (inject_Z a); [rewrite <- Zle_Qle; exact La|].
    assert (E : inject_Z a / inject_Z (Zpos b) * inject_Z (Zpos b) == inject_Z a).
    { field. intro Z. rewrite Z in Hb. discriminate Hb. }
    rewrite E. apply Qle_refl.
  - rewrite Qmult_comm, (Qmult_comm (inject_Z a / inject_Z (Zpos b))).
    apply Qmult_le_compat_r.
    + rewrite <- Zle_Qle. lia.
    + apply Qle_shift_div_l; [exact Hb|]. rewrite Qmult_0_l.
      change 0 with (inject_Z 0). rewrite <- Zle_Qle. lia.
Qed.

Lemma ilog2_below (x : Q) (k : Z) : 0 < x -> x < 2 ^ k -> (ilog2 x < k)%Z.
Proof.
  intros Hx Hk. apply (Qpower_lt_compat_l_inv 2); [|reflexivity].
  eapply Qle_lt_trans; [apply ilog2_lower; exact Hx|exact Hk].
Qed.

(** Below 128 the doubles are at most [2 ^ -46] apart. *)
Lemma quantum_small (x : Q) :
  0 < x -> x < 128 -> quantum x <= 1 # 70368744177664.
Proof.
  intros Hx Hk. unfold quantum.
  assert (He : (ilog2 x < 7)%Z) by (apply ilog2_below; [exact Hx|exact Hk]).
  apply Qle_trans with (2 ^ (-46)); [|discriminate].
  apply Qpower_le_compat_l; [lia|discriminate].
Qed.

Lemma nearestEven_error (m : Q) :
  m - (1 # 2) <= inject_Z (nearestEven m) /\ inject_Z (nearestEven m) <= m + (1 # 2).
Proof.
  unfold nearestEven. cbv zeta.
  pose proof (Qfloor_le m) as Hl. pose proof (Qlt_floor m) as Hu.
  rewrite inject_Z_plus in Hu. change (inject_Z 1) with 1 in Hu.
  destruct (Qcompare_spec (m - inject_Z (Qfloor m)) (1 # 2)) as [E|E|E].
  - destruct (Z.even (Qfloor m)); [|rewrite inject_Z_plus; change (inject_Z 1) with 1];
      split; lra.
  - split; lra.
  - rewrite inject_Z_plus. change (inject_Z 1) with 1. split; lra.
Qed.

Lemma nearestEven_nonneg (m : Q) : 0 <= m -> (0 <= nearestEven m)%Z.
Proof.
  intro H. unfold nearestEven. cbv zeta.
  assert (F : (0 <= Qfloor m)%Z).
  { rewrite <- (Qfloor_Z 0). apply Qfloor_resp_le. exact H. }
  destruct (Qcompare _ _); [destruct (Z.even _)| |]; lia.
Qed.

Lemma rndPos_error (x : Q) :
  0 < x -> x < 128 ->
  x - (1 # 140737488355328) <= rndPos x /\ rndPos x <= x + (1 # 140737488355328).
Proof.
  intros Hx Hk. unfold rndPos.
  pose proof (quantum_small x Hx Hk) as Hq.
  assert (Hp : 0 < quantum x) by apply two_pos.
  destruct (nearestEven_error (x / quantum x)) as [Hl Hu].
  set (n := inject_Z (nearestEven (x / quantum x))) in *.
  assert (Ex : x / quantum x * quantum x == x).
  { field. intro Z. rewrite Z in Hp. discriminate Hp. }
  split.
  - apply Qle_trans with ((x / quantum x - (1 # 2)) * quantum x).
    + setoid_replace ((x / quantum x - (1 # 2)) * quantum x)
        with (x / quantum x * quantum x - (1 # 2) * quantum x) by ring.
      rewrite Ex. lra.
    + apply Qmult_le_compat_r; [exact Hl|apply Qlt_le_weak; exact Hp].
  - apply Qle_trans with ((x / quantum x + (1 # 2)) * quantum x).
    + apply Qmult_le_compat_r; [exact Hu|apply Qlt_le_weak; exact Hp].
    + setoid_replace ((x / quantum x + (1 # 2)) * quantum x)
        with (x / quantum x * quantum x + (1 # 2) * quantum x) by ring.
      rewrite Ex. lra.
Qed.

Lemma rndPos_nonneg (x : Q) : 0 <= x -> 0 <= rndPos x.
Proof.
  intro Hx. unfold rndPos. apply Qmult_le_0_compat.
  - change 0 with (inject_Z 0). rewrite <- Zle_Qle. apply nearestEven_nonneg.
    apply Qle_shift_div_l; [apply two_pos|]. rewrite Qmult_0_l. exact Hx.
  - apply Qlt_le_weak. apply two_pos.
Qed.

Lemma rnd_cases (x : Q) :
  0 <= x -> (x == 0 /\ rnd x = 0) \/ (0 < x /\ rnd x == rndPos x).
Proof.
  intro Hx. unfold rnd. destruct x as [a b]. cbn [Qnum].
  destruct a as [|p|p].
  - left. split; reflexivity.
  - right. split; [reflexivity|apply Qred_correct].
  - exfalso. unfold Qle in Hx. cbn in Hx. lia.
Qed.

Lemma rnd_nonneg (x : Q) : 0 <= x -> 0 <= rnd x.
Proof.
  intro Hx. destruct (rnd_cases x Hx) as [[_ ->]|[H ->]]; [apply Qle_refl|].
  apply rndPos_nonneg. exact Hx.
Qed.

(** The double nearest to a number from 0 to 128 is within [2 ^ -47] of
    it. *)
Lemma rnd_error (x : Q) :
  0 <= x -> x < 128 ->
  x - (1 # 140737488355328) <= rnd x /\ rnd x <= x + (1 # 140737488355328).
Proof.
  intros Hx Hk. destruct (rnd_cases x Hx) as [[E ->]|[H ->]].
  - rewrite E. split; discriminate.
  - apply rndPos_error; assumption.
Qed.

Lemma round2_value (x : Q) : F64.round2 x == inject_Z (round (mul x 100)) / 100.
Proof. unfold F64.round2. apply Qred_correct. Qed.

Lemma round_bounds (y : Q) :
  y - (1 # 2) < inject_Z (round y) /\ inject_Z (round y) <= y + (1 # 2).
Proof.
  unfold round. pose proof (Qfloor_le (y + (1 # 2))) as Hl.
  pose proof (Qlt_floor (y + (1 # 2))) as Hu.
  rewrite inject_Z_plus in Hu. change (inject_Z 1) with 1 in Hu. split; lra.
Qed.

Lemma round2_in_unit (x : Q) :
  0 <= x -> x <= 1 -> 0 <= F64.round2 x /\ F64.round2 x <= 1.
Proof.
  intros H0 H1. rewrite round2_value. unfold mul.
  assert (Hn : 0 <= x * 100) by lra.
  assert (Hk : x * 100 < 128) by lra.
  destruct (rnd_error (x * 100) Hn Hk) as [_ Hu].
  pose proof (rnd_nonneg (x * 100) Hn) as Hl.
  destruct (round_bounds (rnd (x * 100))) as [Rl Ru].
  set (n := round (rnd (x * 100))) in *.
  assert (Z0 : (0 <= n)%Z).
  { apply Z.lt_succ_r. rewrite Zlt_Qlt. unfold Z.succ. rewrite inject_Z_plus.
    change (inject_Z 1) with 1. change (inject_Z 0) with 0. lra. }
  assert (Z1 : (n <= 100)%Z).
  { apply Z.lt_succ_r. rewrite Zlt_Qlt. change (inject_Z (Z.succ 100)) with 101.
    lra. }
  rewrite Zle_Qle in Z0, Z1. change (inject_Z 0) with 0 in Z0.
  change (inject_Z 100) with 100 in Z1. split.
  - apply Qle_shift_div_l; [reflexivity|]. lra.
  - apply Qle_shift_div_r; [reflexivity|]. lra.
Qed.

Lemma lit_03 : lit (3 # 10) = 5404319552844595 # 18014398509481984.
Proof. vm_compute. reflexivity. Qed.

Lemma lit_07 : lit (7 # 10) = 3152519739159347 # 4503599627370496.
Proof. vm_compute. reflexivity. Qed.

(** A product of a stored confidence with a factor below 1 stays between 0
    and 1. *)
Lemma scaled_in_unit (c f : Q) :
  0 <= c -> c <= 1 -> 0 <= f -> f <= 1 - (1 # 1000) ->
  0 <= mul (lit c) f /\ mul (lit c) f <= 1.
Proof.
  intros H0 H1 F0 F1. unfold mul, lit.
  assert (Hc : c < 128) by lra.
  destruct (rnd_error c H0 Hc) as [Al Au]. pose proof (rnd_nonneg c H0) as A0.
  set (a := rnd c) in *.
  assert (P0 : 0 <= a * f) by (apply Qmult_le_0_compat; assumption).
  assert (P1 : a * f <= 1 + (1 # 140737488355328) - (1 # 1000)).
  { apply Qle_trans with (a * (1 - (1 # 1000))).
    - rewrite (Qmult_comm a f), (Qmult_comm a). apply Qmult_le_compat_r; assumption.
    - lra. }
  assert (P2 : a * f < 128) by lra.
  destruct (rnd_error _ P0 P2) as [_ Bu]. pose proof (rnd_nonneg _ P0) as B0.
  split; [exact B0|lra].
Qed.

(** The penalty of 0.3 on a confidence of [k] hundredths: the double
    arithmetic is off by far less than a tenth of a hundredth, and
    [3 * k / 10] is a multiple of a tenth, so the rounded result is within
    half a hundredth of the exact product. *)
Lemma penalty_bound (c : Q) (k : Z) :
  c * 100 == inject_Z k -> 0 <= c -> c <= 1 ->
  c * (3 # 10) - (5 # 1000) <= F64.round2 (mul (lit c) (lit (3 # 10)))
  /\ F64.round2 (mul (lit c) (lit (3 # 10))) <= c * (3 # 10) + (5 # 1000).
Proof.
  intros Hk H0 H1. rewrite round2_value. rewrite lit_03. unfold mul, lit.
  assert (Hc : c < 128) by lra.
  destruct (rnd_error c H0 Hc) as [Al Au]. pose proof (rnd_nonneg c H0) as A0.
  set (a := rnd c) in *.
  set (c3 := 5404319552844595 # 18014398509481984).
  assert (P0 : 0 <= a * c3) by (unfold c3; lra).
  assert (P1 : a * c3 < 128) by (unfold c3; lra).
  destruct (rnd_error _ P0 P1) as [Bl Bu]. pose proof (rnd_nonneg _ P0) as B0.
  set (b := rnd (a * c3)) in *.
  assert (Y0 : 0 <= b * 100) by lra.
  assert (Y1 : b * 100 < 128) by (unfold c3 in *; lra).
  destruct (rnd_error _ Y0 Y1) as [Yl Yu].
  set (y := rnd (b * 100)) in *.
  destruct (round_bounds y) as [Rl Ru].
  set (n := round y) in *.
  assert (Zl : (3 * k <= 10 * n + 5)%Z).
  { apply Z.lt_succ_r. rewrite Zlt_Qlt. unfold Z.succ.
    rewrite !inject_Z_plus, !inject_Z_mult. rewrite <- Hk.
    change (inject_Z 10) with 10. change (inject_Z 3) with 3.
    change (inject_Z 5) with 5. change (inject_Z 1) with 1.
    unfold c3 in *. lra. }
  assert (Zu : (10 * n <= 3 * k + 5)%Z).
  { apply Z.lt_succ_r. rewrite Zlt_Qlt. unfold Z.succ.
    rewrite !inject_Z_plus, !inject_Z_mult. rewrite <- Hk.
    change (inject_Z 10) with 10. change (inject_Z 3) with 3.
    change (inject_Z 5) with 5. change (inject_Z 1) with 1.
    unfold c3 in *. lra. }
  rewrite Zle_Qle in Zl, Zu. rewrite !inject_Z_plus, !inject_Z_mult in Zl, Zu.
  rewrite <- Hk in Zl, Zu.
  change (inject_Z 5) with 5 in Zl, Zu.
  change (inject_Z 10) with 10 in Zl, Zu. change (inject_Z 3) with 3 in Zl, Zu.
  split.
  - apply Qle_shift_div_l; [reflexivity|]. lra.
  - apply Qle_shift_div_r; [reflexivity|]. lra.
Qed.

(** The doubles at work: 0.1 + 0.2 is not 0.3, and the penalty on 0.75 and
    on 0.95 rounds down where the exact product lies on a half. *)
Example doubles_of_tenths :
  add (lit (1 # 10)) (lit (2 # 10)) = 1351079888211149 # 4503599627370496
  /\ lit (3 # 10) < add (lit (1 # 10)) (lit (2 # 10)).
Proof. split; [vm_compute; reflexivity|vm_compute; reflexivity]. Qed.

Example penalty_on_a_half :
  F64.round2 (mul (lit (75 # 100)) (lit (3 # 10))) == 22 # 100
  /\ Num.round2 ((75 # 100) * (3 # 10)) == 23 # 100
  /\ F64.round2 (mul (lit (95 # 100)) (lit (3 # 10))) == 28 # 100
  /\ Num.round2 ((95 # 100) * (3 # 10)) == 29 # 100.
Proof. repeat split; vm_compute; reflexivity. Qed.

End F64Facts.

(** ** Resume from a checkpoint *)

Module ResumeFacts.
Import Pipeline ResumeSpec.

Lemma loadCheckpoint_mismatch stringify sha256 name raw :
  checksum raw <> Some (computeChecksum stringify sha256 (data raw)) ->
  snd (loadCheckpoint stringify sha256 name (Parsed raw)) = None.
Proof.
  intro H. unfold loadCheckpoint.
  destruct (checksum raw) as [c|] eqn:E.
  - destruct (String.eqb c _) eqn:Ec.
    + apply String.eqb_eq in Ec. subst c. contradiction.
    + reflexivity.
  - reflexivity.
Qed.

(** C1. With [--resume] and a checkpoint file that is not valid JSON,
    [loadCheckpoint] warns that it starts fresh and returns no checkpoint;
    [main] then warns that it cannot resume and leaves with exit code 1.
    [runPipeline] is not called, so the run never returns a result, whatever
    [runPipeline] would do: it is never the clean run that the claim
    promises. *)
Theorem resume_malformed_checkpoint_exits :
  forall (stringify : CheckpointData -> string) (sha256 : string -> string)
         (R : Type) (runPipeline : string -> option Checkpoint -> Settled R)
         (interrupted : R -> bool) (name : string),
    mainResume stringify sha256 runPipeline interrupted name Malformed
    = ([(WARN, String.append "Malformed JSON in " (String.append name " — skipping"));
        (WARN, "Checkpoint file is malformed JSON — starting fresh");
        (WARN, "No valid checkpoint found — cannot resume")],
       Exit 1%Z)
    /\ forall result,
        snd (mainResume stringify sha256 runPipeline interrupted name Malformed)
        <> Returned result.
Proof. intros. split; [reflexivity|]. intros result X. discriminate X. Qed.

(** The same happens when the stored checksum is not the digest of the
    checkpoint. *)
Lemma resume_checksum_mismatch_exits :
  forall (stringify : CheckpointData -> string) (sha256 : string -> string)
         (R : Type) (runPipeline : string -> option Checkpoint -> Settled R)
         (interrupted : R -> bool) (name : string) (raw : Checkpoint),
    checksum raw <> Some (computeChecksum stringify sha256 (data raw)) ->
    snd (mainResume stringify sha256 runPipeline interrupted name (Parsed raw))
    = Exit 1%Z.
Proof.
  intros. unfold mainResume.
  pose proof (loadCheckpoint_mismatch stringify sha256 name raw H) as L.
  destruct (loadCheckpoint stringify sha256 name (Parsed raw)) as [log ckpt].
  simpl in L. subst ckpt. reflexivity.
Qed.

Example resume_tampered_checkpoint_exits :
  forall (R : Type) (runPipeline : string -> option Checkpoint -> Settled R)
         (interrupted : R -> bool),
    mainResume sampleStringify sampleSha256 runPipeline interrupted
               "checkpoint.json" (Parsed tampered)
    = ([(WARN, "Checkpoint checksum mismatch — checkpoint is corrupted, starting fresh");
        (WARN, "No valid checkpoint found — cannot resume")],
       Exit 1%Z).
Proof. intros. reflexivity. Qed.

(** A checkpoint whose checksum is right is resumed. *)
Example resume_valid_checkpoint_runs :
  forall (R : Type) (run : string -> option Checkpoint -> R),
    let ckpt := {| data := stage3;
                   checksum := Some (computeChecksum sampleStringify sampleSha256 stage3) |} in
    mainResume sampleStringify sampleSha256
               (fun src c => Fulfilled (run src c)) (fun _ => false)
               "checkpoint.json" (Parsed ckpt)
    = ([(INFO, "Checkpoint loaded: completed stages [1,2]");
        (INFO, "Resume complete — all stages done")],
       Returned (run "/in/processo.pdf" (Some ckpt))).
Proof. intros. reflexivity. Qed.

End ResumeFacts.

(** ** Quality-gate counters in the reports *)

Module ReportFacts.
Import Pipeline ReportSpec.

Lemma reduceSum_acc (f : QcSummary -> Z) (l : list QcSummary) (a : Z) :
  fold_left (fun sum q => (sum + f q)%Z) l a = (a + zsum (map f l))%Z.
Proof.
  revert a; induction l as [|q l IH]; intro a; simpl.
  - lia.
  - rewrite IH. lia.
Qed.

Lemma reduceSum_sum (f : QcSummary -> Z) (l : list QcSummary) :
  reduceSum f l = zsum (map f l).
Proof. unfold reduceSum. rewrite reduceSum_acc. lia. Qed.

Lemma orZero_id (x : Z) : orZero x = x.
Proof. unfold orZero. destruct (Z.eqb_spec x 0); congruence. Qed.

(** C2, as the specification states it, fails: the batch report of three
    PDFs has no [summary] object and no field [passed]. *)
Lemma batch_report_has_no_summed_counters : ~ batchSummaryAdditive reportsE4.
Proof.
  intros [summary [[-> | H] [Hp _]]].
  - vm_compute in Hp. discriminate.
  - vm_compute in H. discriminate.
Qed.

(** C2, amended. The additive merge is that of Stage 6 inside one run: each
    of the four counters of the merged summary is the sum of that counter
    over all quality-gate results of the run, and the report of the run
    carries the merged summary. The batch report lists, for every PDF, the
    counters of its own report. *)
Theorem qc_merge_is_additive :
  forall (qcResults : list QcSummary),
    let merged := mergeQc qcResults in
    passed merged = zsum (map passed qcResults)
    /\ flagged merged = zsum (map flagged qcResults)
    /\ rejected merged = zsum (map rejected qcResults)
    /\ mislabels_caught merged = zsum (map mislabels_caught qcResults)
    /\ (forall src duration segments,
          qc (generateReport src duration segments (Some merged)) = merged)
    /\ (forall version reports total,
          field "pdfs" (generateBatchReport version reports total)
          = Some (JArr (map pdfEntry reports))).
Proof.
  intro qcResults. cbv zeta. unfold mergeQc. simpl.
  rewrite !reduceSum_sum.
  repeat split.
  intros version reports total. unfold generateBatchReport, field. simpl.
  do 2 f_equal. apply map_ext. intro r. unfold pdfEntry.
  rewrite !orZero_id. reflexivity.
Qed.

Example qc_merge_E4 :
  mergeQc [qcE4a; qcE4b; qcE4c]
  = {| passed := 10; flagged := 3; rejected := 1; mislabels_caught := 1 |}.
Proof. reflexivity. Qed.

End ReportFacts.

(** ** Intake *)

Module IngestFacts.
Import Ingester IngestSpec.

Lemma scanDirectory_files_in_listing_order :
  forall (recursive : bool) (dir : string) (listing : list (string * option (list N))),
    scanDirectory recursive dir (map (fun f => File (fst f) (snd f)) listing)
    = map (fun f => (pathJoin dir (fst f), snd f))
          (filter (fun f => endsWithPdf (fst f)) listing).
Proof.
  intros recursive dir listing. unfold scanDirectory.
  induction listing as [|[n c] l IH]; simpl.
  - reflexivity.
  - rewrite IH. destruct (endsWithPdf n); reflexivity.
Qed.

(** C3. For a directory that the file system lists as [b.pdf], [a.pdf], the
    manifest of [ingest] has the files in that order, which is not the sorted
    one: [scanDirectory] keeps the order of [readdirSync]. *)
Theorem ingest_follows_readdir_order :
  forall (sha256 : list N -> string) (recursive : bool),
    let manifest := ingest sha256 false recursive (SourceDir "/in" unsortedListing) in
    map source_path (files manifest) = ["/in/b.pdf"; "/in/a.pdf"]
    /\ sortedPaths (map source_path (files manifest)) = false.
Proof. intros sha256 recursive. split; reflexivity. Qed.

End IngestFacts.

(** ** Page profiles *)

Module ProfilingFacts.
Import Profiler Profiling ProfilingSpec.

Lemma Qgtb_half (d n : nat) :
  Qgtb (ofnat d) (ofnat n * (5 # 10)) = true <-> (n < 2 * d)%nat.
Proof.
  unfold Qgtb, Qltb. rewrite negb_true_iff.
  split.
  - intro H. destruct (le_lt_dec (2 * d) n) as [Hle|Hlt]; [|exact Hlt].
    exfalso. assert (Hq : ofnat d <= ofnat n * (5 # 10)).
    { unfold ofnat, Qle. simpl. lia. }
    apply Qle_bool_iff in Hq. congruence.
  - intro Hlt. destruct (Qle_bool (ofnat d) (ofnat n * (5 # 10))) eqn:E; [|reflexivity].
    apply Qle_bool_iff in E. unfold ofnat, Qle in E. simpl in E. lia.
Qed.

Lemma propagates_iff (profiles : list PageProfile.t) :
  propagates profiles = true
  <-> (List.length (nonEmptyOf profiles) < 2 * degradedCountOf profiles)%nat.
Proof.
  unfold propagates. rewrite andb_true_iff, Qgtb_half, Nat.ltb_lt.
  split; [tauto|]. intro H. split; [|exact H].
  assert (degradedCountOf profiles <= List.length (nonEmptyOf profiles))%nat.
  { unfold degradedCountOf. apply filter_length_le. }
  lia.
Qed.

Example clean_page_is_clean :
  PageProfile.is_degraded (profilePage (cleanPage 1)) = false
  /\ PageProfile.is_degraded (profilePage (shortPage 1)) = true.
Proof. split; vm_compute; reflexivity. Qed.

Lemma pages3_before :
  map profilePage pages3
  = [mkProfile 1 60 low 0 B 7 true false None;
     mkProfile 2 60 low 0 B 7 true false None;
     mkProfile 3 68 low (2 # 25) B 135 false false None].
Proof. vm_compute. reflexivity. Qed.

Lemma pages3_after :
  profilePages pages3
  = [mkProfile 1 60 low 0 B 7 true false (Some true);
     mkProfile 2 60 low 0 B 7 true false (Some true);
     mkProfile 3 68 low (2 # 25) B 135 true false (Some true)].
Proof. vm_compute. reflexivity. Qed.

(** C4, as the specification states it, fails: of three pages, two degraded
    and one clean, all three get [propagated = true], the two that were
    degraded before too. *)
Lemma propagated_marks_degraded_pages_too : ~ propagationClaim pages3.
Proof.
  unfold propagationClaim. cbv zeta. rewrite pages3_before, pages3_after.
  intros [H _].
  match type of H with
  | ?P -> _ => assert (Hn : P) by (vm_compute; lia); specialize (H Hn)
  end.
  inversion H as [|b a bs as_ Hhd _]; subst.
  destruct (Hhd eq_refl) as [_ [Hprop _]].
  specialize (Hprop eq_refl). discriminate.
Qed.

(** With exactly half of the pages degraded the loop does not run. *)
Example exactly_half_degraded_is_not_propagated :
  let pages := [shortPage 1; cleanPage 2] in
  degradedCountOf (map profilePage pages) = 1%nat
  /\ List.length (nonEmptyOf (map profilePage pages)) = 2%nat
  /\ profilePages pages = map profilePage pages.
Proof. vm_compute. repeat split. Qed.

Lemma propagateOne_fresh (d n : nat) (page : Page.t) :
  propagatedFrom d n (profilePage page) (propagateOne d n (profilePage page)).
Proof.
  unfold propagatedFrom, propagateOne.
  change (PageProfile.empty (profilePage page)) with (Page.empty page).
  change (PageProfile.propagated (profilePage page)) with (@None bool).
  destruct (Page.empty page); reflexivity.
Qed.

Lemma propagate_all (d n : nat) (pages : list Page.t) :
  Forall2 (propagatedFrom d n) (map profilePage pages)
          (map (propagateOne d n) (map profilePage pages)).
Proof.
  induction pages as [|p ps IH]; [constructor|].
  change (map profilePage (p :: ps)) with (profilePage p :: map profilePage ps).
  change (map (propagateOne d n) (profilePage p :: map profilePage ps))
    with (propagateOne d n (profilePage p)
          :: map (propagateOne d n) (map profilePage ps)).
  constructor; [apply propagateOne_fresh|exact IH].
Qed.

(** C4, amended. With [d] degraded pages among [n] non-empty ones: if more
    than half are degraded, every non-empty page is marked degraded and its
    [propagated] flag is set to [d < n], whether the page was clean before
    or not, and empty pages are left as they are; if fewer than half are
    degraded, no profile is changed. *)
Theorem profilePages_propagation :
  forall (pages : list Page.t),
    let before := map profilePage pages in
    let after := profilePages pages in
    let n := List.length (nonEmptyOf before) in
    let d := degradedCountOf before in
    ((n < 2 * d)%nat -> Forall2 (propagatedFrom d n) before after)
    /\ ((2 * d < n)%nat -> after = before).
Proof.
  intro pages. cbv zeta. unfold profilePages, propagate.
  destruct (propagates (map profilePage pages)) eqn:E.
  - apply propagates_iff in E. split.
    + intros _. apply propagate_all.
    + intro H. lia.
  - split.
    + intro H. apply propagates_iff in H. congruence.
    + reflexivity.
Qed.

Lemma profilePages_propagation_witness :
  Forall2 (propagatedFrom 2 3) (map profilePage pages3) (profilePages pages3)
  /\ profilePages [cleanPage 1] = map profilePage [cleanPage 1].
Proof.
  split.
  - apply (proj1 (profilePages_propagation pages3)). vm_compute. lia.
  - apply (proj2 (profilePages_propagation [cleanPage 1])). vm_compute. lia.
Defined.

(** *** The sorted scores *)

Lemma insertAsc_length x l : List.length (insertAsc x l) = S (List.length l).
Proof.
  induction l as [|y l IH]; simpl; [reflexivity|].
  destruct (x <=? y)%Z; simpl; congruence.
Qed.

Lemma sortAsc_length l : List.length (sortAsc l) = List.length l.
Proof.
  induction l as [|x l IH]; simpl; [reflexivity|].
  rewrite insertAsc_length. congruence.
Qed.

Lemma insertAsc_perm x l : Permutation (x :: l) (insertAsc x l).
Proof.
  induction l as [|y l IH]; simpl; [apply Permutation_refl|].
  destruct (x <=? y)%Z; [apply Permutation_refl|].
  eapply perm_trans; [apply perm_swap|]. apply perm_skip. exact IH.
Qed.

Lemma sortAsc_perm l : Permutation l (sortAsc l).
Proof.
  induction l as [|x l IH]; simpl; [apply perm_nil|].
  eapply perm_trans; [apply perm_skip; exact IH|]. apply insertAsc_perm.
Qed.

Lemma insertAsc_sorted x l :
  StronglySorted Z.le l -> StronglySorted Z.le (insertAsc x l).
Proof.
  induction 1 as [|y l Hs IH Hall]; simpl.
  - constructor; constructor.
  - destruct (Z.leb_spec x y).
    + constructor.
      * constructor; assumption.
      * constructor; [assumption|].
        eapply Forall_impl; [|exact Hall]. intros z Hz. simpl in Hz. lia.
    + constructor; [exact IH|].
      eapply Permutation_Forall; [apply insertAsc_perm|].
      constructor; [lia|exact Hall].
Qed.

Lemma sortAsc_sorted l : StronglySorted Z.le (sortAsc l).
Proof.
  induction l as [|x l IH]; simpl; [constructor|].
  apply insertAsc_sorted. exact IH.
Qed.

Lemma sorted_nth_le l :
  StronglySorted Z.le l ->
  forall i j, (i <= j < List.length l)%nat -> (nth i l 0 <= nth j l 0)%Z.
Proof.
  induction 1 as [|x l Hs IH Hall]; intros i j Hij; simpl in Hij; [lia|].
  destruct i as [|i], j as [|j]; simpl; try lia.
  - rewrite Forall_forall in Hall. apply Hall. apply nth_In. lia.
  - apply IH. lia.
Qed.

(** C5, as the specification states it, fails: for two pages with scores 40
    and 80 the document score is 80 and the tier A, while the statistical
    median is 60, of tier B. *)
Lemma median_of_two_pages_is_the_larger_score :
  let pages := [profileWith 40; profileWith 80] in
  let doc := aggregatePageProfiles pages "/in/a.pdf" in
  DocumentProfile.readability_score doc = 80%Z
  /\ statisticalMedian [40; 80]%Z == 60
  /\ DocumentProfile.quality_tier doc = A
  /\ getQualityTier 60 = B
  /\ ~ medianClaim pages "/in/a.pdf".
Proof.
  cbv zeta. split; [reflexivity|]. split; [reflexivity|].
  split; [reflexivity|]. split; [reflexivity|].
  intro H. destruct H as [H _]; [discriminate|].
  vm_compute in H. discriminate.
Qed.

(** C5, amended. The document score is the element of index [floor (n / 2)]
    of the scores in ascending order, and the tier is that of this score.
    For an odd number of pages this is the median; for an even number it is
    the larger of the two middle scores, which is at least the statistical
    median. *)
Theorem aggregate_readability_is_upper_median :
  forall (pageProfiles : list PageProfile.t) (filePath : string),
    pageProfiles <> [] ->
    let doc := aggregatePageProfiles pageProfiles filePath in
    let scores := map PageProfile.readability_score pageProfiles in
    let s := sortAsc scores in
    let n := List.length pageProfiles in
    Permutation scores s
    /\ StronglySorted Z.le s
    /\ DocumentProfile.readability_score doc = nth (n / 2) s 0%Z
    /\ DocumentProfile.quality_tier doc
       = getQualityTier (DocumentProfile.readability_score doc)
    /\ (Nat.even n = false ->
        inject_Z (DocumentProfile.readability_score doc) == statisticalMedian scores)
    /\ (Nat.even n = true ->
        DocumentProfile.readability_score doc
        = Z.max (nth (n / 2 - 1) s 0%Z) (nth (n / 2) s 0%Z)
        /\ statisticalMedian scores <= inject_Z (DocumentProfile.readability_score doc)).
Proof.
  intros pageProfiles filePath Hne. cbv zeta.
  assert (Hlen : List.length (sortAsc (map PageProfile.readability_score pageProfiles))
                 = List.length pageProfiles)
    by (rewrite sortAsc_length, length_map; reflexivity).
  assert (Hs := sortAsc_sorted (map PageProfile.readability_score pageProfiles)).
  destruct pageProfiles as [|p ps]; [contradiction|].
  unfold aggregatePageProfiles.
  cbn [DocumentProfile.readability_score DocumentProfile.quality_tier].
  rewrite Hlen.
  split; [apply sortAsc_perm|].
  split; [exact Hs|].
  split; [reflexivity|].
  split; [reflexivity|].
  unfold statisticalMedian. rewrite Hlen.
  split.
  - intros Hodd. rewrite Hodd. reflexivity.
  - intros Heven. rewrite Heven.
    set (n := List.length (p :: ps)) in *.
    assert (Hn : (0 < n)%nat) by (unfold n; simpl; lia).
    assert (Hhalf : (1 <= n / 2 /\ n / 2 < n)%nat).
    { apply Nat.even_spec in Heven. destruct Heven as [k Hk].
      rewrite Hk. rewrite Nat.mul_comm, Nat.div_mul by lia. lia. }
    assert (Hle := @sorted_nth_le _ Hs (n / 2 - 1)%nat (n / 2)%nat).
    rewrite Hlen in Hle. specialize (Hle ltac:(fold n; lia)).
    split.
    + rewrite Z.max_r by exact Hle. reflexivity.
    + set (a := nth (n / 2 - 1) _ 0%Z) in *. set (b := nth (n / 2) _ 0%Z) in *.
      apply Qle_shift_div_r; [reflexivity|].
      rewrite <- inject_Z_plus. change 2 with (inject_Z 2).
      rewrite <- inject_Z_mult. rewrite <- Zle_Qle. lia.
Qed.

Lemma aggregate_readability_witness :
  DocumentProfile.readability_score
    (aggregatePageProfiles [profileWith 80; profileWith 40; profileWith 55] "/in/a.pdf")
  = nth 1 (sortAsc [80; 40; 55]%Z) 0%Z
  /\ DocumentProfile.quality_tier
       (aggregatePageProfiles [profileWith 80; profileWith 40; profileWith 55] "/in/a.pdf")
     = C.
Proof.
  destruct (aggregate_readability_is_upper_median
              [profileWith 80; profileWith 40; profileWith 55] "/in/a.pdf")
    as [_ [_ [Hscore [Htier _]]]].
  - discriminate.
  - split; [exact Hscore|]. rewrite Htier, Hscore. vm_compute. reflexivity.
Defined.

End ProfilingFacts.

(** ** Disambiguation of entity mentions *)

Module ClassifierFacts.
Import Classifier ClassifierSpec.

Lemma dedup_In (x : string) (l seen : list string) :
  In x l -> mem x seen = false -> In x (dedup seen l).
Proof.
  revert seen; induction l as [|y l IH]; intros seen Hin Hseen; [contradiction|].
  simpl. destruct (mem y seen) eqn:Ey.
  - destruct Hin as [->|Hin]; [congruence|]. apply IH; assumption.
  - destruct Hin as [->|Hin]; [left; reflexivity|].
    destruct (String.eqb_spec x y) as [->|Hne]; [left; reflexivity|].
    right. apply IH; [exact Hin|].
    simpl. rewrite Hseen. apply String.eqb_neq in Hne. rewrite Hne. reflexivity.
Qed.

Lemma table_consistent : tableConsistent = true.
Proof. vm_compute. reflexivity. Qed.

Lemma structural_is_rule_pattern (rule : Rule) (d : Disambiguation) (p : string) :
  In rule rules -> lookupDisambiguation (type rule) = Some d ->
  In p (structural d) ->
  In p (patterns rule) /\ ~ In p (entityOnly d).
Proof.
  intros Hr Hd Hp.
  pose proof table_consistent as T. unfold tableConsistent in T.
  rewrite forallb_forall in T. specialize (T rule Hr). rewrite Hd in T.
  rewrite forallb_forall in T. specialize (T p Hp).
  apply andb_true_iff in T as [T1 T2].
  split; [apply Util.mem_In; exact T1|].
  intro H. apply Util.mem_In in H. rewrite H in T2. discriminate.
Qed.

Lemma weights_nonneg : forallb (fun r => Qle_bool 0 (weight r)) rules = true.
Proof. vm_compute. reflexivity. Qed.

Lemma rawConfidence_nonneg (rule : Rule) (cleanedText heading tail : jsstring) :
  In rule rules -> 0 <= rawConfidence rule cleanedText heading tail.
Proof.
  intro Hin. pose proof weights_nonneg as W. rewrite forallb_forall in W.
  specialize (W _ Hin). apply Qle_bool_iff in W.
  unfold rawConfidence. cbv zeta. unfold F64.add, F64.mul, F64.div, F64.lit.
  apply F64Facts.rnd_nonneg. apply Util.Qplus_ge_0.
  - apply F64Facts.rnd_nonneg. apply Util.Qplus_ge_0.
    + apply F64Facts.rnd_nonneg. apply Qmult_le_0_compat.
      * apply F64Facts.rnd_nonneg. apply Util.Qdiv_ge_0; apply Util.ofnat_ge_0.
      * apply F64Facts.rnd_nonneg. exact W.
    + apply Util.Qmin_glb; [apply F64Facts.rnd_nonneg; discriminate|].
      apply F64Facts.rnd_nonneg. apply Qmult_le_0_compat;
        [apply Util.ofnat_ge_0|apply F64Facts.rnd_nonneg; discriminate].
  - apply Util.Qmin_glb; [apply F64Facts.rnd_nonneg; discriminate|].
    apply F64Facts.rnd_nonneg. apply Qmult_le_0_compat;
      [apply Util.ofnat_ge_0|apply F64Facts.rnd_nonneg; discriminate].
Qed.

(** A score of the scoring loop is a number of hundredths from 0 to 1. *)
Lemma scoreRule_hundredths (rule : Rule) (cleanedText heading tail : jsstring)
      (s : Score) :
  In rule rules -> scoreRule rule cleanedText heading tail = Some s ->
  0 <= sconfidence s /\ sconfidence s <= 1
  /\ exists k, sconfidence s * 100 == inject_Z k.
Proof.
  intros Hin. unfold scoreRule. destruct (0 <? _)%nat; [|discriminate].
  intro H. injection H as <-. cbn [sconfidence].
  destruct (F64Facts.round2_in_unit
              (Qmin 1 (rawConfidence rule cleanedText heading tail))) as [H0 H1].
  - apply Util.Qmin_glb; [discriminate|apply rawConfidence_nonneg; exact Hin].
  - apply Util.Qmin_le_l.
  - split; [exact H0|]. split; [exact H1|].
    exists (round (F64.mul (Qmin 1 (rawConfidence rule cleanedText heading tail)) 100)).
    rewrite F64Facts.round2_value. field.
Qed.

(** C6, amended. For a rule of the disambiguation table whose indicators all
    come from its entity-only patterns and none of whose structural patterns
    matches the stripped text, the confidence after the disambiguation step
    is [Math.round(confidence * 0.3 * 100) / 100] of the confidence before it
    (already rounded to two decimals), computed in double precision. It lies
    within 0.005 of 0.30 times that confidence, so it is at most 0.30 times
    that confidence plus 0.005, and the [disambiguation] field is
    [entity-mention-only]. *)
Theorem entity_only_penalty :
  forall (rule : Rule) (d : Disambiguation) (cleanedText heading tail : jsstring)
         (s : Score),
    In rule rules ->
    lookupDisambiguation (type rule) = Some d ->
    scoreRule rule cleanedText heading tail = Some s ->
    (forall m, In m (sindicators s) -> In m (entityOnly d)) ->
    hasStructuralInBody d cleanedText = false ->
    let s' := disambiguate cleanedText heading s in
    sconfidence s'
    = F64.round2 (F64.mul (F64.lit (sconfidence s)) (F64.lit (3 # 10)))
    /\ sconfidence s * (3 # 10) - (5 # 1000) <= sconfidence s'
    /\ sconfidence s' <= sconfidence s * (3 # 10) + (5 # 1000)
    /\ disambiguation s' = Some "entity-mention-only".
Proof.
  intros rule d cleanedText heading tail s Hr Hd Hs Hent Hbody. cbv zeta.
  destruct (scoreRule_hundredths rule cleanedText heading tail s Hr Hs)
    as [H0 [H1 [k Hk]]].
  unfold scoreRule in Hs.
  destruct (0 <? List.length (allMatchSources rule cleanedText heading tail))%nat eqn:Hlen;
    [|discriminate].
  injection Hs as Hs. apply Nat.ltb_lt in Hlen.
  assert (Hty : stype s = type rule) by (subst s; reflexivity).
  assert (Hind : sindicators s = allMatchSources rule cleanedText heading tail)
    by (subst s; reflexivity).
  (* no structural pattern matches the heading *)
  assert (Hhead : hasStructuralInHeading d heading = false).
  { unfold hasStructuralInHeading.
    destruct (nonempty heading) eqn:Hne; [|reflexivity]. simpl.
    destruct (existsb (fun p => ptest p heading) (structural d)) eqn:Hex; [|reflexivity].
    exfalso. apply existsb_exists in Hex as [p [Hp Ht]].
    destruct (structural_is_rule_pattern rule d p Hr Hd Hp) as [Hpat Hnot].
    apply Hnot, Hent. rewrite Hind. unfold allMatchSources.
    apply dedup_In; [|reflexivity].
    apply in_or_app. right. apply in_or_app. left.
    unfold scopeMatches. rewrite Hne. apply filter_In. split; assumption. }
  (* every indicator is an entity-only pattern *)
  assert (Hall : allMatchesAreEntityOnly d (sindicators s) = true).
  { unfold allMatchesAreEntityOnly. apply andb_true_iff. split.
    - apply Nat.ltb_lt. rewrite Hind in Hent.
      destruct (allMatchSources rule cleanedText heading tail) as [|m ms];
        [simpl in Hlen; lia|].
      specialize (Hent m (or_introl eq_refl)).
      destruct (entityOnly d); [contradiction|simpl; lia].
    - apply forallb_forall. intros m Hm. apply existsb_exists.
      exists m. split; [apply Hent; exact Hm|].
      rewrite String.eqb_refl. reflexivity. }
  clear Hs. unfold disambiguate. rewrite Hty, Hd, Hhead, Hall, Hbody.
  cbn [andb negb setConfidence sconfidence disambiguation].
  destruct (F64Facts.penalty_bound (sconfidence s) k Hk H0 H1) as [Bl Bu].
  split; [reflexivity|]. split; [exact Bl|]. split; [exact Bu|reflexivity].
Qed.

Lemma acordaoRule_in_rules : In acordaoRule rules.
Proof. unfold rules. repeat (first [left; reflexivity | right]). Qed.

Lemma acordaoEntry_lookup : lookupDisambiguation (type acordaoRule) = Some acordaoEntry.
Proof. reflexivity. Qed.

Lemma score9_computed : scoreRule acordaoRule body9 heading9 tail9 = Some score9.
Proof. vm_compute. reflexivity. Qed.

Lemma score9_entity_only :
  forall m, In m (sindicators score9) -> In m (entityOnly acordaoEntry).
Proof. intros m [<-|[]]. left. reflexivity. Qed.

Lemma body9_no_structural : hasStructuralInBody acordaoEntry body9 = false.
Proof. vm_compute. reflexivity. Qed.

Lemma score9_penalised :
  disambiguate body9 heading9 score9
  = {| stype := "acordao"; sconfidence := 7 # 100;
       sindicators := ["desembargador"];
       disambiguation := Some "entity-mention-only" |}.
Proof. vm_compute. reflexivity. Qed.

(** The raw confidence is the double 0.9 divided by 4, a little above
    0.225. *)
Lemma raw9 :
  rawConfidence acordaoRule body9 heading9 tail9
  == 8106479329266893 # 36028797018963968.
Proof. vm_compute. reflexivity. Qed.

(** C6, as the specification states it, fails: one mention of a judge of
    appeal in the body of nine lines gives the rule [acordao] the raw
    confidence 0.225 (the double 0.9 divided by 4), reported as 0.23; the
    penalised confidence is 0.07, above 0.30 times the raw confidence. *)
Lemma entity_only_penalty_exceeds_bound :
  ~ entityOnlyClaim acordaoRule acordaoEntry body9 heading9 tail9 score9.
Proof.
  intro H.
  destruct (H acordaoRule_in_rules acordaoEntry_lookup score9_computed
              score9_entity_only body9_no_structural) as [Hle _].
  rewrite score9_penalised, raw9 in Hle. simpl in Hle.
  revert Hle. unfold Qle. simpl. lia.
Qed.

Example entity_only_penalty_exceeds_rounded_confidence :
  (3 # 10) * sconfidence score9
  < sconfidence (disambiguate body9 heading9 score9).
Proof. rewrite score9_penalised. unfold Qlt. simpl. lia. Qed.

Lemma entity_only_penalty_witness :
  sconfidence (disambiguate body9 heading9 score9)
  = F64.round2 (F64.mul (F64.lit (sconfidence score9)) (F64.lit (3 # 10)))
  /\ sconfidence score9 * (3 # 10) - (5 # 1000)
     <= sconfidence (disambiguate body9 heading9 score9)
  /\ sconfidence (disambiguate body9 heading9 score9)
     <= sconfidence score9 * (3 # 10) + (5 # 1000)
  /\ disambiguation (disambiguate body9 heading9 score9) = Some "entity-mention-only".
Proof.
  apply (entity_only_penalty acordaoRule acordaoEntry body9 heading9 tail9 score9).
  - unfold rules. repeat (first [left; reflexivity | right]).
  - reflexivity.
  - vm_compute. reflexivity.
  - intros m [<-|[]]. left. reflexivity.
  - vm_compute. reflexivity.
Defined.

(** The bonus of [specificityOrder] comes after the penalty: 0.46 times 0.3
    is 0.138, rounded to 0.14 and reported as 0.19 for [recurso-carf]. *)
Example specificity_bonus_after_penalty :
  List.find (fun s => String.eqb (stype s) "recurso-carf") (scoreText carfText)
  = Some {| stype := "recurso-carf"; sconfidence := 19 # 100;
            sindicators := ["carf"];
            disambiguation := Some "entity-mention-only" |}.
Proof. vm_compute. reflexivity. Qed.

End ClassifierFacts.

(** ** Blank pages in the segmenter *)

Module SegmenterFacts.
Import Segmenter SegmenterSpec.

Lemma isNewPiece_weak (st : State) (page : Page.t) (markers : list Marker.t) :
  strongNonBlank markers = false -> isNewPiece st page markers = false.
Proof. intro H. unfold isNewPiece. rewrite H. reflexivity. Qed.

Lemma step_extends (c : option Classifier.Classification) (st : State)
      (page : Page.t) (cur : Segment.t) :
  currentSegment st = Some cur ->
  strongNonBlank (detectBoundaries (Page.text page) (Page.page_number page)) = false ->
  segments (step c st page) = segments st
  /\ segmentCounter (step c st page) = segmentCounter st
  /\ currentSegment (step c st page)
     = Some (Segment.set_page_end cur (Page.page_number page)).
Proof.
  intros Hcur Hweak. unfold step. rewrite Hcur.
  rewrite (isNewPiece_weak st page _ Hweak).
  destruct (hasBlank _); repeat split; reflexivity.
Qed.

Lemma step_has_current (c : option Classifier.Classification) (st : State)
      (page : Page.t) :
  currentSegment (step c st page) <> None.
Proof.
  unfold step. destruct (currentSegment st) as [cur|]; [|discriminate].
  destruct (isNewPiece _ _ _); [discriminate|].
  destruct (hasBlank _); discriminate.
Qed.

Lemma run_has_current (c : option Classifier.Classification) (pre : list Page.t)
      (st : State) :
  pre <> [] -> currentSegment (fold_left (step c) pre st) <> None.
Proof.
  intro Hne. destruct (@exists_last _ pre Hne) as [front [lastp ->]].
  rewrite fold_left_app. simpl. apply step_has_current.
Qed.

Lemma step_counted (c : option Classifier.Classification) (st : State)
      (page : Page.t) :
  counted st -> counted (step c st page).
Proof.
  unfold counted, close, step.
  destruct (currentSegment st) as [cur|].
  - destruct (isNewPiece _ _ _).
    + cbn [currentSegment segments segmentCounter]. rewrite !length_app. simpl. lia.
    + destruct (hasBlank _); cbn [currentSegment segments segmentCounter];
        rewrite !length_app; simpl; lia.
  - cbn [currentSegment segments segmentCounter]. rewrite length_app. simpl. lia.
Qed.

Lemma run_counted (c : option Classifier.Classification) (pages : list Page.t)
      (st : State) :
  counted st -> counted (fold_left (step c) pages st).
Proof.
  revert st; induction pages as [|p ps IH]; intros st H; [exact H|].
  simpl. apply IH. apply step_counted. exact H.
Qed.

Lemma segment_length (c : option Classifier.Classification) (pages : list Page.t) :
  List.length (segment pages c) = segmentCounter (fold_left (step c) pages init).
Proof. apply (run_counted c pages init). reflexivity. Qed.

(** C7, amended. A page that is not the first of the document and whose only
    boundary marker is [blank-page] opens no segment: the segment that is
    open gets the number of the page as its [page_end], the closed segments
    and the counter stay as they are, and the document has as many segments
    with the page as without it. *)
Theorem blank_page_extends_current_segment :
  forall (c : option Classifier.Classification) (pre : list Page.t) (page : Page.t),
    pre <> [] ->
    onlyBlank page ->
    let st := fold_left (step c) pre init in
    let st' := step c st page in
    (exists cur,
        currentSegment st = Some cur
        /\ currentSegment st' = Some (Segment.set_page_end cur (Page.page_number page)))
    /\ segments st' = segments st
    /\ segmentCounter st' = segmentCounter st
    /\ List.length (segment (pre ++ [page]) c) = List.length (segment pre c).
Proof.
  intros c pre page Hne [_ Hweak]. cbv zeta.
  destruct (currentSegment (fold_left (step c) pre init)) as [cur|] eqn:Hcur;
    [|exfalso; exact (run_has_current c pre init Hne Hcur)].
  destruct (step_extends c _ page cur Hcur Hweak) as [Hs [Hc Hcurr]].
  split; [exists cur; split; [reflexivity|exact Hcurr]|].
  split; [exact Hs|]. split; [exact Hc|].
  rewrite !segment_length, fold_left_app. simpl. exact Hc.
Qed.

Lemma blankPage_onlyBlank (n : Z) : onlyBlank (blankPage n).
Proof. split; vm_compute; reflexivity. Qed.

(** C7, as the specification states it, fails on the first page: a blank
    first page opens segment [seg-001], a separator, because no segment is
    open yet. *)
Lemma blank_first_page_opens_a_segment :
  ~ blankNeverOpens None [] (blankPage 1)
  /\ map (fun s => (Segment.segment_id s, Segment.type s,
                    Segment.page_start s, Segment.page_end s))
         (segment [blankPage 1; sentencePage 2] None)
     = [("seg-001", "separator", 1%Z, 1%Z); ("seg-002", "piece", 2%Z, 2%Z)].
Proof.
  split.
  - intro H. specialize (H (blankPage_onlyBlank 1)). vm_compute in H. discriminate.
  - vm_compute. reflexivity.
Qed.

Lemma blank_page_extends_witness :
  (exists cur,
      currentSegment (fold_left (step None) [sentencePage 1] init) = Some cur
      /\ currentSegment (step None (fold_left (step None) [sentencePage 1] init)
                              (blankPage 2))
         = Some (Segment.set_page_end cur (Page.page_number (blankPage 2))))
  /\ segments (step None (fold_left (step None) [sentencePage 1] init) (blankPage 2))
     = segments (fold_left (step None) [sentencePage 1] init)
  /\ segmentCounter (step None (fold_left (step None) [sentencePage 1] init) (blankPage 2))
     = segmentCounter (fold_left (step None) [sentencePage 1] init)
  /\ List.length (segment ([sentencePage 1] ++ [blankPage 2]) None)
     = List.length (segment [sentencePage 1] None).
Proof.
  apply (blank_page_extends_current_segment None [sentencePage 1] (blankPage 2)).
  - discriminate.
  - split; vm_compute; reflexivity.
Defined.

End SegmenterFacts.

(** ** Stage 5.6 *)

Module L2Facts.
Import Classifier L2 L2Spec.

(** C8, as the specification states it, fails: a first segment of type
    [peticao-inicial] gets the position boost at every pass, 0.5 to 0.6 and
    then 0.6 to 0.7. *)
Lemma l2_second_pass_boosts_again :
  labels (l2pass [] None [pieceOf "seg-001" "peticao-inicial" 1 4])
  = [("peticao-inicial", Some (3 # 5))]
  /\ labels (l2pass [] None (l2pass [] None [pieceOf "seg-001" "peticao-inicial" 1 4]))
     = [("peticao-inicial", Some (7 # 10))]
  /\ ~ l2Idempotent [] None [pieceOf "seg-001" "peticao-inicial" 1 4].
Proof.
  split; [vm_compute; reflexivity|].
  split; [vm_compute; reflexivity|].
  unfold l2Idempotent. vm_compute. discriminate.
Qed.

Lemma neutral_facts (t : string) :
  mem t NEUTRAL_TYPES = true ->
  mem t RESPONSE_TYPES = false /\ mem t INITIATOR_TYPES = false
  /\ isInicial t = false /\ String.eqb t "inicial-execfiscal" = false
  /\ String.eqb t "inicial-eef" = false.
Proof.
  intro H. apply Util.mem_In in H. unfold NEUTRAL_TYPES in H. simpl in H.
  repeat (destruct H as [<-|H]; [vm_compute; repeat split|]).
  contradiction.
Qed.

Lemma reclassify_neutral (pages : list Page.t) (pdf : option Classification)
      (st : State) (seg : Segment.t) :
  mem (Segment.doc_type seg) NEUTRAL_TYPES = true ->
  String.eqb (Segment.doc_type seg) (pdfTypeOf pdf) = false ->
  reclassify pages pdf st seg = (seg, []).
Proof.
  intros Hn Hpdf.
  destruct (neutral_facts _ Hn) as [Hr [Hi [Hini [Hex Heef]]]].
  unfold reclassify.
  destruct (String.eqb (Segment.doc_type seg) "" || String.eqb (Segment.doc_type seg) "unknown");
    [reflexivity|].
  unfold eefOverride. rewrite Hex. cbn [andb].
  unfold transitionRule. rewrite Hn. cbn [negb]. rewrite andb_false_r. cbn [andb].
  unfold positionRule. rewrite Hr, Hi.
  unfold duplicateRule. rewrite Hini. cbn [andb].
  unfold pdfRules. rewrite Heef, Hpdf. cbn [andb].
  destruct (j st =? 0)%nat; reflexivity.
Qed.

Lemma reclassify_quiet (pages : list Page.t) (pdf : option Classification)
      (st : State) (seg : Segment.t) :
  quiet pdf seg = true ->
  String.eqb (Segment.type seg) "separator" = false ->
  reclassify pages pdf st seg = (seg, []).
Proof.
  unfold quiet. intros Hq Hsep. rewrite Hsep in Hq. cbn [orb] in Hq.
  destruct (String.eqb (Segment.doc_type seg) "") eqn:E1.
  - unfold reclassify. rewrite E1. reflexivity.
  - destruct (String.eqb (Segment.doc_type seg) "unknown") eqn:E2.
    + unfold reclassify. rewrite E1, E2. reflexivity.
    + cbn [orb] in Hq. apply andb_true_iff in Hq as [Hn Hp].
      apply negb_true_iff in Hp. apply reclassify_neutral; assumption.
Qed.

Lemma l2_quiet_run (pages : list Page.t) (pdf : option Classification)
      (segments : list Segment.t) :
  forallb (quiet pdf) segments = true ->
  forall (st : State) (out : list Segment.t),
    snd (fold_left (step pages pdf) segments (st, out)) = out ++ segments.
Proof.
  induction segments as [|s rest IH]; intros H st out.
  - simpl. rewrite app_nil_r. reflexivity.
  - simpl in H. apply andb_true_iff in H as [Hs Hrest].
    cbn [fold_left]. unfold step at 2.
    destruct (String.eqb (Segment.type s) "separator") eqn:Hsep.
    + rewrite (IH Hrest). rewrite <- app_assoc. reflexivity.
    + rewrite (reclassify_quiet pages pdf st s Hs Hsep).
      rewrite (IH Hrest). rewrite <- app_assoc. reflexivity.
Qed.

(** C8, amended. On a segment array in which every segment is a separator,
    has no known type, or has a neutral type other than the type of the
    PDF, the pass of Stage 5.6 changes nothing, so a second pass gives the
    same [doc_type] and the same classification confidence as the first. *)
Theorem l2_leaves_quiet_segments_unchanged :
  forall (pages : list Page.t) (pdf : option Classification)
         (segments : list Segment.t),
    forallb (quiet pdf) segments = true ->
    l2pass pages pdf segments = segments
    /\ l2Idempotent pages pdf segments.
Proof.
  intros pages pdf segments H.
  assert (E : l2pass pages pdf segments = segments).
  { unfold l2pass. rewrite (l2_quiet_run pages pdf segments H). reflexivity. }
  split; [exact E|]. unfold l2Idempotent. rewrite E, E. reflexivity.
Qed.

Lemma l2_quiet_witness :
  l2pass [] None quietSegments = quietSegments
  /\ l2Idempotent [] None quietSegments.
Proof.
  apply (l2_leaves_quiet_segments_unchanged [] None quietSegments).
  vm_compute. reflexivity.
Defined.

End L2Facts.

(** ** Names of the exported Markdown files *)

Module ExporterFacts.
Import Exporter ExporterSpec.

(** C9, as the specification states it, fails: the whitelist type
    [decisao-admin-1inst] has a digit, which the pattern does not allow. *)
Lemma filename_with_digit_in_doc_type :
  exportNames [adminDecision] = ["001-piece-decisao-admin-1inst.md"]
  /\ Classifier.mem (Segment.doc_type adminDecision) Classifier.VALID_TYPES = true
  /\ matchesSpec "001-piece-decisao-admin-1inst.md" = false
  /\ ~ filenameClaim [adminDecision].
Proof.
  split; [reflexivity|]. split; [reflexivity|]. split; [vm_compute; reflexivity|].
  intro H. destruct H as [H _].
  - constructor; [reflexivity|constructor].
  - inversion H as [|x l Hx _]; subst. vm_compute in Hx. discriminate.
Qed.

(** From the thousandth segment on the number has four digits. *)
Example filename_of_the_thousandth_segment :
  generateFilename sentenceSegment 999 = "1000-piece-sentenca.md"
  /\ matchesSpec "1000-piece-sentenca.md" = false.
Proof. split; vm_compute; reflexivity. Qed.

(** *** Decimal numbers *)

Lemma digitChar_value (d : nat) : (d < 10)%nat -> digitValue (Segmenter.digitChar d) = d.
Proof.
  intro H. unfold digitValue, Segmenter.digitChar.
  rewrite nat_ascii_embedding by lia. lia.
Qed.

Lemma digitChar_isDigit (d : nat) : (d < 10)%nat -> isDigit (Segmenter.digitChar d) = true.
Proof.
  intro H. unfold isDigit, Segmenter.digitChar.
  rewrite nat_ascii_embedding by lia.
  apply andb_true_iff. split; [apply Nat.leb_le|apply Nat.leb_le]; lia.
Qed.

Lemma decimalRev_value (fuel n : nat) :
  (n < fuel)%nat -> valueRev (Segmenter.decimalRev fuel n) = n.
Proof.
  revert n; induction fuel as [|f IH]; intros n H; [lia|].
  cbn [Segmenter.decimalRev]. destruct (Nat.ltb_spec n 10) as [Hlt|Hge].
  - cbn [valueRev]. rewrite digitChar_value by exact Hlt. lia.
  - cbn [valueRev]. rewrite digitChar_value by (apply Nat.mod_upper_bound; lia).
    rewrite IH.
    + pose proof (Nat.div_mod_eq n 10). lia.
    + apply Nat.Div0.div_lt_upper_bound. lia.
Qed.

Lemma decimalRev_digits (fuel n : nat) :
  forallb isDigit (Segmenter.decimalRev fuel n) = true.
Proof.
  revert n; induction fuel as [|f IH]; intro n; [reflexivity|].
  cbn [Segmenter.decimalRev]. destruct (Nat.ltb_spec n 10) as [Hlt|Hge]; cbn [forallb].
  - rewrite digitChar_isDigit by exact Hlt. reflexivity.
  - rewrite digitChar_isDigit by (apply Nat.mod_upper_bound; lia). apply IH.
Qed.

Lemma valueRev_zeros (l : list ascii) (k : nat) :
  valueRev (l ++ repeat "0"%char k) = valueRev l.
Proof.
  induction l as [|c l IH]; simpl.
  - induction k as [|k IHk]; simpl; [reflexivity|]. rewrite IHk. reflexivity.
  - rewrite IH. reflexivity.
Qed.

Lemma rev_repeat {T} (x : T) (k : nat) : rev (repeat x k) = repeat x k.
Proof.
  induction k as [|k IH]; [reflexivity|].
  simpl. rewrite IH. symmetry. apply (repeat_cons k x).
Qed.

Lemma padStart3_value (n : nat) :
  valueRev (rev (Segmenter.padStart3 (Segmenter.decimal n))) = n.
Proof.
  unfold Segmenter.padStart3, Segmenter.decimal.
  rewrite rev_app_distr, rev_involutive, rev_repeat, valueRev_zeros.
  apply decimalRev_value. lia.
Qed.

Lemma forallb_rev {T} (p : T -> bool) (l : list T) :
  forallb p (rev l) = forallb p l.
Proof.
  induction l as [|x l IH]; [reflexivity|].
  simpl. rewrite forallb_app, IH. simpl. rewrite andb_true_r. apply andb_comm.
Qed.

Lemma padStart3_digits (n : nat) :
  forallb isDigit (Segmenter.padStart3 (Segmenter.decimal n)) = true.
Proof.
  unfold Segmenter.padStart3, Segmenter.decimal.
  rewrite forallb_app, forallb_rev, decimalRev_digits, andb_true_r.
  induction (3 - _)%nat as [|k IH]; [reflexivity|]. simpl. exact IH.
Qed.

(** *** Names are told apart by their number *)

Lemma digits_prefix_unique (a b r r' : list ascii) :
  forallb isDigit a = true -> forallb isDigit b = true ->
  a ++ "-"%char :: r = b ++ "-"%char :: r' -> a = b.
Proof.
  revert b; induction a as [|x a IH]; intros [|y b] Ha Hb E; simpl in *.
  - reflexivity.
  - injection E as E _. subst y. discriminate.
  - injection E as E _. subst x. discriminate.
  - injection E as -> E.
    apply andb_true_iff in Ha as [_ Ha]. apply andb_true_iff in Hb as [_ Hb].
    f_equal. apply IH; assumption.
Qed.

Lemma list_ascii_append (a b : string) :
  list_ascii_of_string (String.append a b)
  = list_ascii_of_string a ++ list_ascii_of_string b.
Proof. induction a as [|c a IH]; simpl; [reflexivity|]. rewrite IH. reflexivity. Qed.

Lemma generateFilename_number (s s' : Segment.t) (i i' : nat) :
  generateFilename s i = generateFilename s' i' -> i = i'.
Proof.
  unfold generateFilename, Segmenter.pad3. intro E.
  apply (f_equal list_ascii_of_string) in E.
  rewrite !list_ascii_append, !list_ascii_of_string_of_list_ascii in E.
  change (list_ascii_of_string "-") with ["-"%char] in E.
  cbn [app] in E.
  apply digits_prefix_unique in E; try apply padStart3_digits.
  apply (f_equal (fun l => valueRev (rev l))) in E.
  rewrite !padStart3_value in E. lia.
Qed.

Lemma namesFrom_In (name : string) (segments : list Segment.t) (k : nat) :
  In name (namesFrom k segments) ->
  exists s j, (k <= j)%nat /\ name = generateFilename s j.
Proof.
  revert k; induction segments as [|s rest IH]; intros k H; [contradiction|].
  simpl in H. destruct H as [<-|H].
  - exists s, k. split; [lia|reflexivity].
  - destruct (IH _ H) as [s' [j [Hj E]]]. exists s', j. split; [lia|exact E].
Qed.

Lemma namesFrom_NoDup (segments : list Segment.t) (k : nat) :
  NoDup (namesFrom k segments).
Proof.
  revert k; induction segments as [|s rest IH]; intro k; simpl; constructor.
  - intro H. destruct (namesFrom_In _ _ _ H) as [s' [j [Hj E]]].
    apply generateFilename_number in E. lia.
  - apply IH.
Qed.

(** *** Names match the pattern *)

Lemma mdPattern_shape :
  mdPattern
  = Re.RSeq Re.RBol
      (Re.RSeq (Re.RSeq digitSet (Re.RSeq digitSet (Re.RSeq digitSet Re.REps))) tailRe).
Proof. vm_compute. reflexivity. Qed.

Lemma tail_ignores_previous (p : option N) (s : jsstring) :
  Re.rmatch Re.fl_none tailRe p s (fun p' s' => Some (p', s'))
  = Re.rmatch Re.fl_none tailRe None s (fun p' s' => Some (p', s')).
Proof. destruct s; reflexivity. Qed.

Lemma md_test_digits (d1 d2 d3 : N) (rest : jsstring) :
  isDigitUnit d1 = true -> isDigitUnit d2 = true -> isDigitUnit d3 = true ->
  tailMatches rest = true ->
  Re.test Re.fl_none mdPattern (d1 :: d2 :: d3 :: rest) = true.
Proof.
  unfold isDigitUnit, tailMatches. intros H1 H2 H3 Ht.
  rewrite mdPattern_shape. unfold Re.test, Re.find.
  cbn [Re.find_from]. unfold Re.match_here, digitSet.
  cbn [Re.rmatch Re.at_bol]. rewrite H1, H2, H3.
  rewrite tail_ignores_previous.
  destruct (Re.rmatch Re.fl_none tailRe None rest _); [reflexivity|discriminate].
Qed.

Lemma js_ascii_cons (a : ascii) (s : string) :
  (byte_of a <? 128)%N = true -> js (String a s) = byte_of a :: js s.
Proof. intro H. unfold js. cbn [bytes List.length utf8]. rewrite H. reflexivity. Qed.

Lemma pad3_three_digits :
  forallb (fun i => threeDigits (Segmenter.pad3 (i + 1))) (seq 0 999) = true.
Proof. vm_compute. reflexivity. Qed.

Lemma tails_match :
  forallb (fun t => negb (String.eqb t "")
                    && forallb (fun d => negb (String.eqb d "")
                                         && tailMatches (js (tailOf t d)))
                               plainTypes)
          segmentTypes = true.
Proof. vm_compute. reflexivity. Qed.

Lemma generateFilename_matches (s : Segment.t) (i : nat) :
  (i < 999)%nat ->
  In (Segment.type s) segmentTypes ->
  In (Segment.doc_type s) plainTypes ->
  matchesSpec (generateFilename s i) = true.
Proof.
  intros Hi Ht Hd.
  pose proof pad3_three_digits as P. rewrite forallb_forall in P.
  specialize (P i ltac:(apply in_seq; lia)).
  pose proof tails_match as T. rewrite forallb_forall in T.
  specialize (T _ Ht). apply andb_true_iff in T as [Tne T].
  rewrite forallb_forall in T. specialize (T _ Hd).
  apply andb_true_iff in T as [Dne T].
  apply negb_true_iff in Tne, Dne.
  unfold matchesSpec, generateFilename, orElse. rewrite Tne, Dne.
  fold (tailOf (Segment.type s) (Segment.doc_type s)).
  destruct (Segmenter.pad3 (i + 1)) as [|a [|b [|c [|x r]]]]; try discriminate.
  unfold threeDigits in P.
  apply andb_true_iff in P as [P Hc]. apply andb_true_iff in P as [P Hb].
  apply andb_true_iff in P as [P Ha]. apply andb_true_iff in P as [P Dc].
  apply andb_true_iff in P as [Da Db].
  cbn [String.append]. rewrite !js_ascii_cons by assumption.
  apply md_test_digits; assumption.
Qed.

Lemma wellTyped_In (s : Segment.t) :
  wellTyped s = true ->
  In (Segment.type s) segmentTypes /\ In (Segment.doc_type s) plainTypes.
Proof.
  unfold wellTyped. intro H.
  apply andb_true_iff in H as [H Hn]. apply andb_true_iff in H as [Ht Hd].
  split; [apply Util.mem_In; exact Ht|].
  unfold plainTypes. apply filter_In. split; [apply Util.mem_In; exact Hd|exact Hn].
Qed.

Lemma namesFrom_match (segments : list Segment.t) (k : nat) :
  (k + List.length segments <= 999)%nat ->
  forallb wellTyped segments = true ->
  Forall (fun name => matchesSpec name = true) (namesFrom k segments).
Proof.
  revert k; induction segments as [|s rest IH]; intros k Hlen Hall;
    cbn [namesFrom]; constructor.
  - cbn [forallb] in Hall. apply andb_true_iff in Hall as [Hs _].
    destruct (wellTyped_In s Hs) as [Ht Hd].
    cbn [List.length] in Hlen.
    apply generateFilename_matches; [lia|exact Ht|exact Hd].
  - cbn [forallb] in Hall. apply andb_true_iff in Hall as [_ Hrest].
    apply IH; [cbn [List.length] in Hlen; lia|exact Hrest].
Qed.

(** C9, amended. The names of an export are pairwise distinct for every
    segment list. They match the pattern when the list has at most 999
    segments, each of one of the five segment types and with a [doc_type] of
    the whitelist other than [decisao-admin-1inst]. *)
Theorem export_names_distinct_and_well_formed :
  forall (segments : list Segment.t),
    NoDup (exportNames segments)
    /\ ((List.length segments <= 999)%nat ->
        forallb wellTyped segments = true ->
        Forall (fun name => matchesSpec name = true) (exportNames segments)).
Proof.
  intro segments. split; [apply namesFrom_NoDup|].
  intros Hlen Hall. apply namesFrom_match; [exact Hlen|exact Hall].
Qed.

Lemma export_names_witness :
  exportNames [sentenceSegment; sentenceSegment]
  = ["001-piece-sentenca.md"; "002-piece-sentenca.md"]
  /\ NoDup (exportNames [sentenceSegment; sentenceSegment])
  /\ Forall (fun name => matchesSpec name = true)
            (exportNames [sentenceSegment; sentenceSegment]).
Proof.
  split; [vm_compute; reflexivity|].
  destruct (export_names_distinct_and_well_formed [sentenceSegment; sentenceSegment])
    as [Hd Hm].
  split; [exact Hd|].
  apply Hm; [vm_compute; lia|vm_compute; reflexivity].
Defined.

End ExporterFacts.

(** ** Short texts and the garbage score *)

Module GarbageFacts.
Import Profiler Extractor GarbageSpec.

Lemma ratio_nonneg (a b : nat) : 0 <= ratio a b.
Proof.
  unfold ratio, ofnat, Qdiv. apply Qmult_le_0_compat.
  - unfold Qle. simpl. lia.
  - apply Qinv_le_0_compat. unfold Qle. simpl. lia.
Qed.

Lemma detectWordLevelGarbage_nonneg (text : jsstring) :
  0 <= detectWordLevelGarbage text.
Proof.
  unfold detectWordLevelGarbage.
  destruct (List.length (trim text) <? 30)%nat; [apply Qle_refl|].
  destruct (List.length (splitWords (stripPJeFooter text)) <? 5)%nat; [apply Qle_refl|].
  apply ratio_nonneg.
Qed.

Lemma Qltb_nonneg_zero (g : Q) : 0 <= g -> Qltb g 0 = false.
Proof.
  intro H. unfold Qltb. apply negb_false_iff. apply Qle_bool_iff. exact H.
Qed.

Lemma tooShort_zero (text : jsstring) :
  tooShort text -> detectWordLevelGarbage text = 0.
Proof.
  intros [H|H]; unfold detectWordLevelGarbage.
  - apply Nat.ltb_lt in H. rewrite H. reflexivity.
  - destruct (List.length (trim text) <? 30)%nat; [reflexivity|].
    apply Nat.ltb_lt in H. rewrite H. reflexivity.
Qed.

(** C10. For a text whose trimmed length is below 30, or that has fewer than
    5 words after the footer is stripped, [detectWordLevelGarbage] is
    exactly 0. So the rotation retry returns the first OCR result of such a
    page as it is; in the hybrid merge a fast-parse page with such a text is
    never replaced by the OCR page, whose score cannot be below 0; and an
    OCR page with such a text, when it replaces the fast-parse page, keeps
    its own confidence instead of the 0.4 of garbage. *)
Theorem short_text_is_never_garbage :
  forall (text : jsstring),
    tooShort text ->
    detectWordLevelGarbage text = 0
    /\ (forall (result : Page.t) (ocrRotated : nat -> Page.t),
          Page.text result = text ->
          ocrSinglePageWithRetry result ocrRotated = result)
    /\ (forall (ocr fp : Page.t),
          Page.text fp = text ->
          (forall g, Page.word_garbage_score ocr = Some g -> 0 <= g) ->
          Page.text (mergePage (Some ocr) fp) = text
          /\ Page.confidence (mergePage (Some ocr) fp) = Page.confidence fp
          /\ Page.ocr_replaced (mergePage (Some ocr) fp) = Some false)
    /\ (forall (ocr fp : Page.t),
          Page.text ocr = text ->
          Page.word_garbage_score ocr = None ->
          Page.ocr_replaced (mergePage (Some ocr) fp) = Some true ->
          Page.confidence (mergePage (Some ocr) fp) = Page.confidence ocr).
Proof.
  intros text Hshort. pose proof (tooShort_zero text Hshort) as Hzero.
  split; [exact Hzero|]. split; [|split].
  - intros result ocrRotated Ht. unfold ocrSinglePageWithRetry.
    destruct (Page.empty result || (List.length (Page.text result) <? 30)%nat);
      [reflexivity|].
    rewrite Ht, Hzero. reflexivity.
  - intros ocr fp Ht Hg. unfold mergePage.
    destruct (0 <? List.length (Page.text ocr))%nat.
    + rewrite Ht, Hzero.
      assert (Hnn : 0 <= match Page.word_garbage_score ocr with
                         | Some g => g
                         | None => detectWordLevelGarbage (Page.text ocr)
                         end).
      { destruct (Page.word_garbage_score ocr) as [g|];
          [apply Hg; reflexivity|apply detectWordLevelGarbage_nonneg]. }
      rewrite (Qltb_nonneg_zero _ Hnn).
      cbn [Page.text Page.confidence Page.ocr_replaced].
      repeat split; try assumption.
    + cbn [Page.text Page.confidence Page.ocr_replaced]. repeat split; assumption.
  - intros ocr fp Ht Hnone. unfold mergePage.
    destruct (0 <? List.length (Page.text ocr))%nat.
    + rewrite Hnone, Ht, Hzero.
      destruct (Qltb 0 (detectWordLevelGarbage (Page.text fp)));
        cbn [Page.ocr_replaced Page.confidence]; [reflexivity|discriminate].
    + cbn [Page.ocr_replaced]. discriminate.
Qed.

Lemma short_text_witness :
  detectWordLevelGarbage garbledShort = 0
  /\ (forall (result : Page.t) (ocrRotated : nat -> Page.t),
        Page.text result = garbledShort ->
        ocrSinglePageWithRetry result ocrRotated = result)
  /\ (forall (ocr fp : Page.t),
        Page.text fp = garbledShort ->
        (forall g, Page.word_garbage_score ocr = Some g -> 0 <= g) ->
        Page.text (mergePage (Some ocr) fp) = garbledShort
        /\ Page.confidence (mergePage (Some ocr) fp) = Page.confidence fp
        /\ Page.ocr_replaced (mergePage (Some ocr) fp) = Some false)
  /\ (forall (ocr fp : Page.t),
        Page.text ocr = garbledShort ->
        Page.word_garbage_score ocr = None ->
        Page.ocr_replaced (mergePage (Some ocr) fp) = Some true ->
        Page.confidence (mergePage (Some ocr) fp) = Page.confidence ocr).
Proof.
  apply (short_text_is_never_garbage garbledShort).
  left. vm_compute. lia.
Defined.

(** Three long garbled words: long enough, but fewer than 5 words. *)
Example few_words_score_zero :
  (30 <= List.length (trim garbledFewWords))%nat
  /\ List.length (splitWords (stripPJeFooter garbledFewWords)) = 3%nat
  /\ detectWordLevelGarbage garbledFewWords = 0.
Proof. vm_compute. repeat split. lia. Qed.

End GarbageFacts.

(** ** Intake: the manifest *)

Module IngestProps.
Import Ingester IngestInv.

Lemma ingestStep_counts sha256 dedup (acc : Acc) (p : string * option (list N)) :
  (List.length (acc_files (ingestStep sha256 dedup acc p))
   + List.length (acc_duplicates (ingestStep sha256 dedup acc p))
   + List.length (acc_errors (ingestStep sha256 dedup acc p))
   = S (List.length (acc_files acc) + List.length (acc_duplicates acc)
        + List.length (acc_errors acc)))%nat.
Proof.
  unfold ingestStep. destruct (snd p) as [content|].
  - destruct (if dedup then _ else None);
      cbn [acc_files acc_duplicates acc_errors]; rewrite length_app; simpl; lia.
  - cbn [acc_files acc_duplicates acc_errors]. rewrite length_app. simpl. lia.
Qed.

Lemma run_counts sha256 dedup (paths : list (string * option (list N))) (acc : Acc) :
  (List.length (acc_files (fold_left (ingestStep sha256 dedup) paths acc))
   + List.length (acc_duplicates (fold_left (ingestStep sha256 dedup) paths acc))
   + List.length (acc_errors (fold_left (ingestStep sha256 dedup) paths acc))
   = List.length paths
     + (List.length (acc_files acc) + List.length (acc_duplicates acc)
        + List.length (acc_errors acc)))%nat.
Proof.
  revert acc. induction paths as [|p ps IH]; intro acc; [reflexivity|].
  cbn [fold_left List.length]. rewrite IH.
  pose proof (ingestStep_counts sha256 dedup acc p) as H. lia.
Qed.

(** X1. Every scanned path is counted exactly once in the summary of the
    manifest: as a registered file, as a duplicate or as an error. *)
Theorem ingest_accounts_for_every_path :
  forall (sha256 : list N -> string) (dedup recursive : bool) (src : source),
    let s := summary (ingest sha256 dedup recursive src) in
    total_scanned s = (registered s + duplicates_count s + errors_count s)%nat.
Proof.
  intros sha256 dedup recursive src. cbv zeta. unfold ingest.
  cbn [summary total_scanned registered duplicates_count errors_count].
  pose proof (run_counts sha256 dedup (pdfPaths recursive src)
                {| fingerprintDB := []; acc_files := []; acc_duplicates := [];
                   acc_errors := [] |}) as H.
  cbn [acc_files acc_duplicates acc_errors List.length] in H. lia.
Qed.

Lemma lookup_Some (db : list (string * string)) (h original : string) :
  lookup db h = Some original -> In (h, original) db.
Proof.
  unfold lookup. destruct (List.find _ db) as [[k v]|] eqn:E; [|discriminate].
  intro H. injection H as <-. apply find_some in E as [Hin Hk].
  simpl in Hk. apply String.eqb_eq in Hk. subst k. exact Hin.
Qed.

Lemma lookup_None (db : list (string * string)) (h : string) :
  lookup db h = None -> ~ In h (map fst db).
Proof.
  unfold lookup. destruct (List.find _ db) as [kv|] eqn:E; [discriminate|].
  intros _ Hin. apply in_map_iff in Hin as [[k v] [Hk Hin]]. simpl in Hk. subst k.
  pose proof (find_none _ _ E _ Hin) as Hf. simpl in Hf.
  rewrite String.eqb_refl in Hf. discriminate.
Qed.

Lemma ingestStep_dedup sha256 (acc : Acc) (p : string * option (list N)) :
  dedupInv acc -> dedupInv (ingestStep sha256 true acc p).
Proof.
  intros [Hdb [Hnd Hdup]]. unfold ingestStep.
  destruct (snd p) as [content|]; [|repeat split; try assumption; apply Hdb].
  destruct (lookup (fingerprintDB acc) _) as [original|] eqn:E.
  - split; [exact Hdb|]. split; [exact Hnd|].
    cbn [acc_files acc_duplicates]. apply Forall_app. split; [exact Hdup|].
    constructor; [|constructor].
    apply lookup_Some in E. apply Hdb in E.
    apply in_map_iff in E as [f [Hf Hin]]. injection Hf as Hh Hp.
    exists f. cbn [dup_hash original_path]. repeat split; assumption.
  - apply lookup_None in E.
    assert (E' : ~ In (hash (ingestFile sha256 (fst p) content))
                      (map hash (acc_files acc))).
    { intro H. apply E. apply in_map_iff in H as [f [Hf Hin]].
      apply in_map_iff. exists (hash f, source_path f). split; [exact Hf|].
      apply Hdb. apply in_map_iff. exists f. split; [reflexivity|exact Hin]. }
    split; [|split]; cbn [fingerprintDB acc_files acc_duplicates].
    + intro x. rewrite map_app, in_app_iff. cbn [In map]. rewrite <- Hdb. tauto.
    + rewrite map_app. apply NoDup_app; [exact Hnd|repeat constructor; intros []|].
      intros x Hx [<-|[]]. exact (E' Hx).
    + eapply Forall_impl; [|exact Hdup]. intros d [f [Hin Hf]].
      exists f. split; [apply in_or_app; left; exact Hin|exact Hf].
Qed.

Lemma run_dedup sha256 (paths : list (string * option (list N))) (acc : Acc) :
  dedupInv acc -> dedupInv (fold_left (ingestStep sha256 true) paths acc).
Proof.
  revert acc. induction paths as [|p ps IH]; intros acc H; [exact H|].
  cbn [fold_left]. apply IH. apply ingestStep_dedup. exact H.
Qed.

(** X2. With deduplication on, the registered files of a manifest have
    pairwise distinct hashes, and every duplicate carries the hash and the
    path of a registered file. *)
Theorem ingest_registers_each_hash_once :
  forall (sha256 : list N -> string) (recursive : bool) (src : source),
    let m := ingest sha256 true recursive src in
    NoDup (map hash (files m))
    /\ Forall (fun d => exists f, In f (files m) /\ hash f = dup_hash d
                                  /\ source_path f = original_path d)
              (duplicates m).
Proof.
  intros sha256 recursive src. cbv zeta. unfold ingest. cbn [files duplicates].
  refine (proj2 (run_dedup sha256 (pdfPaths recursive src) _ _)).
  split; [intro x; simpl; tauto|]. split; constructor.
Qed.

Lemma run_plain sha256 (paths : list (string * option (list N))) (acc : Acc) :
  let acc' := fold_left (ingestStep sha256 false) paths acc in
  acc_files acc' = acc_files acc ++ readable sha256 paths
  /\ acc_duplicates acc' = acc_duplicates acc
  /\ acc_errors acc' = acc_errors acc ++ unreadable paths.
Proof.
  cbv zeta. revert acc. induction paths as [|p ps IH]; intro acc.
  - simpl. rewrite !app_nil_r. repeat split.
  - cbn [fold_left]. destruct (IH (ingestStep sha256 false acc p)) as [Hf [Hd He]].
    rewrite Hf, Hd, He. unfold ingestStep, readable, unreadable.
    cbn [flat_map]. destruct (snd p) as [content|];
      cbn [acc_files acc_duplicates acc_errors]; rewrite <- ?app_assoc;
      repeat split; rewrite ?app_nil_l; reflexivity.
Qed.

(** X3. With deduplication off, nothing is reported as a duplicate: every
    readable file is registered, in the order of the scan, and every
    unreadable one is an error. *)
Theorem ingest_without_dedup_registers_all :
  forall (sha256 : list N -> string) (recursive : bool) (src : source),
    let m := ingest sha256 false recursive src in
    files m = readable sha256 (pdfPaths recursive src)
    /\ duplicates m = []
    /\ errors m = unreadable (pdfPaths recursive src).
Proof.
  intros sha256 recursive src. cbv zeta. unfold ingest. cbn [files duplicates errors].
  apply (run_plain sha256 (pdfPaths recursive src)
           {| fingerprintDB := []; acc_files := []; acc_duplicates := [];
              acc_errors := [] |}).
Qed.

End IngestProps.

(** ** Checkpoints: save and load *)

Module CheckpointProps.
Import Pipeline Checkpointing.


End CheckpointProps.

(** ** Scores of the profiler *)

Module ProfilerProps.
Import Profiler.

Lemma ofnat_nonneg (n : nat) : 0 <= ofnat n.
Proof. unfold ofnat, Qle. simpl. lia. Qed.

Lemma ratio_ge_0 (a b : nat) : 0 <= ratio a b.
Proof.
  unfold ratio, Qdiv. apply Qmult_le_0_compat; [apply ofnat_nonneg|].
  apply Qinv_le_0_compat. apply ofnat_nonneg.
Qed.

Lemma ratio_le_1 (a b : nat) : (a <= b)%nat -> (0 < b)%nat -> ratio a b <= 1.
Proof.
  intros Hab Hb. unfold ratio. apply Qle_shift_div_r.
  - unfold ofnat, Qlt. simpl. lia.
  - rewrite Qmult_1_l. unfold ofnat. rewrite <- Zle_Qle. lia.
Qed.

Lemma two_steps (a b : bool) : ((if a then 2 else if b then 1 else 0) <= 2)%nat.
Proof. destruct a, b; lia. Qed.

Lemma signalPoints_le (cleanText : jsstring) (words : list jsstring) :
  (signalPoints cleanText words <= totalSignals)%nat.
Proof.
  unfold signalPoints, totalSignals. cbv zeta.
  repeat apply Nat.add_le_mono; try apply two_steps.
  - destruct (Qgtb _ _); lia.
  - destruct (_ <=? _)%nat; [apply two_steps|lia].
Qed.

(** X5. The word-level garbage score is a number from 0 to 1, for every
    text. *)
Theorem detectWordLevelGarbage_between_0_and_1 :
  forall (text : jsstring),
    0 <= detectWordLevelGarbage text /\ detectWordLevelGarbage text <= 1.
Proof.
  intro text. unfold detectWordLevelGarbage.
  destruct (_ <? 30)%nat; [split; discriminate|].
  destruct (_ <? 5)%nat; [split; discriminate|].
  unfold garbageSignals. split; [apply ratio_ge_0|].
  apply ratio_le_1; [apply signalPoints_le|unfold totalSignals; lia].
Qed.

Lemma round_nonneg (x : Q) : 0 <= x -> (0 <= round x)%Z.
Proof.
  intro H. unfold round. change 0%Z with (Qfloor 0).
  apply Qfloor_resp_le. apply Qle_trans with x; [exact H|].
  rewrite <- (Qplus_0_r x) at 1. apply Qplus_le_r. discriminate.
Qed.

(** X6. The readability score of a text that is empty or all white space is
    0; every other text scores at least 10 and at most 100. *)
Theorem calculateReadability_bounds :
  forall (text : jsstring) (pageCount : nat),
    (trim text = [] -> calculateReadability text pageCount = 0%Z)
    /\ (trim text <> [] ->
        (10 <= calculateReadability text pageCount <= 100)%Z).
Proof.
  intros text pageCount. unfold calculateReadability. split.
  - intros ->. reflexivity.
  - intro Hne. destruct (trim text) as [|c r] eqn:E; [contradiction|].
    cbn [List.length Nat.eqb]. cbv zeta.
    match goal with
    | |- context [round ?x] =>
      assert (Hu : (0 <= round x)%Z)
        by (apply round_nonneg; apply Qmult_le_0_compat;
            [apply ratio_ge_0|discriminate]);
      generalize dependent (round x)
    end.
    intros u Hu.
    repeat match goal with
           | |- context [if ?b then _ else _] => destruct b
           end; lia.
Qed.

End ProfilerProps.

(** ** Page profiles, the document profile and the routes *)

Module ProfilingProps.
Import Profiler Profiling ProfilingInv Router.

Lemma propagateOne_profiled (d n : nat) (pg : Page.t) :
  profiled pg (propagateOne d n (profilePage pg)).
Proof.
  unfold profiled, propagateOne.
  change (PageProfile.empty (profilePage pg)) with (Page.empty pg).
  destruct (Page.empty pg); cbn [negb].
  - split; [repeat split|]. split; [tauto|reflexivity].
  - split; [repeat split|]. split; [reflexivity|discriminate].
Qed.

Lemma profilePage_profiled (pg : Page.t) : profiled pg (profilePage pg).
Proof. split; [repeat split|]. split; [tauto|reflexivity]. Qed.

Lemma propagated_profiled (d n : nat) (pages : list Page.t) :
  Forall2 profiled pages (map (propagateOne d n) (map profilePage pages)).
Proof.
  induction pages as [|p ps IH]; [constructor|].
  cbn [map]. constructor; [apply propagateOne_profiled|exact IH].
Qed.

Lemma plain_profiled (pages : list Page.t) :
  Forall2 profiled pages (map profilePage pages).
Proof.
  induction pages as [|p ps IH]; [constructor|].
  cbn [map]. constructor; [apply profilePage_profiled|exact IH].
Qed.

(** X7. [profilePages] returns one profile per page, in the order of the
    pages. The propagation changes no measurement (page number, readability,
    noise, garbage score, tier, character count, empty flag), never clears
    the degraded flag of a page, and leaves the profile of an empty page as
    it was. *)
Theorem profilePages_keeps_the_measurements :
  forall (pages : list Page.t), Forall2 profiled pages (profilePages pages).
Proof.
  intro pages. unfold profilePages, propagate.
  destruct (propagates _).
  - apply propagated_profiled.
  - apply plain_profiled.
Qed.

Lemma noise_eqb_eq (a b : noise) : noise_eqb a b = true <-> a = b.
Proof. destruct a, b; simpl; split; intro H; congruence. Qed.

Lemma Qgeb_false (x y : Q) : Qgeb x y = false -> x < y.
Proof.
  unfold Qgeb. intro H. apply Qnot_le_lt. intro Hle.
  apply Qle_bool_iff in Hle. congruence.
Qed.

Lemma clean_profile (pg : Page.t) :
  PageProfile.is_degraded (profilePage pg) = false ->
  cleanMeasurements (Page.text pg).
Proof.
  unfold profilePage. cbn [PageProfile.is_degraded]. intro H.
  apply orb_false_iff in H as [H H5]. apply orb_false_iff in H as [H H4].
  apply orb_false_iff in H as [H H3]. apply orb_false_iff in H as [H1 H2].
  unfold cleanMeasurements. split; [|split; [|split]].
  - apply Z.ltb_ge in H1. exact H1.
  - destruct (detectNoiseLevel (Page.text pg)); [reflexivity|discriminate..].
  - apply Qgeb_false. exact H4.
  - apply Nat.ltb_ge in H5. exact H5.
Qed.

(** X8. In the routes of the profiled pages, a page gets [fast-parse] only
    when it is clean on its own measurements (readability at least 60, low
    noise, garbage score below 0.15, at least 50 characters); a page needs
    OCR exactly when it is not empty and is degraded after the propagation;
    an empty page is skipped. *)
Theorem routes_of_profiled_pages :
  forall (pages : list Page.t),
    Forall2 (fun pg r =>
               Router.page r = Page.page_number pg
               /\ (Page.empty pg = true -> pr_method r = "skip")
               /\ (pr_method r = "fast-parse" -> cleanMeasurements (Page.text pg))
               /\ (needs_ocr r = true ->
                   Page.empty pg = false
                   /\ (pr_method r = "ocr-standard" \/ pr_method r = "ocr-enhanced")))
            pages (routePages (profilePages pages)).
Proof.
  intro pages. unfold routePages.
  assert (H : Forall2 profiled pages (profilePages pages)).
  { unfold profilePages, propagate. destruct (propagates _);
      [apply propagated_profiled|apply plain_profiled]. }
  induction H as [|pg p pgs ps Hp _ IH]; [constructor|].
  cbn [map]. constructor; [|exact IH].
  destruct Hp as [[Hn [_ [_ [_ [_ [_ He]]]]]] [Hd _]].
  cbn [profilePage PageProfile.page_number PageProfile.empty] in Hn, He.
  unfold routePage. rewrite <- He, <- Hn.
  destruct (Page.empty pg); cbn [page pr_method needs_ocr].
  - split; [reflexivity|]. split; [reflexivity|].
    split; intro X; discriminate X.
  - destruct (PageProfile.is_degraded p) eqn:Ed; cbn [negb].
    + destruct (40 <=? _)%Z; cbn [page pr_method needs_ocr];
        (split; [reflexivity|]; split; [intro X; discriminate X|];
         split; [intro X; discriminate X|]);
        intros _; split; auto.
    + cbn [page pr_method needs_ocr].
      split; [reflexivity|]. split; [intro X; discriminate X|].
      split; [|intro X; discriminate X].
      intros _. apply clean_profile.
      destruct (PageProfile.is_degraded (profilePage pg)); [|reflexivity].
      discriminate (Hd eq_refl).
Qed.

End ProfilingProps.

(** ** The document profile and its route *)

Module DocumentProps.
Import Profiler Profiling Router.

Lemma filter_disjoint_length {T} (p q : T -> bool) (l : list T) :
  (forall x, p x && q x = false) ->
  (List.length (filter p l) + List.length (filter q l) <= List.length l)%nat.
Proof.
  intro H. induction l as [|x l IH]; [reflexivity|].
  simpl. specialize (H x). destruct (p x), (q x); simpl in *; try discriminate; lia.
Qed.

Lemma filter_cover_length {T} (p q : T -> bool) (l : list T) :
  (forall x, p x && q x = false) ->
  Forall (fun x => p x || q x = true) l ->
  (List.length (filter p l) + List.length (filter q l) = List.length l)%nat.
Proof.
  intros H Hall. induction Hall as [|x l Hx _ IH]; [reflexivity|].
  simpl. specialize (H x). destruct (p x), (q x); simpl in *; try discriminate; lia.
Qed.

(** X9. In a document profile the degraded and the clean pages are disjoint
    parts of the pages: their counts add up to at most the page count, and
    to exactly the page count when every empty page is degraded. The
    document has a text layer exactly when it has a clean page, and is of
    mixed quality exactly when it has both a degraded and a clean page. *)
Theorem aggregate_counts :
  forall (pageProfiles : list PageProfile.t) (filePath : string),
    let d := aggregatePageProfiles pageProfiles filePath in
    DocumentProfile.page_count d = List.length pageProfiles
    /\ (DocumentProfile.degraded_count d + DocumentProfile.clean_count d
        <= DocumentProfile.page_count d)%nat
    /\ List.length (DocumentProfile.degraded_pages d) = DocumentProfile.degraded_count d
    /\ (DocumentProfile.has_text_layer d = true
        <-> (0 < DocumentProfile.clean_count d)%nat)
    /\ (DocumentProfile.is_mixed_quality d = true
        <-> (0 < DocumentProfile.degraded_count d)%nat
            /\ (0 < DocumentProfile.clean_count d)%nat)
    /\ (Forall (fun p => PageProfile.empty p = true
                         -> PageProfile.is_degraded p = true) pageProfiles ->
        (DocumentProfile.degraded_count d + DocumentProfile.clean_count d
         = DocumentProfile.page_count d)%nat).
Proof.
  intros ps f. cbv zeta. destruct ps as [|p0 ps0].
  - simpl. split; [reflexivity|]. split; [lia|]. split; [reflexivity|].
    split; [split; [discriminate|lia]|].
    split; [split; [discriminate|lia]|reflexivity].
  - unfold aggregatePageProfiles. cbv beta iota zeta.
    generalize (p0 :: ps0). intro ps.
    cbn [DocumentProfile.page_count DocumentProfile.degraded_count
         DocumentProfile.clean_count DocumentProfile.degraded_pages
         DocumentProfile.has_text_layer DocumentProfile.is_mixed_quality].
    split; [reflexivity|]. split.
    { apply filter_disjoint_length. intro x.
      destruct (PageProfile.is_degraded x); reflexivity. }
    split; [apply length_map|]. split; [apply Nat.ltb_lt|]. split.
    { rewrite andb_true_iff, !Nat.ltb_lt. reflexivity. }
    intro Hall. apply filter_cover_length.
    + intro x. destruct (PageProfile.is_degraded x); reflexivity.
    + eapply Forall_impl; [|exact Hall]. intros x Hx. cbv beta in *.
      destruct (PageProfile.is_degraded x); [reflexivity|].
      destruct (PageProfile.empty x); [discriminate (Hx eq_refl)|reflexivity].
Qed.

Lemma existsb_noise (n : noise) (l : list noise) :
  existsb (noise_eqb n) l = true <-> In n l.
Proof.
  rewrite existsb_exists. split.
  - intros [x [Hx E]]. destruct n, x; simpl in E; try discriminate; exact Hx.
  - intro H. exists n. split; [exact H|destruct n; reflexivity].
Qed.

(** X10. The noise level of a document with at least one page is the worst
    noise level of its pages: high when some page is high, medium when none
    is high and some is medium, low when every page is low. *)
Theorem aggregate_noise_is_the_worst :
  forall (pageProfiles : list PageProfile.t) (filePath : string),
    pageProfiles <> [] ->
    let d := aggregatePageProfiles pageProfiles filePath in
    let levels := map PageProfile.noise_level pageProfiles in
    (DocumentProfile.noise_level d = high <-> In high levels)
    /\ (DocumentProfile.noise_level d = medium
        <-> ~ In high levels /\ In medium levels)
    /\ (DocumentProfile.noise_level d = low
        <-> Forall (fun n => n = low) levels).
Proof.
  intros ps f Hne. cbv zeta. destruct ps as [|p0 ps0]; [contradiction|].
  unfold aggregatePageProfiles. cbv beta iota zeta.
  generalize (p0 :: ps0). intro ps. cbn [DocumentProfile.noise_level].
  unfold worstNoise.
  destruct (existsb (noise_eqb high) _) eqn:Eh.
  - apply existsb_noise in Eh. split; [tauto|]. split.
    + split; [discriminate|tauto].
    + split; [discriminate|]. intro H. rewrite Forall_forall in H.
      discriminate (H _ Eh).
  - assert (Hh : ~ In high (map PageProfile.noise_level ps)).
    { intro H. apply existsb_noise in H. congruence. }
    destruct (existsb (noise_eqb medium) _) eqn:Em.
    + apply existsb_noise in Em. split; [split; [discriminate|tauto]|].
      split; [tauto|]. split; [discriminate|]. intro H. rewrite Forall_forall in H.
      discriminate (H _ Em).
    + assert (Hm : ~ In medium (map PageProfile.noise_level ps)).
      { intro H. apply existsb_noise in H. congruence. }
      split; [split; [discriminate|tauto]|].
      split; [split; [discriminate|tauto]|].
      split; [|reflexivity]. intros _. apply Forall_forall. intros n Hn.
      destruct n; [reflexivity|contradiction..].
Qed.

Lemma dedup_NoDup (seen l : list string) :
  NoDup (Classifier.dedup seen l)
  /\ forall x, In x (Classifier.dedup seen l) -> ~ In x seen.
Proof.
  revert seen. induction l as [|y l IH]; intro seen.
  - split; [constructor|intros x []].
  - simpl. destruct (Classifier.mem y seen) eqn:E.
    + apply IH.
    + destruct (IH (y :: seen)) as [Hnd Hnot]. split.
      * constructor; [|exact Hnd]. intro H. apply (Hnot _ H). left. reflexivity.
      * intros x [<-|H].
        -- intro Hin. apply Util.mem_In in Hin. congruence.
        -- intro Hin. apply (Hnot _ H). right. exact Hin.
Qed.

(** X11. [route] decides by the readability thresholds of the tiers: for a
    profile whose tier is the one of its readability score, the method is
    [manual-review] exactly for tier F and [fast-parse] exactly for a text
    layer with tier A or B; the engine is [tesseract] exactly for the two
    OCR methods; and no preprocessing step is listed twice. *)
Theorem route_follows_the_tier :
  forall (profile : Profile),
    quality_tier profile = getQualityTier (readability_score profile) ->
    let r := route profile in
    (method r = "manual-review" <-> quality_tier profile = F)
    /\ (method r = "fast-parse"
        <-> has_text_layer profile = true
            /\ (quality_tier profile = A \/ quality_tier profile = B))
    /\ (engine r = "tesseract"
        <-> method r = "ocr-standard" \/ method r = "ocr-enhanced")
    /\ NoDup (preprocessing r).
Proof.
  intros profile Ht. cbv zeta. unfold route. rewrite Ht. unfold getQualityTier.
  destruct (has_text_layer profile);
    destruct (Z.leb_spec 80 (readability_score profile));
    destruct (Z.leb_spec 60 (readability_score profile));
    destruct (Z.leb_spec 40 (readability_score profile));
    destruct (Z.leb_spec 20 (readability_score profile));
    try lia; cbn [andb method engine preprocessing];
    repeat split; try apply dedup_NoDup;
    try (intros; intuition (try discriminate; try reflexivity; auto)).
Qed.

Lemma aggregate_noise_witness :
  DocumentProfile.noise_level (aggregatePageProfiles Samples.twoProfiles "/in/a.pdf")
  = medium
  <-> ~ In high (map PageProfile.noise_level Samples.twoProfiles)
      /\ In medium (map PageProfile.noise_level Samples.twoProfiles).
Proof.
  destruct (aggregate_noise_is_the_worst Samples.twoProfiles "/in/a.pdf")
    as [_ [H _]].
  - discriminate.
  - exact H.
Defined.

Lemma route_witness :
  (method (route Samples.scannedProfile) = "manual-review"
   <-> quality_tier Samples.scannedProfile = F)
  /\ (method (route Samples.scannedProfile) = "fast-parse"
      <-> has_text_layer Samples.scannedProfile = true
          /\ (quality_tier Samples.scannedProfile = A
              \/ quality_tier Samples.scannedProfile = B))
  /\ (engine (route Samples.scannedProfile) = "tesseract"
      <-> method (route Samples.scannedProfile) = "ocr-standard"
          \/ method (route Samples.scannedProfile) = "ocr-enhanced")
  /\ NoDup (preprocessing (route Samples.scannedProfile)).
Proof.
  apply (route_follows_the_tier Samples.scannedProfile). reflexivity.
Defined.

End DocumentProps.

(** ** The classification *)

Module ClassifyProps.
Import Classifier ClassifierInv.

Lemma scoreRule_unit (rule : Rule) (cleanedText heading tail : jsstring) (s : Score) :
  In rule rules -> scoreRule rule cleanedText heading tail = Some s -> unit (sconfidence s).
Proof.
  intros Hin Hs.
  destruct (ClassifierFacts.scoreRule_hundredths rule cleanedText heading tail s Hin Hs)
    as [H0 [H1 _]].
  split; assumption.
Qed.

Lemma disambiguate_unit (cleanedText heading : jsstring) (s : Score) :
  unit (sconfidence s) -> unit (sconfidence (disambiguate cleanedText heading s)).
Proof.
  intros [H0 H1]. unfold disambiguate.
  destruct (lookupDisambiguation _); [|split; assumption].
  destruct (hasStructuralInHeading _ _); [split; assumption|].
  destruct (_ && _).
  - cbn [setConfidence sconfidence].
    destruct (F64Facts.scaled_in_unit (sconfidence s) (F64.lit (3 # 10)) H0 H1)
      as [P0 P1]; [rewrite F64Facts.lit_03; discriminate..|].
    apply F64Facts.round2_in_unit; assumption.
  - destruct (_ && _); [|split; assumption].
    cbn [setConfidence sconfidence].
    destruct (F64Facts.scaled_in_unit (sconfidence s) (F64.lit (7 # 10)) H0 H1)
      as [P0 P1]; [rewrite F64Facts.lit_07; discriminate..|].
    apply F64Facts.round2_in_unit; assumption.
Qed.

Lemma specificity_unit (s : Score) :
  unit (sconfidence s) -> unit (sconfidence (specificity s)).
Proof.
  intros [H0 H1]. unfold specificity. destruct (mem _ _); [|split; assumption].
  cbn [setConfidence sconfidence]. apply F64Facts.round2_in_unit.
  - apply Util.Qmin_glb; [discriminate|].
    unfold F64.add, F64.lit. apply F64Facts.rnd_nonneg. apply Util.Qplus_ge_0.
    + apply F64Facts.rnd_nonneg. exact H0.
    + apply F64Facts.rnd_nonneg. discriminate.
  - apply Util.Qmin_le_l.
Qed.

Lemma insertDesc_In (x y : Score) (l : list Score) :
  In y (insertDesc x l) <-> y = x \/ In y l.
Proof.
  induction l as [|z l IH]; simpl; [intuition congruence|].
  destruct (Qgtb _ _); simpl; [rewrite IH|]; intuition congruence.
Qed.

Lemma sortDesc_In (y : Score) (l : list Score) : In y (sortDesc l) <-> In y l.
Proof.
  induction l as [|z l IH]; simpl; [tauto|].
  rewrite insertDesc_In, IH. intuition congruence.
Qed.

Lemma insertDesc_sorted (x : Score) (l : list Score) :
  StronglySorted descending l -> StronglySorted descending (insertDesc x l).
Proof.
  induction 1 as [|y l Hs IH Hall]; simpl.
  - constructor; constructor.
  - destruct (Qgtb (sconfidence y) (sconfidence x)) eqn:E.
    + constructor; [exact IH|]. apply Forall_forall. intros z Hz.
      apply (proj1 (insertDesc_In _ _ _)) in Hz as [->|Hz].
      * unfold descending. apply Qlt_le_weak. apply Util.Qltb_lt. exact E.
      * rewrite Forall_forall in Hall. apply Hall. exact Hz.
    + apply Util.Qltb_ge in E. constructor; [constructor; assumption|].
      constructor; [exact E|]. eapply Forall_impl; [|exact Hall].
      intros z Hz. unfold descending in *. eapply Qle_trans; eassumption.
Qed.

Lemma sortDesc_sorted (l : list Score) : StronglySorted descending (sortDesc l).
Proof.
  induction l as [|x l IH]; simpl; [constructor|].
  apply insertDesc_sorted. exact IH.
Qed.

Lemma somes_In {T} (x : T) (l : list (option T)) : In x (somes l) <-> In (Some x) l.
Proof.
  induction l as [|[y|] l IH]; simpl; [tauto| |].
  - rewrite IH. intuition congruence.
  - rewrite IH. intuition congruence.
Qed.

Lemma scoreText_unit (cleanedText : jsstring) (s : Score) :
  In s (scoreText cleanedText) -> unit (sconfidence s).
Proof.
  unfold scoreText. cbv zeta. intro H. apply (proj1 (sortDesc_In _ _)) in H.
  apply in_map_iff in H as [s1 [<- H]]. apply specificity_unit.
  apply in_map_iff in H as [s2 [<- H]]. apply disambiguate_unit.
  apply (proj1 (somes_In _ _)) in H. apply in_map_iff in H as [r [Hr Hin]].
  eapply scoreRule_unit; eassumption.
Qed.

Lemma scoreText_sorted (cleanedText : jsstring) :
  StronglySorted descending (scoreText cleanedText).
Proof. unfold scoreText. cbv zeta. apply sortDesc_sorted. Qed.

Lemma whitelist_valid (t : string) : mem (whitelist t) VALID_TYPES = true.
Proof.
  unfold whitelist. destruct (mem t VALID_TYPES) eqn:E; [exact E|reflexivity].
Qed.

(** X12. Whatever the text, the primary type of a classification, and the
    secondary type when there is one, is a type of the whitelist; a text of
    fewer than 50 characters after trimming is [unknown] with confidence 0
    and no indicators. *)
Theorem classify_types_are_whitelisted :
  forall (text : jsstring),
    mem (primary_type (classify text)) VALID_TYPES = true
    /\ (forall t, secondary_type (classify text) = Some t ->
                  mem t VALID_TYPES = true)
    /\ ((List.length (trim text) < 50)%nat -> classify text = unknown).
Proof.
  intro text. unfold classify.
  destruct (Nat.ltb_spec (List.length (trim text)) 50) as [Hlt|Hge].
  - split; [reflexivity|]. split; [intros t X; discriminate X|reflexivity].
  - destruct (scoreText _) as [|s0 rest].
    + split; [reflexivity|]. split; [intros t X; discriminate X|lia].
    + cbn [primary_type secondary_type]. split; [apply whitelist_valid|].
      split; [|lia]. intros t.
      destruct rest as [|s1 rest']; [intro X; discriminate X|].
      destruct (Qltb _ _); [|intro X; discriminate X].
      cbn [option_map]. intro X. injection X as <-. apply whitelist_valid.
Qed.

(** X13. The confidence of a classification lies between 0 and 1. A
    secondary type is given only when the confidence of the primary type is
    below 0.8, and its confidence, also between 0 and 1, is not above the
    one of the primary type. *)
Theorem classify_confidence_bounds :
  forall (text : jsstring),
    unit (confidence (classify text))
    /\ (forall c2, secondary_confidence (classify text) = Some c2 ->
                   confidence (classify text) < 8 # 10
                   /\ unit c2 /\ c2 <= confidence (classify text)).
Proof.
  intro text. unfold classify.
  destruct (_ <? 50)%nat;
    [split; [split; discriminate|intros c2 X; discriminate X]|].
  destruct (scoreText _) as [|s0 rest] eqn:E;
    [split; [split; discriminate|intros c2 X; discriminate X]|].
  cbn [confidence secondary_confidence].
  assert (U : forall s, In s (s0 :: rest) -> unit (sconfidence s)).
  { intros s Hs. rewrite <- E in Hs. eapply scoreText_unit. exact Hs. }
  split; [apply U; left; reflexivity|].
  intros c2. destruct rest as [|s1 rest']; [intro X; discriminate X|].
  destruct (Qltb _ _) eqn:Elt; [|intro X; discriminate X].
  cbn [option_map]. intro X. injection X as <-.
  split; [apply Util.Qltb_lt; exact Elt|].
  split; [apply U; right; left; reflexivity|].
  pose proof (scoreText_sorted (stripPJeBlocks text)) as S.
  rewrite E in S. inversion S as [|x l _ Hall]; subst.
  inversion Hall as [|y l' Hy _]; subst. exact Hy.
Qed.

End ClassifyProps.

(** ** The segments *)

Module SegmentProps.
Import Segmenter SegmenterInv Coverage.

Lemma step_cases (c : option Classifier.Classification) (st : State) (pg : Page.t) :
  (currentSegment (step c st pg)
   = Some (newSegment (S (segmentCounter st)) pg
             (detectBoundaries (Page.text pg) (Page.page_number pg)) c)
   /\ segments (step c st pg) = close st
   /\ segmentCounter (step c st pg) = S (segmentCounter st))
  \/ (exists cur,
         currentSegment st = Some cur
         /\ currentSegment (step c st pg)
            = Some (Segment.set_page_end cur (Page.page_number pg))
         /\ segments (step c st pg) = segments st
         /\ segmentCounter (step c st pg) = segmentCounter st).
Proof.
  unfold step, close. destruct (currentSegment st) as [cur|].
  - destruct (isNewPiece _ _ _).
    + left. repeat split.
    + right. exists cur. destruct (hasBlank _); repeat split.
  - left. repeat split.
Qed.

Lemma close_step_new (st st' : State) (s : Segment.t) :
  currentSegment st' = Some s -> segments st' = close st ->
  close st' = close st ++ [s].
Proof. intros Hc Hs. unfold close at 1. rewrite Hc, Hs. reflexivity. Qed.

Lemma close_step_extend (st st' : State) (cur : Segment.t) (n : Z) :
  currentSegment st = Some cur ->
  currentSegment st' = Some (Segment.set_page_end cur n) ->
  segments st' = segments st ->
  close st = segments st ++ [cur]
  /\ close st' = segments st ++ [Segment.set_page_end cur n].
Proof. intros H1 H2 H3. unfold close. rewrite H1, H2, H3. split; reflexivity. Qed.

(** *** Identifiers *)

Lemma step_numbered (c : option Classifier.Classification) (st : State) (pg : Page.t) :
  numbered st -> numbered (step c st pg).
Proof.
  unfold numbered. intro H.
  destruct (step_cases c st pg) as [[Hc [Hs Hn]]|[cur [H1 [H2 [H3 Hn]]]]].
  - rewrite (close_step_new st _ _ Hc Hs), Hn, map_app, H.
    rewrite seq_S, map_app. reflexivity.
  - destruct (close_step_extend st _ cur _ H1 H2 H3) as [E1 E2].
    rewrite E2, Hn, <- H, E1, !map_app. reflexivity.
Qed.

Lemma run_numbered (c : option Classifier.Classification) (pages : list Page.t)
      (st : State) :
  numbered st -> numbered (fold_left (step c) pages st).
Proof.
  revert st. induction pages as [|p ps IH]; intros st H; [exact H|].
  cbn [fold_left]. apply IH. apply step_numbered. exact H.
Qed.

Lemma pad3_inj (n m : nat) : pad3 n = pad3 m -> n = m.
Proof.
  unfold pad3. intro H. apply (f_equal list_ascii_of_string) in H.
  rewrite !list_ascii_of_string_of_list_ascii in H.
  apply (f_equal (fun l => ExporterSpec.valueRev (rev l))) in H.
  rewrite !ExporterFacts.padStart3_value in H. exact H.
Qed.

Lemma segmentId_inj (n m : nat) : segmentId n = segmentId m -> n = m.
Proof.
  unfold segmentId. intro H. apply pad3_inj.
  change (String.append "seg-" (pad3 n)) with
    (String "s" (String "e" (String "g" (String "-" (pad3 n))))) in H.
  change (String.append "seg-" (pad3 m)) with
    (String "s" (String "e" (String "g" (String "-" (pad3 m))))) in H.
  congruence.
Qed.

Lemma NoDup_map_inj {S T} (f : S -> T) (l : list S) :
  (forall x y, f x = f y -> x = y) -> NoDup l -> NoDup (map f l).
Proof.
  intros Hf H. induction H as [|x l Hx _ IH]; [constructor|].
  simpl. constructor; [|exact IH]. intro Hin.
  apply in_map_iff in Hin as [y [Hy Hin]]. apply Hf in Hy. subst y. exact (Hx Hin).
Qed.

Lemma step_length (c : option Classifier.Classification) (st : State) (pg : Page.t) :
  (List.length (close st) <= List.length (close (step c st pg))
   <= S (List.length (close st)))%nat
  /\ (1 <= List.length (close (step c st pg)))%nat.
Proof.
  destruct (step_cases c st pg) as [[Hc [Hs Hn]]|[cur [H1 [H2 [H3 Hn]]]]].
  - rewrite (close_step_new st _ _ Hc Hs), length_app. simpl. lia.
  - destruct (close_step_extend st _ cur _ H1 H2 H3) as [E1 E2].
    rewrite E1, E2, !length_app. simpl. lia.
Qed.

Lemma run_length (c : option Classifier.Classification) (pages : list Page.t)
      (st : State) :
  (List.length (close (fold_left (step c) pages st))
   <= List.length (close st) + List.length pages)%nat
  /\ (pages <> [] -> 1 <= List.length (close (fold_left (step c) pages st)))%nat.
Proof.
  revert st. induction pages as [|p ps IH]; intro st.
  - simpl. split; [lia|congruence].
  - cbn [fold_left]. destruct (IH (step c st p)) as [Hle Hge].
    pose proof (step_length c st p) as [Hs H1]. split; [simpl; lia|].
    intros _. destruct ps as [|q qs]; [exact H1|]. apply Hge. discriminate.
Qed.

(** X14. The segments of a document are numbered in order: the segment at
    position i (from 1) has the identifier [seg-] followed by i padded to
    three digits, so the identifiers are pairwise distinct. There is at
    least one segment when there is a page, and never more than one per
    page. *)
Theorem segment_ids_are_sequential :
  forall (pages : list Page.t) (c : option Classifier.Classification),
    map Segment.segment_id (segment pages c)
    = map segmentId (seq 1 (List.length (segment pages c)))
    /\ NoDup (map Segment.segment_id (segment pages c))
    /\ (List.length (segment pages c) <= List.length pages)%nat
    /\ (pages <> [] -> 1 <= List.length (segment pages c))%nat.
Proof.
  intros pages c.
  assert (H : map Segment.segment_id (segment pages c)
              = map segmentId (seq 1 (List.length (segment pages c)))).
  { rewrite SegmenterFacts.segment_length. apply (run_numbered c pages init).
    reflexivity. }
  split; [exact H|]. split.
  - rewrite H. apply NoDup_map_inj; [apply segmentId_inj|apply seq_NoDup].
  - apply (run_length c pages init).
Qed.

End SegmentProps.

(** ** The segments cover the pages *)

Module CoverageProps.
Import Segmenter SegmenterInv Coverage QC.

Lemma tiles_snoc (a : Z) (l : list (Z * Z)) (s e b : Z) :
  tiles a (l ++ [(s, e)]) b <-> tiles a l (s - 1) /\ (s <= e)%Z /\ b = e.
Proof.
  revert a. induction l as [|[s0 e0] l IH]; intro a; cbn [app tiles].
  - split; [intros [H1 [H2 H3]]|intros [H1 [H2 H3]]]; repeat split; lia.
  - rewrite IH. tauto.
Qed.

Lemma tiles_range (a : Z) (l : list (Z * Z)) (b : Z) : tiles a l b -> (a - 1 <= b)%Z.
Proof.
  revert a. induction l as [|[s e] l IH]; intro a; cbn [tiles].
  - lia.
  - intros [H1 [H2 H3]]. apply IH in H3. lia.
Qed.

Lemma span_set_page_end (cur : Segment.t) (n : Z) :
  span (Segment.set_page_end cur n) = (Segment.page_start cur, n).
Proof. reflexivity. Qed.

Lemma step_tiled (c : option Classifier.Classification) (st : State) (pg : Page.t)
      (k : Z) :
  tiled st k -> Page.page_number pg = (k + 1)%Z -> tiled (step c st pg) (k + 1).
Proof.
  intros H Hn. unfold tiled in *.
  destruct (SegmentProps.step_cases c st pg) as [[Hc [Hs _]]|[cur [H1 [H2 [H3 _]]]]].
  - rewrite Hc. rewrite (SegmentProps.close_step_new st _ _ Hc Hs).
    rewrite map_app. cbn [map]. unfold span at 2. cbn [newSegment Segment.page_start Segment.page_end].
    rewrite Hn. apply tiles_snoc. split; [|lia].
    replace (k + 1 - 1)%Z with k by lia.
    unfold close in *. destruct (currentSegment st).
    + exact H.
    + destruct H as [-> ->]. reflexivity.
  - rewrite H2. rewrite H1 in H.
    destruct (SegmentProps.close_step_extend st _ cur _ H1 H2 H3) as [E1 E2].
    rewrite E1, map_app in H. cbn [map] in H. unfold span at 2 in H.
    apply tiles_snoc in H as [Ht [Hle Hk]].
    rewrite E2, map_app. cbn [map]. rewrite span_set_page_end.
    apply tiles_snoc. split; [exact Ht|]. lia.
Qed.

Lemma run_tiled (c : option Classifier.Classification) (pages : list Page.t)
      (st : State) (k : Z) :
  tiled st k -> numberedFrom (k + 1) pages ->
  tiled (fold_left (step c) pages st) (k + Z.of_nat (List.length pages)).
Proof.
  revert st k. induction pages as [|p ps IH]; intros st k H Hn.
  - simpl. rewrite Z.add_0_r. exact H.
  - cbn [fold_left]. destruct Hn as [Hp Hn].
    replace (k + Z.of_nat (List.length (p :: ps)))%Z
      with ((k + 1) + Z.of_nat (List.length ps))%Z
      by (cbn [List.length]; lia).
    apply IH; [apply step_tiled; assumption|exact Hn].
Qed.

Lemma segment_tiles (pages : list Page.t) (c : option Classifier.Classification) :
  numberedFrom 1 pages ->
  tiles 1 (map span (segment pages c)) (Z.of_nat (List.length pages)).
Proof.
  intro Hn. pose proof (run_tiled c pages init 0) as H.
  cbn [Z.add] in H. specialize (H (conj eq_refl eq_refl) Hn).
  unfold tiled in H. unfold segment.
  destruct (currentSegment (fold_left (step c) pages init)) eqn:E.
  - exact H.
  - destruct H as [Hs Hk]. unfold close. rewrite E, Hs. simpl. lia.
Qed.

(** *** Pages covered by a tiling *)

Lemma range_In (a b p : Z) : In p (range a b) <-> (a <= p <= b)%Z.
Proof.
  unfold range. rewrite in_map_iff. split.
  - intros [k [<- Hk]]. apply in_seq in Hk. lia.
  - intro H. exists (Z.to_nat (p - a)). split; [lia|]. apply in_seq. lia.
Qed.

Lemma range_NoDup (a b : Z) : NoDup (range a b).
Proof.
  unfold range. apply SegmentProps.NoDup_map_inj; [|apply seq_NoDup].
  intros x y H. lia.
Qed.

Lemma memZ_In (p : Z) (l : list Z) : memZ p l = true <-> In p l.
Proof.
  unfold memZ. rewrite existsb_exists. split.
  - intros [x [Hx E]]. apply Z.eqb_eq in E. subst. exact Hx.
  - intro H. exists p. split; [exact H|apply Z.eqb_refl].
Qed.

Lemma filter_nil {T} (f : T -> bool) (l : list T) :
  (forall x, In x l -> f x = false) -> filter f l = [].
Proof.
  induction l as [|x l IH]; intro H; [reflexivity|].
  simpl. rewrite (H x (or_introl eq_refl)). apply IH.
  intros y Hy. apply H. right. exact Hy.
Qed.

Lemma tiles_cover (a : Z) (l : list (Z * Z)) (b p : Z) :
  tiles a l b -> (a <= p <= b)%Z ->
  In p (flat_map (fun se => range (fst se) (snd se)) l).
Proof.
  revert a. induction l as [|[s e] l IH]; intros a; cbn [tiles flat_map fst snd].
  - lia.
  - intros [H1 [H2 H3]] Hp. apply in_or_app.
    destruct (Z_le_gt_dec p e) as [Hle|Hgt].
    + left. apply range_In. lia.
    + right. apply (IH (e + 1)%Z); [exact H3|]. lia.
Qed.

(** The inner loop of the page ranges over fresh pages reports nothing. *)
Lemma cover_fresh (f : IndexFile) (l : list Z) (issues : list Issue) (covered : list Z) :
  NoDup l -> (forall p, In p l -> ~ In p covered) ->
  fold_left (fun a p =>
               let '(issues, covered) := a in
               ((if memZ p covered then issues ++ [overlapIssue p f] else issues),
                p :: covered)) l (issues, covered)
  = (issues, rev l ++ covered).
Proof.
  revert covered. induction l as [|p l IH]; intros covered Hnd Hfresh; [reflexivity|].
  cbn [fold_left]. inversion Hnd as [|x l' Hp Hnd']; subst.
  destruct (memZ p covered) eqn:E.
  - apply memZ_In in E. exfalso. exact (Hfresh p (or_introl eq_refl) E).
  - rewrite IH; [cbn [rev]; rewrite <- app_assoc; reflexivity|exact Hnd'|].
    intros q Hq [<-|Hc]; [exact (Hp Hq)|].
    exact (Hfresh q (or_intror Hq) Hc).
Qed.

Lemma cover_tiles (files : list IndexFile) (a b : Z) (issues : list Issue)
      (covered : list Z) :
  tiles a (map (fun f => (start f, end_ f)) files) b ->
  (forall p, In p covered -> (p < a)%Z) ->
  exists covered',
    fold_left coverFile files (issues, covered) = (issues, covered')
    /\ (forall p, (a <= p <= b)%Z -> In p covered')
    /\ (forall p, In p covered -> In p covered').
Proof.
  revert a issues covered. induction files as [|f fs IH]; intros a issues covered Ht Hc.
  - exists covered. cbn [tiles map] in Ht. repeat split; [lia|auto].
  - cbn [map tiles] in Ht. destruct Ht as [Hs [Hle Ht]].
    cbn [fold_left]. unfold coverFile at 2.
    rewrite cover_fresh; [|apply range_NoDup|].
    + destruct (IH (end_ f + 1)%Z issues (rev (range (start f) (end_ f)) ++ covered) Ht)
        as [covered' [E [Hin Hold]]].
      * intros p Hp. apply in_app_or in Hp as [Hp|Hp].
        -- apply in_rev in Hp. apply range_In in Hp. lia.
        -- apply Hc in Hp. lia.
      * exists covered'. split; [exact E|]. split.
        -- intros p Hp. destruct (Z_le_gt_dec p (end_ f)).
           ++ apply Hold. apply in_or_app. left. apply -> in_rev.
              apply range_In. lia.
           ++ apply Hin. lia.
        -- intros p Hp. apply Hold. apply in_or_app. right. exact Hp.
    + intros p Hp Hcov. apply range_In in Hp. apply Hc in Hcov. lia.
Qed.

Lemma indexFiles_spans (segments : list Segment.t) :
  map (fun f => (start f, end_ f)) (indexFiles segments) = map span segments.
Proof.
  unfold indexFiles, Exporter.exportNames. generalize 0%nat.
  induction segments as [|s rest IH]; intro i; [reflexivity|].
  cbn [Exporter.namesFrom combine map]. rewrite IH. reflexivity.
Qed.

Lemma segment_no_orphans (pages : list Page.t)
      (c : option Classifier.Classification) :
  numberedFrom 1 pages ->
  validateCoverage (segment pages c) (List.length pages) = [].
Proof.
  intro Hn. pose proof (segment_tiles pages c Hn) as Ht.
  unfold validateCoverage. apply filter_nil. intros p Hp.
  apply range_In in Hp. apply negb_false_iff. apply memZ_In.
  unfold coveredPages.
  pose proof (tiles_cover 1 _ _ p Ht Hp) as H.
  rewrite flat_map_concat_map, map_map in H.
  rewrite flat_map_concat_map. exact H.
Qed.

(** X15. When the pages of a document are numbered 1, 2, 3, ..., its
    segments tile the pages: the first starts at page 1, each one starts
    right after the end of the one before, and the last ends at the last
    page. So [_validateCoverage] finds no orphan page, and the page ranges
    of the exported index pass [validatePageRanges] with no overlap and no
    gap. *)
Theorem segments_tile_the_pages :
  forall (pages : list Page.t) (c : option Classifier.Classification),
    numberedFrom 1 pages ->
    tiles 1 (map span (segment pages c)) (Z.of_nat (List.length pages))
    /\ validateCoverage (segment pages c) (List.length pages) = []
    /\ validatePageRanges (indexFiles (segment pages c)) (List.length pages) = [].
Proof.
  intros pages c Hn. pose proof (segment_tiles pages c Hn) as Ht.
  split; [exact Ht|]. split.
  - apply segment_no_orphans. exact Hn.
  - unfold validatePageRanges.
    destruct (cover_tiles (indexFiles (segment pages c)) 1
                (Z.of_nat (List.length pages)) [] [])
      as [covered' [E [Hin _]]].
    + rewrite indexFiles_spans. exact Ht.
    + intros p [].
    + rewrite E. cbn [app]. rewrite filter_nil; [reflexivity|].
      intros p Hp. apply range_In in Hp. apply negb_false_iff. apply memZ_In.
      apply Hin. exact Hp.
Qed.

Lemma segments_tile_witness :
  tiles 1 (map span (segment Samples.twoPages None))
        (Z.of_nat (List.length Samples.twoPages))
  /\ validateCoverage (segment Samples.twoPages None) (List.length Samples.twoPages) = []
  /\ validatePageRanges (indexFiles (segment Samples.twoPages None))
                        (List.length Samples.twoPages) = [].
Proof.
  apply (segments_tile_the_pages Samples.twoPages None).
  simpl. repeat split; reflexivity.
Defined.

End CoverageProps.

(** ** Types and confidence of the segments *)

Module SegmentShapeProps.
Import Segmenter SegmenterInv.

Lemma ruleToType_shape (r t d : string) :
  ruleToType r = Some (t, d) ->
  (t = "piece" /\ d <> "separator") \/ (t = "attachment" /\ d = "attachment")
  \/ (t = "separator" /\ d = "separator").
Proof.
  unfold ruleToType.
  repeat match goal with
         | |- context [if ?b then _ else _] => destruct b
         end;
    intro H; try discriminate H; injection H as <- <-;
    try (left; split; [reflexivity|discriminate]);
    try (right; left; split; reflexivity);
    right; right; split; reflexivity.
Qed.

Lemma inferSegmentType_shape (markers : list Marker.t)
      (c : option Classifier.Classification) :
  st_type (inferSegmentType markers c) = "piece"
  \/ st_type (inferSegmentType markers c) = "attachment"
  \/ (st_type (inferSegmentType markers c) = "separator"
      /\ st_doc_type (inferSegmentType markers c) = "separator").
Proof.
  unfold inferSegmentType. cbv zeta.
  destruct (sortMarkers markers) as [|m ms].
  - destruct (fallbackOk c); left; reflexivity.
  - destruct (ruleToType (Marker.rule m)) as [[t d]|] eqn:E.
    + apply ruleToType_shape in E.
      destruct E as [[-> Hd]|[[-> ->]|[-> ->]]].
      * destruct (_ && _); left; reflexivity.
      * destruct (_ && _); right; left; reflexivity.
      * cbn [String.eqb Ascii.eqb Bool.eqb andb]. right. right. split; reflexivity.
    + destruct (fallbackOk c); left; reflexivity.
Qed.

Lemma Qmax_spec (x y : Q) : x <= Qmax x y /\ y <= Qmax x y
                            /\ (Qmax x y = x \/ Qmax x y = y).
Proof.
  unfold Qmax. destruct (Qle_bool x y) eqn:E.
  - apply Qle_bool_iff in E. repeat split; [exact E|apply Qle_refl|right; reflexivity].
  - split; [apply Qle_refl|]. split; [|left; reflexivity].
    apply Qlt_le_weak. apply Util.Qltb_lt. unfold Qltb. rewrite E. reflexivity.
Qed.

Lemma maxWeight_from (markers : list Marker.t) (lo hi acc : Q) :
  Forall (fun m => Marker.weight m <= hi) markers -> lo <= acc -> acc <= hi ->
  lo <= fold_left (fun a m => Qmax a (Marker.weight m)) markers acc
  /\ fold_left (fun a m => Qmax a (Marker.weight m)) markers acc <= hi.
Proof.
  intro H. revert acc. induction H as [|m ms Hm _ IH]; intros acc H1 H2;
    [split; assumption|].
  cbn [fold_left]. destruct (Qmax_spec acc (Marker.weight m)) as [Ha [_ [E|E]]].
  - rewrite E. apply IH; assumption.
  - apply IH; [eapply Qle_trans; eassumption|rewrite E; exact Hm].
Qed.

Lemma maxWeight_bounds (markers : list Marker.t) (hi : Q) :
  5 # 10 <= hi -> Forall (fun m => Marker.weight m <= hi) markers ->
  5 # 10 <= maxWeight markers /\ maxWeight markers <= hi.
Proof.
  intros Hlo H. unfold maxWeight.
  apply maxWeight_from; [exact H|apply Qle_refl|exact Hlo].
Qed.

Lemma rule_weights : forallb (fun r => Qle_bool (weight r) (9 # 10)) boundaryRules = true.
Proof. vm_compute. reflexivity. Qed.

Lemma rule_markers_weights (f : BoundaryRule -> bool) (pageNumber : Z) :
  Forall (fun m => Marker.weight m <= 9 # 10)
         (flat_map (fun r =>
                      if f r
                      then [{| Marker.rule := name r; Marker.weight := weight r;
                               Marker.description := description r;
                               Marker.page := pageNumber |}]
                      else []) boundaryRules).
Proof.
  apply Forall_forall. intros m Hm. apply in_flat_map in Hm as [r [Hr Hm]].
  pose proof rule_weights as W. rewrite forallb_forall in W. specialize (W r Hr).
  apply Qle_bool_iff in W. destruct (f r); [|contradiction].
  destruct Hm as [<-|[]]. exact W.
Qed.

Lemma detectBoundaries_weights (pageText : jsstring) (pageNumber : Z) :
  Forall (fun m => Marker.weight m <= 9 # 10) (detectBoundaries pageText pageNumber).
Proof.
  unfold detectBoundaries. cbv zeta.
  destruct (_ <? 30)%nat.
  - apply Forall_app. split; [|constructor; [discriminate|constructor]].
    apply (rule_markers_weights
             (fun r => Re.test (flags_ r) (ReParse.re (pattern r))
                               (extractHeading (stripPJeBlocks pageText) 3))).
  - apply (rule_markers_weights
             (fun r => Re.test (flags_ r) (ReParse.re (pattern r))
                               (extractHeading (stripPJeBlocks pageText) 3))).
Qed.

Lemma newSegment_wellFormed (n : nat) (pg : Page.t)
      (c : option Classifier.Classification) :
  wellFormed (newSegment n pg (detectBoundaries (Page.text pg) (Page.page_number pg)) c).
Proof.
  unfold wellFormed, newSegment. cbv zeta.
  cbn [Segment.type Segment.doc_type Segment.confidence].
  split; [apply inferSegmentType_shape|].
  apply maxWeight_bounds; [discriminate|apply detectBoundaries_weights].
Qed.

Lemma step_wellFormed (c : option Classifier.Classification) (st : State) (pg : Page.t) :
  Forall wellFormed (close st) -> Forall wellFormed (close (step c st pg)).
Proof.
  intro H.
  destruct (SegmentProps.step_cases c st pg) as [[Hc [Hs _]]|[cur [H1 [H2 [H3 _]]]]].
  - rewrite (SegmentProps.close_step_new st _ _ Hc Hs).
    apply Forall_app. split; [exact H|]. constructor; [|constructor].
    apply newSegment_wellFormed.
  - destruct (SegmentProps.close_step_extend st _ cur _ H1 H2 H3) as [E1 E2].
    rewrite E1 in H. apply Forall_app in H as [Hs Hcur]. rewrite E2.
    apply Forall_app. split; [exact Hs|]. constructor; [|constructor].
    inversion Hcur; subst. assumption.
Qed.

(** X16. Every segment of the segmenter has the type [piece], [attachment]
    or [separator] (never [exhibit] or [cover]), a separator has the
    [doc_type] [separator], and the confidence of a segment lies between
    0.5 and 0.9. *)
Theorem segments_are_well_formed :
  forall (pages : list Page.t) (c : option Classifier.Classification),
    Forall wellFormed (segment pages c).
Proof.
  intros pages c. unfold segment.
  assert (G : forall st, Forall wellFormed (close st) ->
                         Forall wellFormed (close (fold_left (step c) pages st))).
  { induction pages as [|p ps IH]; intros st H; [exact H|].
    cbn [fold_left]. apply IH. apply step_wellFormed. exact H. }
  apply G. constructor.
Qed.

End SegmentShapeProps.

(** ** Stage 5.6 *)

Module L2Props.
Import Classifier L2 L2Inv.

Lemma Qmax_ge_l (x y : Q) : x <= Qmax x y.
Proof. apply SegmentShapeProps.Qmax_spec. Qed.

Lemma newConfidence_unit (x : Q) : 0 <= Qmin 1 (Qmax 0 x) /\ Qmin 1 (Qmax 0 x) <= 1.
Proof.
  split; [|apply Util.Qmin_le_l].
  apply Util.Qmin_glb; [discriminate|apply Qmax_ge_l].
Qed.

Lemma update_revised (pdf : option Classification) (seg : Segment.t)
      (docType : string) (conf : Q) (inds : option (list string))
      (prev : option string) (boost : Q) (reasons : list string) :
  (docType <> Segment.doc_type seg -> prev = Some (Segment.doc_type seg)) ->
  (eefOverride pdf (Segment.doc_type seg) = false -> 0 <= conf /\ conf <= 1) ->
  revised pdf seg (update seg docType conf inds prev boost reasons).
Proof.
  intros Hp Hc. unfold revised, update.
  cbn [Segment.classification_source Segment.cascade_level Segment.doc_type
       Segment.l2_previous_type Segment.classification_confidence].
  split; [reflexivity|]. split; [reflexivity|]. split; [exact Hp|].
  exists conf. split; [reflexivity|exact Hc].
Qed.

Lemma reclassify_step (pages : list Page.t) (pdf : option Classification)
      (st : State) (seg : Segment.t) :
  sameFrame seg (fst (reclassify pages pdf st seg))
  /\ (fst (reclassify pages pdf st seg) = seg
      \/ revised pdf seg (fst (reclassify pages pdf st seg))).
Proof.
  unfold reclassify. cbv zeta.
  destruct (_ || _); [split; [repeat split|left; reflexivity]|].
  destruct (eefOverride pdf (Segment.doc_type seg)) eqn:Eo.
  - cbn [fst]. split; [repeat split|]. right. apply update_revised.
    + intros _. reflexivity.
    + intro X. rewrite Eo in X. discriminate X.
  - destruct (Qeq_bool _ 0); [split; [repeat split|left; reflexivity]|].
    match goal with
    | |- context [update seg (Segment.doc_type seg) ?c ?i ?p ?b ?r] =>
      assert (K : revised pdf seg (update seg (Segment.doc_type seg) c i p b r))
        by (apply update_revised;
            [intro X; contradiction X; reflexivity
            |intros _; apply newConfidence_unit])
    end.
    destruct (_ && _); [|split; [repeat split|right; exact K]].
    destruct (50 <=? _)%nat; [|split; [repeat split|right; exact K]].
    destruct (secondary_type _) as [secType|]; [|split; [repeat split|right; exact K]].
    destruct (secondary_confidence _) as [secConf|];
      [|split; [repeat split|right; exact K]].
    destruct (negb _ && negb _ && Qgtb _ _) eqn:Eb;
      [|split; [repeat split|right; exact K]].
    cbn [fst]. split; [repeat split|]. right. apply update_revised.
    + intros _. reflexivity.
    + intros _. apply andb_true_iff in Eb as [_ Eg].
      apply Util.Qltb_lt in Eg. split.
      * apply Qlt_le_weak. eapply Qle_lt_trans; [|exact Eg].
        apply newConfidence_unit.
      * unfold boostedSecondary. cbv zeta. apply Util.Qmin_le_l.
Qed.

Lemma l2_run (pages : list Page.t) (pdf : option Classification)
      (segments : list Segment.t) :
  forall (st : State) (out : list Segment.t),
  exists out',
    snd (fold_left (step pages pdf) segments (st, out)) = out ++ out'
    /\ Forall2 (l2Step pdf) segments out'.
Proof.
  induction segments as [|s rest IH]; intros st out.
  - exists []. simpl. rewrite app_nil_r. split; [reflexivity|constructor].
  - cbn [fold_left]. unfold step at 2.
    destruct (String.eqb (Segment.type s) "separator") eqn:Hsep.
    + destruct (IH st (out ++ [s])) as [out' [E F]].
      exists (s :: out'). rewrite E, <- app_assoc. split; [reflexivity|].
      constructor; [|exact F]. split; [repeat split|]. split; [reflexivity|].
      left. reflexivity.
    + pose proof (reclassify_step pages pdf st s) as [Hf Hr].
      destruct (reclassify pages pdf st s) as [seg' counted]. cbn [fst] in Hf, Hr.
      match goal with
      | |- context [fold_left _ rest (?st', _)] =>
        destruct (IH st' (out ++ [seg'])) as [out' [E F]]
      end.
      exists (seg' :: out'). rewrite E, <- app_assoc. split; [reflexivity|].
      constructor; [|exact F]. split; [exact Hf|].
      split; [intro X; rewrite Hsep in X; discriminate X|].
      destruct Hr as [->|Hr]; [left; reflexivity|right; exact Hr].
Qed.

(** X17. Stage 5.6 returns the segments in the same order and number, and
    never changes the identifier, the type, the page range, the segmentation
    confidence or the boundary markers of a segment; separators come back
    untouched. A segment that it does change is marked with the source
    [per-segment-L2] and cascade level 2, records the type before when the
    type has changed, and has a classification confidence between 0 and 1
    (unless the type of the PDF overrides [inicial-execfiscal]). *)
Theorem l2pass_keeps_the_segmentation :
  forall (pages : list Page.t) (pdf : option Classification)
         (segments : list Segment.t),
    Forall2 (l2Step pdf) segments (l2pass pages pdf segments).
Proof.
  intros pages pdf segments. unfold l2pass.
  destruct (l2_run pages pdf segments init []) as [out' [E F]].
  rewrite E. exact F.
Qed.

End L2Props.

(** ** Rotation retry and hybrid merge *)

Module ExtractorProps.
Import Profiler Extractor ExtractorInv Hybrid.

Lemma tryRotations_best (ocrRotated : nat -> Page.t) (rotations : list nat)
      (first : Page.t) (start : Q) :
  forall (best : Page.t) (g : Q),
    g = garbage best -> g <= start ->
    (best = first
     \/ exists d, best = ocrRotated d /\ usable (ocrRotated d)) ->
    let r := tryRotations ocrRotated rotations best g in
    snd r = garbage (fst r)
    /\ snd r <= g
    /\ (fst r = best
        \/ exists d, In d rotations /\ fst r = ocrRotated d /\ usable (ocrRotated d))
    /\ (snd r < 2 # 10
        \/ forall d, In d rotations -> usable (ocrRotated d) ->
                     snd r <= garbage (ocrRotated d)).
Proof.
  induction rotations as [|d rest IH]; intros best g Hg Hstart Hbest; cbv zeta.
  - cbn [tryRotations fst snd]. split; [exact Hg|]. split; [apply Qle_refl|].
    split; [left; reflexivity|]. right. intros d [].
  - cbn [tryRotations].
    assert (Skip : ~ usable (ocrRotated d) ->
                   let r := tryRotations ocrRotated rest best g in
                   snd r = garbage (fst r) /\ snd r <= g
                   /\ (fst r = best
                       \/ exists d0, In d0 (d :: rest) /\ fst r = ocrRotated d0
                                     /\ usable (ocrRotated d0))
                   /\ (snd r < 2 # 10
                       \/ forall d0, In d0 (d :: rest) -> usable (ocrRotated d0) ->
                                     snd r <= garbage (ocrRotated d0))).
    { intro Hnot. cbv zeta.
      destruct (IH best g Hg Hstart Hbest) as [H1 [H2 [H3 H4]]].
      split; [exact H1|]. split; [exact H2|]. split.
      - destruct H3 as [H3|[d0 [Hin H3]]]; [left; exact H3|].
        right. exists d0. split; [right; exact Hin|exact H3].
      - destruct H4 as [H4|H4]; [left; exact H4|]. right.
        intros d0 [<-|Hin] Hu; [contradiction|]. apply H4; assumption. }
    destruct (Page.text (ocrRotated d)) as [|c0 t0] eqn:Et.
    { apply Skip. intros [Hne _]. apply Hne. exact Et. }
    destruct (Page.empty (ocrRotated d)) eqn:Ee.
    { apply Skip. intros [_ He]. congruence. }
    assert (Hu : usable (ocrRotated d)).
    { split; [rewrite Et; discriminate|exact Ee]. }
    assert (Egd : detectWordLevelGarbage (c0 :: t0) = garbage (ocrRotated d)).
    { unfold garbage. rewrite Et. reflexivity. }
    rewrite Egd.
    destruct (Qltb (garbage (ocrRotated d)) g) eqn:El.
    + apply Util.Qltb_lt in El.
      destruct (Qltb (garbage (ocrRotated d)) (2 # 10)) eqn:E2.
      * apply Util.Qltb_lt in E2. cbn [fst snd].
        split; [reflexivity|]. split; [apply Qlt_le_weak; exact El|].
        split; [|left; exact E2].
        right. exists d. split; [left; reflexivity|]. split; [reflexivity|exact Hu].
      * apply Util.Qltb_ge in E2.
        destruct (IH (ocrRotated d) (garbage (ocrRotated d)) eq_refl
                     (Qle_trans _ _ _ (Qlt_le_weak _ _ El) Hstart)
                     (or_intror (ex_intro _ d (conj eq_refl Hu))))
          as [H1 [H2 [H3 H4]]].
        split; [exact H1|].
        split; [eapply Qle_trans; [exact H2|apply Qlt_le_weak; exact El]|].
        split.
        -- right. destruct H3 as [H3|[d0 [Hin H3]]].
           ++ exists d. split; [left; reflexivity|]. split; [exact H3|exact Hu].
           ++ exists d0. split; [right; exact Hin|exact H3].
        -- destruct H4 as [H4|H4]; [left; exact H4|]. right.
           intros d0 [<-|Hin] Hu0; [exact H2|]. apply H4; assumption.
    + apply Util.Qltb_ge in El.
      destruct (Qltb g (2 # 10)) eqn:E2.
      * apply Util.Qltb_lt in E2. cbn [fst snd].
        split; [exact Hg|]. split; [apply Qle_refl|].
        split; [left; reflexivity|left; exact E2].
      * destruct (IH best g Hg Hstart Hbest) as [H1 [H2 [H3 H4]]].
        split; [exact H1|]. split; [exact H2|]. split.
        -- destruct H3 as [H3|[d0 [Hin H3]]]; [left; exact H3|].
           right. exists d0. split; [right; exact Hin|exact H3].
        -- destruct H4 as [H4|H4]; [left; exact H4|]. right.
           intros d0 [<-|Hin] Hu0; [eapply Qle_trans; eassumption|].
           apply H4; assumption.
Qed.

(** X18. The rotation retry never makes a page worse: the text it returns
    is the one of the first OCR result or of a usable rotated result, and
    its garbage score is not above the score of the first result. When the
    retry runs (a first result that is not empty, has 30 characters or more
    and scores 0.4 or more), the page carries the rounded score of its own
    text, which is below 0.2 or not above the score of any usable
    rotation. *)
Theorem retry_keeps_the_best_rotation :
  forall (result : Page.t) (ocrRotated : nat -> Page.t),
    let r := ocrSinglePageWithRetry result ocrRotated in
    garbage r <= garbage result
    /\ (Page.text r = Page.text result
        \/ exists d, In d [180; 90; 270]%nat
                     /\ Page.text r = Page.text (ocrRotated d)
                     /\ usable (ocrRotated d))
    /\ (Page.empty result = false ->
        (30 <= List.length (Page.text result))%nat ->
        4 # 10 <= garbage result ->
        Page.word_garbage_score r = Some (round2 (garbage r))
        /\ (garbage r < 2 # 10
            \/ forall d, In d [180; 90; 270]%nat -> usable (ocrRotated d) ->
                         garbage r <= garbage (ocrRotated d))).
Proof.
  intros result ocrRotated. cbv zeta. unfold ocrSinglePageWithRetry.
  destruct (Page.empty result) eqn:Ee; cbn [orb].
  { split; [apply Qle_refl|]. split; [left; reflexivity|]. intro X. discriminate X. }
  destruct (Nat.ltb_spec (List.length (Page.text result)) 30) as [Hlen|Hlen].
  { split; [apply Qle_refl|]. split; [left; reflexivity|]. intros _ X. lia. }
  cbv zeta. fold (garbage result).
  destruct (Qltb (garbage result) (4 # 10)) eqn:E4.
  { apply Util.Qltb_lt in E4.
    split; [apply Qle_refl|]. split; [left; reflexivity|].
    intros _ _ X. exfalso. exact (Qlt_not_le _ _ E4 X). }
  pose proof (tryRotations_best ocrRotated [180; 90; 270]%nat result (garbage result)
                result (garbage result) eq_refl (Qle_refl _) (or_introl eq_refl))
    as H.
  cbv zeta in H.
  destruct (tryRotations ocrRotated [180; 90; 270]%nat result (garbage result))
    as [best g].
  cbn [fst snd] in H. destruct H as [H1 [H2 [H3 H4]]].
  assert (Eg : garbage (setScore best (round2 g)) = g).
  { unfold garbage, setScore. cbn [Page.text]. symmetry. exact H1. }
  rewrite Eg. split; [exact H2|]. split.
  - cbn [setScore Page.text].
    destruct H3 as [->|[d [Hin [-> Hu]]]]; [left; reflexivity|].
    right. exists d. repeat split; try assumption; apply Hu.
  - intros _ _ _. split; [reflexivity|exact H4].
Qed.

(** X19. The hybrid merge of a page keeps the page number of the fast-parse
    page and takes its text from one of the two pages. When the OCR page
    carries no stored score, the text kept is the less garbled one: its
    score is not above the score of the fast-parse text, nor above the one
    of a non-empty OCR text, and the OCR text replaces the fast-parse text
    exactly when it is not empty and scores strictly lower. *)
Theorem merge_keeps_the_less_garbled_text :
  forall (ocr fp : Page.t),
    Page.word_garbage_score ocr = None ->
    let m := mergePage (Some ocr) fp in
    Page.page_number m = Page.page_number fp
    /\ garbage m <= garbage fp
    /\ (Page.text ocr <> [] -> garbage m <= garbage ocr)
    /\ (Page.ocr_replaced m = Some true
        <-> Page.text ocr <> [] /\ garbage ocr < garbage fp)
    /\ (Page.ocr_replaced m = Some true -> Page.text m = Page.text ocr)
    /\ (Page.ocr_replaced m = Some false -> Page.text m = Page.text fp).
Proof.
  intros ocr fp Hnone. cbv zeta. unfold mergePage. rewrite Hnone.
  fold (garbage ocr). fold (garbage fp).
  destruct (Page.text ocr) as [|c0 t0] eqn:Et.
  - cbn [List.length Nat.ltb Nat.leb]. unfold garbage at 1 2. cbn [Page.text Page.page_number Page.ocr_replaced].
    fold (garbage fp).
    split; [reflexivity|]. split; [apply Qle_refl|].
    split; [intro X; contradiction X; reflexivity|].
    split; [split; [intro X; discriminate X|intros [X _]; contradiction X; reflexivity]|].
    split; [intro X; discriminate X|reflexivity].
  - cbn [List.length Nat.ltb Nat.leb].
    destruct (Qltb (garbage ocr) (garbage fp)) eqn:E.
    + apply Util.Qltb_lt in E.
      unfold garbage at 1 2 3. cbn [Page.text Page.page_number Page.ocr_replaced].
      rewrite <- Et. fold (garbage ocr). fold (garbage fp).
      split; [reflexivity|]. split; [apply Qlt_le_weak; exact E|].
      split; [intros _; apply Qle_refl|].
      split; [split; [intros _; split; [rewrite Et; discriminate|exact E]|reflexivity]|].
      split; [reflexivity|intro X; discriminate X].
    + apply Util.Qltb_ge in E.
      unfold garbage at 1 2 3. cbn [Page.text Page.page_number Page.ocr_replaced].
      fold (garbage fp).
      split; [reflexivity|]. split; [apply Qle_refl|].
      split; [intros _; exact E|].
      split; [split; [intro X; discriminate X
                     |intros [_ X]; exfalso; exact (Qlt_not_le _ _ X E)]|].
      split; [intro X; discriminate X|reflexivity].
Qed.

Lemma merge_witness :
  Page.page_number (mergePage (Some Samples.ocrPage) Samples.fpPage)
  = Page.page_number Samples.fpPage
  /\ garbage (mergePage (Some Samples.ocrPage) Samples.fpPage) <= garbage Samples.fpPage.
Proof.
  destruct (merge_keeps_the_less_garbled_text Samples.ocrPage Samples.fpPage)
    as [H1 [H2 _]].
  - reflexivity.
  - split; [exact H1|exact H2].
Defined.

End ExtractorProps.

(** ** Hybrid extraction and page splitting *)

Module HybridProps.
Import Profiler Extractor ExtractorInv Hybrid SegmenterInv.

Lemma mergePage_textFrom (ocrResults : list Page.t) (fp : Page.t) :
  textFrom ocrResults fp (mergePage (ocrMapGet ocrResults (Page.page_number fp)) fp).
Proof.
  unfold textFrom, ocrMapGet.
  destruct (List.find _ (rev ocrResults)) as [ocr|] eqn:E.
  - apply find_some in E as [Hin Hn]. apply in_rev in Hin. apply Z.eqb_eq in Hn.
    unfold mergePage. destruct (0 <? _)%nat.
    + destruct (Qltb _ _); cbn [Page.page_number Page.text].
      * split; [reflexivity|]. right. exists ocr. repeat split; assumption.
      * split; [reflexivity|left; reflexivity].
    + split; [reflexivity|left; reflexivity].
  - split; [reflexivity|left; reflexivity].
Qed.

(** X20. The hybrid extraction returns one page per fast-parse page, with
    the same page numbers in the same order; the text of each page is the
    fast-parse text or the text of an OCR result for that page number. The
    pages sent to OCR are those of the routes that need it, and when no
    route needs OCR the fast-parse pages come back unchanged, as method
    [fast-parse]. *)
Theorem hybrid_keeps_the_pages :
  forall (ocrPages : list Z -> list Page.t) (fastParsePages : list Page.t)
         (pageRoutes : list Router.PageRoute),
    let e := extractHybrid ocrPages fastParsePages pageRoutes in
    Forall2 (textFrom (ocrPages (ocr_pages e))) fastParsePages (pages e)
    /\ ocr_pages e = map Router.page (filter Router.needs_ocr pageRoutes)
    /\ (ocr_pages e = [] -> pages e = fastParsePages /\ method e = "fast-parse")
    /\ (ocr_pages e <> [] -> method e = "hybrid").
Proof.
  intros ocrPages fps routes. cbv zeta. unfold extractHybrid.
  destruct (filter Router.needs_ocr routes) as [|r0 rs] eqn:E.
  - cbn [pages ocr_pages method map]. split.
    + induction fps as [|fp rest IH]; constructor; [|exact IH].
      split; [reflexivity|left; reflexivity].
    + split; [reflexivity|]. split; [intros _; split; reflexivity|].
      intro X. contradiction X. reflexivity.
  - cbv zeta. cbn [pages ocr_pages method]. split.
    + induction fps as [|fp rest IH]; cbn [map]; constructor; [|exact IH].
      apply mergePage_textFrom.
    + split; [reflexivity|]. split; [intro X; discriminate X|reflexivity].
Qed.

(** The overall confidence is the average in double precision: two pages of
    confidence 0.95 and 0.6 give 0.77, where the exact average 0.775 would
    be rounded to 0.78. *)
Example hybrid_average_in_doubles :
  overall_confidence
    (extractHybrid (fun _ => [])
                   [Page.mk 1 (js "AUTOS") (95 # 100) false "fast-parse-poppler";
                    Page.mk 2 (js "CONCLUSOS") (6 # 10) false "fast-parse-poppler"]
                   [{| Router.page := 2; Router.pr_method := "ocr-standard";
                       Router.needs_ocr := true;
                       Router.pr_reason := Router.Degraded 45 Profiler.medium |}])
  == 77 # 100
  /\ Num.round2 (((95 # 100) + (6 # 10)) / 2) == 78 # 100.
Proof. split; vm_compute; reflexivity. Qed.

Lemma numbered_numberedFrom {T} (f : nat -> T -> Page.t) (l : list T) (i : nat) :
  (forall k x, Page.page_number (f k x) = Z.of_nat (k + 1)) ->
  numberedFrom (Z.of_nat (i + 1)) (Hybrid.numbered f i l).
Proof.
  intro Hf. revert i. induction l as [|x rest IH]; intro i; cbn [Hybrid.numbered numberedFrom].
  - exact I.
  - split; [apply Hf|].
    replace (Z.of_nat (i + 1) + 1)%Z with (Z.of_nat (S i + 1)) by lia. apply IH.
Qed.

Lemma numbered_length {T U} (f : nat -> T -> U) (l : list T) (i : nat) :
  List.length (Hybrid.numbered f i l) = List.length l.
Proof.
  revert i. induction l as [|x rest IH]; intro i; [reflexivity|].
  cbn [Hybrid.numbered List.length]. rewrite IH. reflexivity.
Qed.

Lemma seq_numberedFrom (f : nat -> Page.t) (s n : nat) :
  (forall k, Page.page_number (f k) = Z.of_nat (k + 1)) ->
  numberedFrom (Z.of_nat (s + 1)) (map f (seq s n)).
Proof.
  intro Hf. revert s. induction n as [|n IH]; intro s; cbn [seq map numberedFrom].
  - exact I.
  - split; [apply Hf|].
    replace (Z.of_nat (s + 1) + 1)%Z with (Z.of_nat (S s + 1)) by lia. apply IH.
Qed.

Lemma split_on_nonempty (sep : N) (s : jsstring) : split_on sep s <> [].
Proof.
  induction s as [|c s IH]; simpl; [discriminate|].
  destruct (c =? sep)%N; [discriminate|].
  destruct (split_on sep s); [contradiction|discriminate].
Qed.

(** X21. [_splitIntoPages] always returns at least one page, and numbers
    the pages 1, 2, 3, ... in order; the even split by length gives exactly
    [pageCount] pages. So the segments of the split pages tile them:
    [_validateCoverage] finds no orphan. *)
Theorem split_pages_are_numbered :
  forall (fullText : jsstring) (pageCount : nat)
         (c : option Classifier.Classification),
    let pages := splitIntoPages fullText pageCount in
    numberedFrom 1 pages
    /\ (1 <= List.length pages)%nat
    /\ ((1 < pageCount)%nat -> fullText <> [] ->
        List.length pages = pageCount
        \/ (List.length pages = List.length (split_on 12%N fullText)
            /\ ofnat pageCount * (8 # 10) <= ofnat (List.length pages)))
    /\ Coverage.validateCoverage (Segmenter.segment pages c) (List.length pages) = [].
Proof.
  intros fullText pageCount c. cbv zeta.
  assert (H : numberedFrom 1 (splitIntoPages fullText pageCount)
              /\ (1 <= List.length (splitIntoPages fullText pageCount))%nat
              /\ ((1 < pageCount)%nat -> fullText <> [] ->
                  List.length (splitIntoPages fullText pageCount) = pageCount
                  \/ (List.length (splitIntoPages fullText pageCount)
                      = List.length (split_on 12%N fullText)
                      /\ ofnat pageCount * (8 # 10)
                         <= ofnat (List.length (splitIntoPages fullText pageCount))))).
  { unfold splitIntoPages. destruct fullText as [|c0 t0].
    - cbn [numberedFrom List.length Page.mk Page.page_number].
      split; [split; [reflexivity|exact I]|]. split; [lia|].
      intros _ X. contradiction X. reflexivity.
    - set (fullText := c0 :: t0).
      destruct (Nat.leb_spec pageCount 1) as [Hle|Hgt].
      + cbn [numberedFrom List.length Page.mk Page.page_number].
        split; [split; [reflexivity|exact I]|]. split; [lia|]. intro X. lia.
      + cbv zeta. destruct (Qgeb _ _) eqn:Eg.
        * split; [apply (numbered_numberedFrom _ _ 0); intros; reflexivity|].
          rewrite numbered_length.
          pose proof (split_on_nonempty 12%N fullText) as Hne.
          split; [destruct (split_on 12%N fullText); [contradiction|simpl; lia]|].
          intros _ _. right. split; [reflexivity|].
          unfold Qgeb in Eg. apply Qle_bool_iff in Eg. exact Eg.
        * split; [apply (seq_numberedFrom _ 0); intros; reflexivity|].
          rewrite length_map, length_seq. split; [lia|]. intros _ _. left. reflexivity. }
  destruct H as [H1 [H2 H3]]. split; [exact H1|]. split; [exact H2|].
  split; [exact H3|].
  apply CoverageProps.segment_no_orphans. exact H1.
Qed.

End HybridProps.

(** ** The quality gate *)

Module QCProps.
Import Coverage QC QCInv.

Lemma statusOf_passed (issues : list Issue) : statusOf issues = passed <-> issues = [].
Proof.
  unfold statusOf. destruct issues as [|i rest]; [simpl; tauto|].
  split; [|discriminate]. cbn [existsb].
  unfold isReject, isFlag. destruct (i_severity i); cbn [orb].
  - discriminate.
  - destruct (existsb _ rest); discriminate.
Qed.

Lemma gateStep_counts (issuesOf : string -> option (list Issue)) (c : Counters)
      (f : IndexFile) :
  let c' := gateStep issuesOf c f in
  (c_passed c' + c_flagged c' + c_rejected c'
   = S (c_passed c + c_flagged c + c_rejected c))%nat
  /\ (c_mislabels c' - c_mislabels c
      <= (c_flagged c' + c_rejected c') - (c_flagged c + c_rejected c))%nat
  /\ (c_mislabels c <= c_mislabels c')%nat
  /\ (c_flagged c + c_rejected c <= c_flagged c' + c_rejected c')%nat
  /\ map (fun r => fst (fst r)) (c_results c')
     = map (fun r => fst (fst r)) (c_results c) ++ [file f].
Proof.
  cbv zeta. unfold gateStep. destruct (issuesOf (file f)) as [issues|].
  - cbn [c_passed c_flagged c_rejected c_mislabels c_results].
    rewrite map_app. cbn [map fst].
    destruct (statusOf issues) eqn:Es.
    + apply statusOf_passed in Es. subst issues. cbn [existsb].
      repeat split; lia.
    + destruct (existsb _ issues); repeat split; lia.
    + destruct (existsb _ issues); repeat split; lia.
  - cbn [c_passed c_flagged c_rejected c_mislabels c_results].
    rewrite map_app. cbn [map fst]. repeat split; lia.
Qed.

Lemma gate_counts (issuesOf : string -> option (list Issue)) (files : list IndexFile)
      (c : Counters) :
  let c' := fold_left (gateStep issuesOf) files c in
  (c_passed c' + c_flagged c' + c_rejected c'
   = List.length files + (c_passed c + c_flagged c + c_rejected c))%nat
  /\ (c_mislabels c' - c_mislabels c
      <= (c_flagged c' + c_rejected c') - (c_flagged c + c_rejected c))%nat
  /\ (c_mislabels c <= c_mislabels c')%nat
  /\ (c_flagged c + c_rejected c <= c_flagged c' + c_rejected c')%nat
  /\ map (fun r => fst (fst r)) (c_results c')
     = map (fun r => fst (fst r)) (c_results c) ++ map file files.
Proof.
  cbv zeta. revert c. induction files as [|f fs IH]; intro c.
  - simpl. rewrite app_nil_r. repeat split; lia.
  - cbn [fold_left List.length map].
    destruct (IH (gateStep issuesOf c f)) as [H1 [H2 [H3 [H4 H5]]]].
    pose proof (gateStep_counts issuesOf c f) as [G1 [G2 [G3 [G4 G5]]]].
    rewrite H5, G5, <- app_assoc. cbn [app]. repeat split; lia.
Qed.

(** X22. The summary of the quality gate counts every file of the index
    exactly once, as passed, flagged or rejected, whether the file is on
    disk or not; the result for the page ranges is not counted. A file with
    a mislabel is never counted as passed, so the mislabels caught are at
    most the flagged and rejected files. The results list the files of the
    index in order, followed by [_page-coverage] when the page ranges have
    issues. *)
Theorem quality_gate_counts_every_file :
  forall (issuesOf : string -> option (list Issue)) (files : list IndexFile)
         (total_pages : nat),
    let s := fst (runQualityGate issuesOf files total_pages) in
    let results := snd (runQualityGate issuesOf files total_pages) in
    total_files s = List.length files
    /\ (s_passed s + s_flagged s + s_rejected s = total_files s)%nat
    /\ (mislabels_caught s <= s_flagged s + s_rejected s)%nat
    /\ map (fun r => fst (fst r)) results
       = map file files
         ++ match validatePageRanges files total_pages with
            | [] => []
            | _ => ["_page-coverage"]
            end.
Proof.
  intros issuesOf files total_pages. cbv zeta. unfold runQualityGate.
  pose proof (gate_counts issuesOf files
                {| c_results := []; c_passed := 0; c_flagged := 0; c_rejected := 0;
                   c_mislabels := 0 |}) as [H1 [H2 [H3 [H4 H5]]]].
  cbn [c_passed c_flagged c_rejected c_mislabels c_results map app] in *.
  cbn [fst snd total_files s_passed s_flagged s_rejected mislabels_caught].
  split; [reflexivity|]. split; [lia|]. split; [lia|].
  destruct (validatePageRanges files total_pages).
  - rewrite app_nil_r. exact H5.
  - rewrite map_app, H5. reflexivity.
Qed.

(** *** Page ranges *)

Lemma memZ_cons (p q : Z) (covered : list Z) :
  p <> q -> memZ p (q :: covered) = memZ p covered.
Proof.
  intro H. unfold memZ. cbn [existsb].
  destruct (Z.eqb_spec p q); [contradiction|reflexivity].
Qed.

Lemma coverFile_spec (f : IndexFile) (l : list Z) (issues : list Issue)
      (covered : list Z) :
  NoDup l ->
  fold_left (fun a p =>
               let '(issues, covered) := a in
               ((if memZ p covered then issues ++ [overlapIssue p f] else issues),
                p :: covered)) l (issues, covered)
  = (issues ++ map (fun p => overlapIssue p f) (filter (fun p => memZ p covered) l),
     rev l ++ covered).
Proof.
  revert issues covered. induction l as [|p l IH]; intros issues covered Hnd.
  - simpl. rewrite app_nil_r. reflexivity.
  - inversion Hnd as [|x l' Hp Hnd']; subst. cbn [fold_left].
    rewrite IH by exact Hnd'. cbn [rev filter]. rewrite <- app_assoc. cbn [app].
    assert (E : filter (fun q => memZ q (p :: covered)) l
                = filter (fun q => memZ q covered) l).
    { apply filter_ext_in. intros q Hq. apply memZ_cons. intros ->. exact (Hp Hq). }
    rewrite E. destruct (memZ p covered).
    + cbn [map]. rewrite <- app_assoc. reflexivity.
    + reflexivity.
Qed.

Lemma cover_spec (files : list IndexFile) (issues : list Issue) (covered : list Z) :
  exists covered',
    fold_left coverFile files (issues, covered)
    = (issues ++ overlapsFrom covered files, covered')
    /\ forall p, In p covered'
                 <-> In p covered \/ exists f, In f files /\ In p (pagesOf f).
Proof.
  revert issues covered. induction files as [|f fs IH]; intros issues covered.
  - exists covered. simpl. rewrite app_nil_r. split; [reflexivity|].
    intro p. split; [tauto|]. intros [H|[f [[] _]]]. exact H.
  - cbn [fold_left overlapsFrom]. unfold coverFile at 2.
    rewrite coverFile_spec by apply CoverageProps.range_NoDup.
    destruct (IH (issues ++ map (fun p => overlapIssue p f)
                                (filter (fun p => memZ p covered) (pagesOf f)))
                 (rev (pagesOf f) ++ covered)) as [covered' [E H]].
    exists covered'. unfold pagesOf in E at 1 2. rewrite E, <- app_assoc.
    split; [reflexivity|]. intro p. rewrite H, in_app_iff, <- in_rev.
    split.
    + intros [[Hp|Hp]|[g [Hg Hp]]].
      * right. exists f. split; [left; reflexivity|exact Hp].
      * left. exact Hp.
      * right. exists g. split; [right; exact Hg|exact Hp].
    + intros [Hp|[g [[<-|Hg] Hp]]].
      * left. right. exact Hp.
      * left. left. exact Hp.
      * right. exists g. split; assumption.
Qed.

Lemma overlapsFrom_nil (covered : list Z) (files : list IndexFile) :
  overlapsFrom covered files = []
  <-> (forall p f, In p covered -> In f files -> ~ In p (pagesOf f))
      /\ disjointRanges files.
Proof.
  revert covered. induction files as [|f fs IH]; intro covered;
    cbn [overlapsFrom disjointRanges].
  - split; [intros _; split; [intros p f _ []|exact I]|reflexivity].
  - split.
    + intro H. apply app_eq_nil in H as [H1 H2]. apply map_eq_nil in H1.
      apply IH in H2 as [H2 H3].
      assert (Hf : forall p, In p covered -> ~ In p (pagesOf f)).
      { intros p Hc Hp.
        assert (Hin : In p (filter (fun q => memZ q covered) (pagesOf f))).
        { apply filter_In. split; [exact Hp|]. apply CoverageProps.memZ_In. exact Hc. }
        rewrite H1 in Hin. exact Hin. }
      split; [|split; [|exact H3]].
      * intros p g Hc [<-|Hg]; [apply Hf; exact Hc|].
        apply H2; [apply in_or_app; right; exact Hc|exact Hg].
      * intros p g Hp Hg. apply H2; [|exact Hg].
        apply in_or_app. left. apply -> in_rev. exact Hp.
    + intros [H1 [H2 H3]].
      assert (E : filter (fun q => memZ q covered) (pagesOf f) = []).
      { apply CoverageProps.filter_nil. intros p Hp.
        destruct (memZ p covered) eqn:Em; [|reflexivity].
        apply CoverageProps.memZ_In in Em. exfalso.
        exact (H1 p f Em (or_introl eq_refl) Hp). }
      rewrite E. cbn [map app]. apply IH. split; [|exact H3].
      intros p g Hc Hg. apply in_app_or in Hc as [Hc|Hc].
      * apply in_rev in Hc. apply H2; assumption.
      * apply H1; [exact Hc|right; exact Hg].
Qed.

(** X23. [validatePageRanges] reports nothing exactly when no page is in the
    ranges of two files and every page from 1 to the page count is in a
    range. Every overlap is a REJECT and every gap a FLAG. *)
Theorem page_ranges_pass_iff_disjoint_and_covering :
  forall (files : list IndexFile) (total_pages : nat),
    (validatePageRanges files total_pages = []
     <-> disjointRanges files /\ covers files total_pages)
    /\ Forall (fun i => (check i = "page-overlap" /\ i_severity i = REJECT)
                        \/ (check i = "page-gap" /\ i_severity i = FLAG))
              (validatePageRanges files total_pages).
Proof.
  intros files total_pages. unfold validatePageRanges.
  destruct (cover_spec files [] []) as [covered' [E H]]. rewrite E. cbn [app].
  split.
  - split.
    + intro X. apply app_eq_nil in X as [X1 X2]. apply map_eq_nil in X2.
      apply overlapsFrom_nil in X1 as [_ X1]. split; [exact X1|].
      intros p Hp.
      assert (Hc : In p covered').
      { destruct (memZ p covered') eqn:Em; [apply CoverageProps.memZ_In; exact Em|].
        exfalso.
        assert (Hin : In p (filter (fun q => negb (memZ q covered'))
                                   (range 1 (Z.of_nat total_pages)))).
        { apply filter_In. split; [apply CoverageProps.range_In; exact Hp|].
          rewrite Em. reflexivity. }
        rewrite X2 in Hin. exact Hin. }
      apply H in Hc as [[]|Hc]. exact Hc.
    + intros [Hd Hc].
      assert (X1 : overlapsFrom [] files = []).
      { apply overlapsFrom_nil. split; [intros p f []|exact Hd]. }
      rewrite X1. cbn [app]. rewrite CoverageProps.filter_nil; [reflexivity|].
      intros p Hp. apply CoverageProps.range_In in Hp. apply negb_false_iff.
      apply CoverageProps.memZ_In. apply H. right. apply Hc. exact Hp.
  - apply Forall_app. split.
    + clear E H. generalize (@nil Z). induction files as [|f fs IH]; intro covered;
        cbn [overlapsFrom]; [constructor|].
      apply Forall_app. split; [|apply IH].
      apply Forall_forall. intros i Hi. apply in_map_iff in Hi as [p [<- _]].
      left. split; reflexivity.
    + apply Forall_forall. intros i Hi. apply in_map_iff in Hi as [p [<- _]].
      right. split; reflexivity.
Qed.

End QCProps.

(** ** Essential pieces *)

Module EssentialProps.
Import Essential EssentialInv.

Lemma filter_partition_length {T} (f : T -> bool) (l : list T) :
  (List.length (filter f l) + List.length (filter (fun x => negb (f x)) l)
   = List.length l)%nat.
Proof.
  induction l as [|x l IH]; [reflexivity|].
  simpl. destruct (f x); simpl; lia.
Qed.

Lemma filter_negb_nil {T} (f : T -> bool) (l : list T) :
  filter (fun x => negb (f x)) l = [] <-> forall x, In x l -> f x = true.
Proof.
  induction l as [|x l IH]; simpl; [split; [intros _ y []|reflexivity]|].
  destruct (f x) eqn:E; simpl.
  - rewrite IH. split.
    + intros H y [<-|Hy]; [exact E|apply H; exact Hy].
    + intros H y Hy. apply H. right. exact Hy.
  - split; [discriminate|]. intro H. specialize (H x (or_introl eq_refl)). congruence.
Qed.

Lemma lookup_expected (processType : string) :
  match lookup processType with
  | Pieces expected => expectedOf processType = expected
  | Inherited _ => expectedOf processType = []
  end.
Proof.
  unfold lookup, expectedOf.
  destruct (List.find _ ESSENTIAL_PIECES); [reflexivity|].
  destruct (List.find _ OBJECT_PROTOTYPE); reflexivity.
Qed.

Lemma lookup_inherited (processType : string) (length : option nat) :
  lookup processType = Inherited length ->
  In (processType, length) OBJECT_PROTOTYPE.
Proof.
  unfold lookup.
  destruct (List.find _ ESSENTIAL_PIECES); [intro X; discriminate X|].
  destruct (List.find _ OBJECT_PROTOTYPE) as [[name l]|] eqn:E;
    [|intro X; discriminate X].
  intro H. injection H as <-. apply find_some in E as [Hin Heq].
  cbn [fst] in Heq. apply String.eqb_eq in Heq. subst name. exact Hin.
Qed.

Lemma pieces_check (foundTypes expected : list string) :
  expected <> [] ->
  let nf := List.length (filter (includes foundTypes) expected) in
  let nm := List.length (filter (fun e => negb (includes foundTypes e)) expected) in
  let n := List.length expected in
  ofnat nf / ofnat n == (ofnat n - ofnat nm) / ofnat n
  /\ 0 <= ofnat nf / ofnat n /\ ofnat nf / ofnat n <= 1
  /\ ((nm =? 0)%nat = true <-> forall e, In e expected -> In e foundTypes)
  /\ ((nm =? 0)%nat = true <-> ofnat nf / ofnat n == 1).
Proof.
  intros Hne. cbv zeta.
  pose proof (filter_partition_length (includes foundTypes) expected) as P.
  set (nf := List.length (filter (includes foundTypes) expected)) in *.
  set (nm := List.length (filter (fun e => negb (includes foundTypes e)) expected)) in *.
  assert (Hn : (0 < List.length expected)%nat)
    by (destruct expected; [contradiction Hne; reflexivity|simpl; lia]).
  set (n := List.length expected) in *.
  assert (Hq : 0 < ofnat n) by (unfold ofnat, Qlt; simpl; lia).
  assert (Hfound : ofnat nf == ofnat n - ofnat nm).
  { unfold ofnat. rewrite <- P, Nat2Z.inj_add, inject_Z_plus. ring. }
  split; [rewrite Hfound; reflexivity|].
  split; [apply ProfilerProps.ratio_ge_0|].
  split; [apply ProfilerProps.ratio_le_1; lia|].
  split.
  - rewrite Nat.eqb_eq. unfold nm. rewrite length_zero_iff_nil, filter_negb_nil.
    split; intros H e He.
    + apply Util.mem_In. apply H. exact He.
    + apply Util.mem_In. apply H. exact He.
  - rewrite Nat.eqb_eq. clearbody nf nm n. split.
    + intro H0. replace nf with n by lia.
      unfold Qdiv. apply Qmult_inv_r.
      intro X. rewrite X in Hq. discriminate Hq.
    + intro H1.
      assert (H2 : ofnat nf == ofnat n).
      { rewrite <- (Qmult_1_l (ofnat n)), <- H1.
        unfold Qdiv. rewrite <- Qmult_assoc, (Qmult_comm (/ ofnat n)), Qmult_inv_r.
        - ring.
        - intro X. rewrite X in Hq. discriminate Hq. }
      unfold ofnat, Qeq in H2. simpl in H2. lia.
Qed.

(** X24. The two implementations of [checkEssentialPieces], in the index
    generator and in the quality gate, behave alike on every process type.
    Both raise a [TypeError] exactly for the nine names that the table
    inherits from [Object.prototype] with a [length] other than 0
    ([constructor], [hasOwnProperty], [__proto__], ...). For every other
    name both return, and they agree on completeness, on the missing pieces
    and on the coverage; the coverage is a number from 0 to 1, and the check
    is complete exactly when every piece that the table lists for the
    process type is among the types found, which is exactly when the
    coverage is 1. *)
Theorem essential_pieces_checks_agree :
  forall (foundTypes : list string) (processType : string),
    (checkEssentialPieces foundTypes processType = None
     <-> In processType notArrays)
    /\ (qcCheckEssentialPieces foundTypes processType = None
        <-> In processType notArrays)
    /\ match checkEssentialPieces foundTypes processType,
             qcCheckEssentialPieces foundTypes processType with
       | Some a, Some b =>
         complete a = qc_complete b
         /\ missing a = qc_missing b
         /\ coverage a == qc_coverage b
         /\ 0 <= coverage a /\ coverage a <= 1
         /\ (complete a = true
             <-> forall e, In e (expectedOf processType) -> In e foundTypes)
         /\ (complete a = true <-> coverage a == 1)
       | None, None => True
       | _, _ => False
       end.
Proof.
  intros foundTypes processType.
  assert (Hraise : forall length,
             lookup processType = Inherited length ->
             length = Some 0%nat \/ In processType notArrays).
  { intros length H. apply lookup_inherited in H.
    unfold OBJECT_PROTOTYPE in H. cbn [In] in H.
    repeat (destruct H as [H|H];
            [injection H as <- <-;
             first [left; reflexivity
                   |right; unfold notArrays; cbn [In]; tauto]|]).
    contradiction H. }
  assert (Hnames : In processType notArrays ->
                   exists length, lookup processType = Inherited length
                                  /\ length <> Some 0%nat).
  { unfold notArrays. cbn [In].
    intros H.
    repeat (destruct H as [H|H];
            [subst processType; eexists; split; [reflexivity|discriminate]|]).
    contradiction H. }
  pose proof (lookup_expected processType) as He.
  unfold checkEssentialPieces, qcCheckEssentialPieces. cbv zeta.
  destruct (lookup processType) as [expected|length] eqn:L.
  - assert (Hno : ~ In processType notArrays).
    { intro H. destruct (Hnames H) as [l [X _]]. discriminate X. }
    destruct expected as [|e0 es].
    + split; [split; [intro X; discriminate X|intro X; contradiction (Hno X)]|].
      split; [split; [intro X; discriminate X|intro X; contradiction (Hno X)]|].
      cbn [complete missing coverage qc_complete qc_missing qc_coverage].
      rewrite He.
      split; [reflexivity|]. split; [reflexivity|]. split; [reflexivity|].
      split; [discriminate|]. split; [discriminate|].
      split; [split; [intros _ e []|reflexivity]|split; reflexivity].
    + split; [split; [intro X; discriminate X|intro X; contradiction (Hno X)]|].
      split; [split; [intro X; discriminate X|intro X; contradiction (Hno X)]|].
      cbn [complete missing coverage qc_complete qc_missing qc_coverage].
      rewrite He.
      destruct (pieces_check foundTypes (e0 :: es)) as [H1 [H2 [H3 [H4 H5]]]];
        [discriminate|].
      cbv zeta in H1, H2, H3, H4, H5.
      split; [reflexivity|]. split; [reflexivity|]. split; [exact H1|].
      split; [exact H2|]. split; [exact H3|]. split; [exact H4|exact H5].
  - destruct (Hraise length eq_refl) as [->|Hin].
    + assert (Hno : ~ In processType notArrays).
      { intro H. destruct (Hnames H) as [l [X Y]].
        injection X as <-. contradiction Y. reflexivity. }
      split; [split; [intro X; discriminate X|intro X; contradiction (Hno X)]|].
      split; [split; [intro X; discriminate X|intro X; contradiction (Hno X)]|].
      cbn [complete missing coverage qc_complete qc_missing qc_coverage].
      rewrite He.
      split; [reflexivity|]. split; [reflexivity|]. split; [reflexivity|].
      split; [discriminate|]. split; [discriminate|].
      split; [split; [intros _ e []|reflexivity]|split; reflexivity].
    + destruct (Hnames Hin) as [l [X Y]]. injection X as <-.
      destruct length as [[|k]|]; [contradiction Y; reflexivity| |];
        (split; [split; [intros _; exact Hin|reflexivity]|]);
        (split; [split; [intros _; exact Hin|reflexivity]|exact I]).
Qed.

Lemma detect_fold (foundTypes : list string) (table : list (string * list string)) :
  forall (bestType : option string) (bestScore : nat),
    let r := fold_left (detectStep foundTypes) table (bestType, bestScore) in
    (bestScore <= snd r)%nat
    /\ (forall entry, In entry table -> (matched foundTypes (snd entry) <= snd r)%nat)
    /\ ((snd r = bestScore /\ fst r = bestType)
        \/ (bestScore < snd r
            /\ exists t expected, fst r = Some t /\ In (t, expected) table
                                  /\ matched foundTypes expected = snd r))%nat.
Proof.
  induction table as [|[t expected] rest IH]; intros bestType bestScore; cbv zeta.
  - cbn [fold_left fst snd]. split; [lia|]. split; [intros entry []|].
    left. split; reflexivity.
  - cbn [fold_left].
    assert (Es : detectStep foundTypes (bestType, bestScore) (t, expected)
                 = if (bestScore <? matched foundTypes expected)%nat
                   then (Some t, matched foundTypes expected)
                   else (bestType, bestScore)) by reflexivity.
    rewrite Es. clear Es.
    destruct (Nat.ltb_spec bestScore (matched foundTypes expected)) as [Hlt|Hge].
    + destruct (IH (Some t) (matched foundTypes expected)) as [H1 [H2 H3]].
      cbv zeta in H1, H2, H3. split; [lia|]. split.
      * intros entry [<-|Hin]; [cbn [snd]; exact H1|apply H2; exact Hin].
      * right. split; [lia|]. destruct H3 as [[H3 H4]|[H3 [t' [e' [H4 [H5 H6]]]]]].
        -- exists t, expected. split; [exact H4|]. split; [left; reflexivity|].
           symmetry. exact H3.
        -- exists t', e'. split; [exact H4|]. split; [right; exact H5|exact H6].
    + destruct (IH bestType bestScore) as [H1 [H2 H3]].
      cbv zeta in H1, H2, H3. split; [exact H1|]. split.
      * intros entry [<-|Hin]; [cbn [snd]; lia|apply H2; exact Hin].
      * destruct H3 as [H3|[H3 [t' [e' [H4 [H5 H6]]]]]]; [left; exact H3|].
        right. split; [exact H3|]. exists t', e'.
        split; [exact H4|]. split; [right; exact H5|exact H6].
Qed.

(** X25. [detectProcessType] answers with a process type whose list of
    essential pieces has the largest number of pieces among the types found,
    and that number is positive; it answers nothing exactly when no
    essential piece of any process type is among the types found. *)
Theorem detectProcessType_picks_a_best_match :
  forall (foundTypes : list string),
    match detectProcessType foundTypes with
    | Some t =>
      exists expected,
        In (t, expected) ESSENTIAL_PIECES
        /\ (0 < matched foundTypes expected)%nat
        /\ forall entry, In entry ESSENTIAL_PIECES ->
                         (matched foundTypes (snd entry)
                          <= matched foundTypes expected)%nat
    | None =>
      forall entry, In entry ESSENTIAL_PIECES -> matched foundTypes (snd entry) = 0%nat
    end.
Proof.
  intro foundTypes. unfold detectProcessType.
  pose proof (detect_fold foundTypes ESSENTIAL_PIECES None 0) as H. cbv zeta in H.
  destruct (fold_left (detectStep foundTypes) ESSENTIAL_PIECES (None, 0%nat))
    as [bestType bestScore].
  cbn [fst snd] in H. destruct H as [_ [H2 H3]].
  destruct (Nat.ltb_spec 0 bestScore) as [Hpos|Hzero].
  - destruct H3 as [[H3 _]|[_ [t [expected [-> [Hin Hm]]]]]]; [lia|].
    exists expected. split; [exact Hin|]. split; [lia|].
    intros entry He. rewrite Hm. apply H2. exact He.
  - intros entry He. specialize (H2 entry He). lia.
Qed.

End EssentialProps.

(** ** Command line and source *)

Module CliProps.
Import Cli CliInv.

Lemma oneOf_spec (a x y : string) : oneOf a x y = true -> a = x \/ a = y.
Proof.
  unfold oneOf. intro H. apply orb_true_iff in H as [H|H];
    apply String.eqb_eq in H; [left|right]; exact H.
Qed.

Lemma oneOf_false (a x y : string) : oneOf a x y = false -> a <> x /\ a <> y.
Proof.
  unfold oneOf. intro H. apply orb_false_iff in H as [H1 H2].
  apply String.eqb_neq in H1, H2. split; assumption.
Qed.

Lemma parsed_refl (args : Args) : parsed [] args args.
Proof.
  unfold parsed, valueFrom, switchFrom.
  split; [intros a []|]. repeat split; intros; auto; intuition.
Qed.

Lemma valueFrom_skip (skipped rest : list string) (before after : option string) :
  valueFrom rest before after -> valueFrom (skipped ++ rest) before after.
Proof.
  intros H v Hv. destruct (H v Hv) as [Hb|[Hd Hin]]; [left; exact Hb|].
  right. split; [exact Hd|apply in_or_app; right; exact Hin].
Qed.

Lemma valueFrom_set (v : string) (skipped rest : list string)
      (before after : option string) :
  startsWithDash v = false -> In v skipped ->
  valueFrom rest (Some v) after -> valueFrom (skipped ++ rest) before after.
Proof.
  intros Hd Hs H w Hw. right. destruct (H w Hw) as [Hb|[Hd' Hin]].
  - injection Hb as <-. split; [exact Hd|apply in_or_app; left; exact Hs].
  - split; [exact Hd'|apply in_or_app; right; exact Hin].
Qed.

Lemma switchFrom_skip (skipped rest : list string) (long short : string)
      (before after : bool) :
  (forall a, In a skipped -> a <> long /\ a <> short) ->
  switchFrom rest long short before after ->
  switchFrom (skipped ++ rest) long short before after.
Proof.
  intros Hs H. unfold switchFrom in *. rewrite H, !in_app_iff. split.
  - intros [Hb|[Hl|Hl]]; auto.
  - intros [Hb|[[Hl|Hl]|[Hl|Hl]]]; auto.
    + destruct (Hs _ Hl) as [X _]. contradiction X. reflexivity.
    + destruct (Hs _ Hl) as [_ X]. contradiction X. reflexivity.
Qed.

Lemma switchFrom_set (a : string) (rest : list string) (long short : string)
      (before after : bool) :
  a = long \/ a = short ->
  switchFrom rest long short true after ->
  switchFrom (a :: rest) long short before after.
Proof.
  intros Ha H. unfold switchFrom in *. rewrite H. cbn [In]. split.
  - intros _. destruct Ha as [->| ->]; auto.
  - intros _. left. reflexivity.
Qed.

Lemma dash_known_cons (a : string) (rest : list string) :
  (startsWithDash a = true -> Classifier.mem a knownOptions = true) ->
  (forall b, In b rest -> startsWithDash b = true ->
             Classifier.mem b knownOptions = true) ->
  forall b, In b (a :: rest) -> startsWithDash b = true ->
            Classifier.mem b knownOptions = true.
Proof. intros Ha Hr b [<-|Hb]; [exact Ha|apply Hr; exact Hb]. Qed.

Lemma not_switch (a : string) (long short : string) :
  startsWithDash a = false -> startsWithDash long = true ->
  startsWithDash short = true -> a <> long /\ a <> short.
Proof. intros Ha Hl Hs. split; intros ->; congruence. Qed.

(** A value option [a] with its value [v], then the rest. *)
Lemma parsed_value (a v : string) (rest : list string) (args0 args1 args : Args) :
  Classifier.mem a knownOptions = true ->
  a <> "--verbose" /\ a <> "-v" -> a <> "--help" /\ a <> "-h" ->
  startsWithDash v = false ->
  verbose args1 = verbose args0 -> help args1 = help args0 ->
  (source args1 = Some v /\ output args1 = output args0 /\ resume args1 = resume args0
   \/ source args1 = source args0 /\ output args1 = Some v /\ resume args1 = resume args0
   \/ source args1 = source args0 /\ output args1 = output args0 /\ resume args1 = Some v) ->
  parsed rest args1 args -> parsed (a :: v :: rest) args0 args.
Proof.
  intros Ka Hv Hh Hd Ev Eh Hset [P1 [P2 [P3 [P4 [P5 P6]]]]].
  assert (Hskip : forall b, In b [a; v] -> True) by auto.
  change (a :: v :: rest) with ([a; v] ++ rest).
  assert (Hin : In v [a; v]) by (right; left; reflexivity).
  unfold parsed. split.
  { cbn [app]. apply dash_known_cons; [intros _; exact Ka|].
    apply dash_known_cons; [intro X; congruence|exact P1]. }
  rewrite Ev in P5. rewrite Eh in P6.
  assert (S5 : switchFrom ([a; v] ++ rest) "--verbose" "-v" (verbose args0) (verbose args)).
  { apply switchFrom_skip; [|exact P5].
    intros b [<-|[<-|[]]]; [exact Hv|apply not_switch; [exact Hd|reflexivity..]]. }
  assert (S6 : switchFrom ([a; v] ++ rest) "--help" "-h" (help args0) (help args)).
  { apply switchFrom_skip; [|exact P6].
    intros b [<-|[<-|[]]]; [exact Hh|apply not_switch; [exact Hd|reflexivity..]]. }
  destruct Hset as [[E1 [E2 E3]]|[[E1 [E2 E3]]|[E1 [E2 E3]]]];
    rewrite E1 in P2; rewrite E2 in P3; rewrite E3 in P4.
  - split; [eapply valueFrom_set; eassumption|].
    split; [apply valueFrom_skip; exact P3|].
    split; [apply valueFrom_skip; exact P4|]. split; assumption.
  - split; [apply valueFrom_skip; exact P2|].
    split; [eapply valueFrom_set; eassumption|].
    split; [apply valueFrom_skip; exact P4|]. split; assumption.
  - split; [apply valueFrom_skip; exact P2|].
    split; [apply valueFrom_skip; exact P3|].
    split; [eapply valueFrom_set; eassumption|]. split; assumption.
Qed.

Lemma parseFrom_parsed (n : nat) :
  forall (rest : list string) (args0 args : Args),
    (List.length rest <= n)%nat ->
    parseFrom rest args0 = inl args -> parsed rest args0 args.
Proof.
  induction n as [|n IH]; intros rest args0 args Hlen.
  - destruct rest; [|simpl in Hlen; lia].
    intro H. injection H as <-. apply parsed_refl.
  - destruct rest as [|a rest']; [intro H; injection H as <-; apply parsed_refl|].
    cbn [List.length] in Hlen. cbn [parseFrom].
    destruct (oneOf a "--source" "-s") eqn:E1.
    { apply oneOf_spec in E1.
      destruct rest' as [|v rest'']; [intro X; discriminate X|].
      destruct (startsWithDash v) eqn:Ev; [intro X; discriminate X|].
      intro H. apply IH in H; [|cbn [List.length] in Hlen; lia].
      eapply parsed_value; [| | |exact Ev| | | |exact H];
        try reflexivity;
        [destruct E1 as [->| ->]; reflexivity
        |destruct E1 as [->| ->]; split; discriminate
        |destruct E1 as [->| ->]; split; discriminate
        |left; repeat split]. }
    destruct (oneOf a "--output" "-o") eqn:E2.
    { apply oneOf_spec in E2.
      destruct rest' as [|v rest'']; [intro X; discriminate X|].
      destruct (startsWithDash v) eqn:Ev; [intro X; discriminate X|].
      intro H. apply IH in H; [|cbn [List.length] in Hlen; lia].
      eapply parsed_value; [| | |exact Ev| | | |exact H];
        try reflexivity;
        [destruct E2 as [->| ->]; reflexivity
        |destruct E2 as [->| ->]; split; discriminate
        |destruct E2 as [->| ->]; split; discriminate
        |right; left; repeat split]. }
    destruct (oneOf a "--resume" "-r") eqn:E3.
    { apply oneOf_spec in E3.
      destruct rest' as [|v rest'']; [intro X; discriminate X|].
      destruct (startsWithDash v) eqn:Ev; [intro X; discriminate X|].
      intro H. apply IH in H; [|cbn [List.length] in Hlen; lia].
      eapply parsed_value; [| | |exact Ev| | | |exact H];
        try reflexivity;
        [destruct E3 as [->| ->]; reflexivity
        |destruct E3 as [->| ->]; split; discriminate
        |destruct E3 as [->| ->]; split; discriminate
        |right; right; repeat split]. }
    destruct (oneOf a "--verbose" "-v") eqn:E4.
    { apply oneOf_spec in E4. intro H. apply IH in H; [|lia].
      destruct H as [P1 [P2 [P3 [P4 [P5 P6]]]]].
      cbn [source output resume verbose help] in *.
      change (a :: rest') with ([a] ++ rest').
      split; [cbn [app]; apply dash_known_cons;
              [intros _; destruct E4 as [->| ->]; reflexivity|exact P1]|].
      split; [apply valueFrom_skip; exact P2|].
      split; [apply valueFrom_skip; exact P3|].
      split; [apply valueFrom_skip; exact P4|].
      split; [cbn [app]; apply switchFrom_set; assumption|].
      apply switchFrom_skip; [|exact P6].
      intros b [<-|[]]. destruct E4 as [->| ->]; split; discriminate. }
    destruct (oneOf a "--help" "-h") eqn:E5.
    { apply oneOf_spec in E5. intro H. apply IH in H; [|lia].
      destruct H as [P1 [P2 [P3 [P4 [P5 P6]]]]].
      cbn [source output resume verbose help] in *.
      change (a :: rest') with ([a] ++ rest').
      split; [cbn [app]; apply dash_known_cons;
              [intros _; destruct E5 as [->| ->]; reflexivity|exact P1]|].
      split; [apply valueFrom_skip; exact P2|].
      split; [apply valueFrom_skip; exact P3|].
      split; [apply valueFrom_skip; exact P4|].
      split; [|cbn [app]; apply switchFrom_set; assumption].
      apply switchFrom_skip; [|exact P5].
      intros b [<-|[]]. destruct E5 as [->| ->]; split; discriminate. }
    destruct (startsWithDash a) eqn:Ea; [intro X; discriminate X|].
    intro H. apply IH in H; [|lia].
    destruct H as [P1 [P2 [P3 [P4 [P5 P6]]]]].
    change (a :: rest') with ([a] ++ rest').
    split; [cbn [app]; apply dash_known_cons; [intro X; congruence|exact P1]|].
    split; [apply valueFrom_skip; exact P2|].
    split; [apply valueFrom_skip; exact P3|].
    split; [apply valueFrom_skip; exact P4|].
    split; (apply switchFrom_skip; [|assumption]);
      intros b [<-|[]]; apply not_switch; try exact Ea; reflexivity.
Qed.

(** X26. When [parseArgs] accepts a command line, every argument that
    starts with a dash is one of the ten known options; the source, the
    output and the resume path, when set, are arguments that do not start
    with a dash; and [verbose] and [help] are on exactly when their option
    is among the arguments. *)
Theorem parseArgs_accepts_only_known_options :
  forall (argv : list string) (args : Args),
    parseArgs argv = inl args ->
    (forall a, In a (skipn 2 argv) -> startsWithDash a = true ->
               Classifier.mem a knownOptions = true)
    /\ (forall v, source args = Some v \/ output args = Some v \/ resume args = Some v ->
                  startsWithDash v = false /\ In v (skipn 2 argv))
    /\ (verbose args = true
        <-> In "--verbose" (skipn 2 argv) \/ In "-v" (skipn 2 argv))
    /\ (help args = true <-> In "--help" (skipn 2 argv) \/ In "-h" (skipn 2 argv)).
Proof.
  intros argv args H. unfold parseArgs in H.
  apply (parseFrom_parsed (List.length (skipn 2 argv))) in H; [|lia].
  destruct H as [P1 [P2 [P3 [P4 [P5 P6]]]]].
  split; [exact P1|]. split.
  - intros v [Hv|[Hv|Hv]];
      [destruct (P2 v Hv) as [X|X]|destruct (P3 v Hv) as [X|X]
       |destruct (P4 v Hv) as [X|X]];
      try discriminate X; exact X.
  - unfold switchFrom in P5, P6. cbn [noArgs verbose help] in P5, P6.
    split; [rewrite P5|rewrite P6]; split; intros; intuition discriminate.
Qed.

Lemma parseArgs_witness :
  (forall a, In a (skipn 2 Samples.commandLine) -> startsWithDash a = true ->
             Classifier.mem a knownOptions = true)
  /\ (forall v, Some "in.pdf" = Some v \/ None = Some v \/ None = Some v ->
                startsWithDash v = false /\ In v (skipn 2 Samples.commandLine))
  /\ (true = true
      <-> In "--verbose" (skipn 2 Samples.commandLine)
          \/ In "-v" (skipn 2 Samples.commandLine))
  /\ (false = true
      <-> In "--help" (skipn 2 Samples.commandLine)
          \/ In "-h" (skipn 2 Samples.commandLine)).
Proof.
  apply (parseArgs_accepts_only_known_options
           Samples.commandLine
           {| source := Some "in.pdf"; output := None; resume := None;
              verbose := true; help := false |}).
  reflexivity.
Defined.

End CliProps.

Module SourceProps.
Import Ingester Source SourceInv.

Lemma pathLeb_total (a b : list N) : pathLeb a b = false -> pathLeb b a = true.
Proof.
  revert b. induction a as [|x a IH]; intros [|y b]; simpl; try discriminate;
    try reflexivity.
  destruct (N.ltb_spec x y); [discriminate|].
  destruct (N.ltb_spec y x); [reflexivity|]. apply IH.
Qed.

Lemma insertName_perm (x : string) (l : list string) :
  Permutation (x :: l) (insertName x l).
Proof.
  induction l as [|y l IH]; simpl; [apply Permutation_refl|].
  destruct (pathLeb _ _); [apply Permutation_refl|].
  eapply perm_trans; [apply perm_swap|]. apply perm_skip. exact IH.
Qed.

Lemma sortNames_perm (l : list string) : Permutation (sortNames l) l.
Proof.
  induction l as [|x l IH]; simpl; [apply perm_nil|].
  eapply perm_trans; [apply Permutation_sym; apply insertName_perm|].
  apply perm_skip. exact IH.
Qed.

Lemma insertName_sorted (x : string) (l : list string) :
  sortedPaths l = true -> sortedPaths (insertName x l) = true.
Proof.
  induction l as [|y l IH]; intro H; [reflexivity|].
  cbn [insertName]. destruct (pathLeb (js x) (js y)) eqn:E.
  - cbn [sortedPaths]. rewrite E. exact H.
  - apply pathLeb_total in E. cbn [sortedPaths] in H.
    destruct l as [|z l'].
    + cbn [insertName sortedPaths]. rewrite E. reflexivity.
    + apply andb_true_iff in H as [Hyz Hs]. specialize (IH Hs).
      cbn [insertName] in *. destruct (pathLeb (js x) (js z)) eqn:Ez.
      * cbn [sortedPaths] in *. rewrite E, Ez. exact Hs.
      * cbn [sortedPaths] in *. rewrite Hyz. exact IH.
Qed.

Lemma sortNames_sorted (l : list string) : sortedPaths (sortNames l) = true.
Proof.
  induction l as [|x l IH]; [reflexivity|].
  cbn [sortNames]. apply insertName_sorted. exact IH.
Qed.

(** X27. For a directory, [detectSource] answers in batch mode with the PDF
    files of the listing, each once, in ascending order of their names
    whatever the order of the listing; it fails exactly when the listing has
    no name that ends in [.pdf] (in any letter case). *)
Theorem detectSource_sorts_the_batch :
  forall (sourcePath : string) (listing : list string),
    batchOf sourcePath listing (detectSource sourcePath (IsDirectory listing)).
Proof.
  intros sourcePath listing. unfold detectSource, batchOf.
  pose proof (sortNames_sorted (filter endsWithPdf listing)) as Hs.
  pose proof (sortNames_perm (filter endsWithPdf listing)) as Hp.
  destruct (sortNames (filter endsWithPdf listing)) as [|n0 ns].
  - apply Permutation_nil. exact Hp.
  - exists (n0 :: ns). split; [reflexivity|]. split; [discriminate|].
    split; [exact Hs|exact Hp].
Qed.

End SourceProps.

(** ** Markdown body and batch report *)

Module BodyProps.
Import Body BodyInv.

Lemma texts_app (a b : list part) : texts (a ++ b) = texts a ++ texts b.
Proof. unfold texts. apply flat_map_app. Qed.

Lemma emptyComments_app (a b : list part) :
  emptyComments (a ++ b) = emptyComments a ++ emptyComments b.
Proof. unfold emptyComments. apply flat_map_app. Qed.

Lemma pageBreaks_app (a b : list part) :
  pageBreaks (a ++ b) = pageBreaks a ++ pageBreaks b.
Proof. unfold pageBreaks. apply flat_map_app. Qed.

Lemma pushPages_texts (rel : list Page.t) :
  forall parts,
    texts (pushPages parts rel)
    = texts parts ++ map Page.text (filter withText rel).
Proof.
  induction rel as [|p rel IH]; intro parts; cbn [pushPages filter map].
  - rewrite app_nil_r. reflexivity.
  - unfold withText at 1. destruct (Page.empty p); cbn [negb].
    + rewrite IH, texts_app, app_nil_r. reflexivity.
    + rewrite IH. destruct parts as [|q parts'].
      * reflexivity.
      * rewrite !texts_app. cbn [map]. rewrite <- !app_assoc. reflexivity.
Qed.

Lemma pushPages_emptyComments (rel : list Page.t) :
  forall parts,
    emptyComments (pushPages parts rel)
    = emptyComments parts ++ map Page.page_number (filter Page.empty rel).
Proof.
  induction rel as [|p rel IH]; intro parts; cbn [pushPages filter map].
  - rewrite app_nil_r. reflexivity.
  - destruct (Page.empty p).
    + rewrite IH, emptyComments_app. cbn [map]. rewrite <- app_assoc. reflexivity.
    + rewrite IH. destruct parts as [|q parts'].
      * reflexivity.
      * rewrite !emptyComments_app, !app_nil_r. reflexivity.
Qed.

Lemma pushPages_pageBreaks (rel : list Page.t) :
  forall parts,
    parts <> [] ->
    pageBreaks (pushPages parts rel)
    = pageBreaks parts ++ map Page.page_number (filter withText rel).
Proof.
  induction rel as [|p rel IH]; intros parts Hne; cbn [pushPages filter map].
  - rewrite app_nil_r. reflexivity.
  - unfold withText at 1. destruct (Page.empty p); cbn [negb].
    + rewrite IH; [|destruct parts; discriminate].
      rewrite pageBreaks_app, app_nil_r. reflexivity.
    + destruct parts as [|q parts']; [contradiction Hne; reflexivity|].
      rewrite IH; [|discriminate].
      rewrite !pageBreaks_app. cbn [map]. rewrite app_nil_r, <- app_assoc.
      reflexivity.
Qed.

Lemma pushPages_head (rel : list Page.t) :
  forall q parts, exists rest, pushPages (q :: parts) rel = q :: rest.
Proof.
  induction rel as [|p rel IH]; intros q parts; cbn [pushPages].
  - exists parts. reflexivity.
  - destruct (Page.empty p); rewrite <- app_comm_cons; apply IH.
Qed.

(** X28. [buildBody] gives the note of missing content exactly when no page
    lies in the range. Otherwise the parts hold the text of every page of
    the range that is not empty, in the order of the pages, a comment for
    every empty one, and a page break before every text page except the
    first page of the range; the body never starts with a page break. *)
Theorem buildBody_keeps_the_texts_of_the_range :
  forall (pages : list Page.t) (pageStart pageEnd : Z),
    let relevantPages := filter (relevant pageStart pageEnd) pages in
    (buildBody pages pageStart pageEnd = None <-> relevantPages = [])
    /\ forall parts,
        buildBody pages pageStart pageEnd = Some parts ->
        texts parts = map Page.text (filter withText relevantPages)
        /\ emptyComments parts
           = map Page.page_number (filter Page.empty relevantPages)
        /\ pageBreaks parts
           = map Page.page_number (filter withText (tl relevantPages))
        /\ (forall n rest, parts <> PageBreak n :: rest).
Proof.
  intros pages pageStart pageEnd. cbv zeta. unfold buildBody.
  generalize (filter (relevant pageStart pageEnd) pages). intros rel.
  destruct rel as [|p rel].
  - split; [split; reflexivity|]. intros parts X. discriminate X.
  - split; [split; intro X; discriminate X|].
    intros parts H.
    assert (E : parts = pushPages [] (p :: rel)) by (injection H as H; symmetry; exact H).
    clear H. rewrite E. clear E parts.
    split; [exact (pushPages_texts (p :: rel) [])|].
    split; [exact (pushPages_emptyComments (p :: rel) [])|].
    cbn [tl pushPages]. destruct (Page.empty p); cbn [app].
    + split; [apply pushPages_pageBreaks; discriminate|].
      intros n rest. destruct (pushPages_head rel (EmptyPageComment (Page.page_number p)) [])
        as [r ->]. discriminate.
    + split; [apply pushPages_pageBreaks; discriminate|].
      intros n rest. destruct (pushPages_head rel (PageText (Page.text p)) [])
        as [r ->]. discriminate.
Qed.

Lemma buildBody_witness :
  exists parts,
    buildBody bodyPages 1 3 = Some parts
    /\ texts parts = [js "AUTOS"; js "CONCLUSOS"]
    /\ emptyComments parts = [1%Z]
    /\ pageBreaks parts = [2%Z; 3%Z].
Proof.
  eexists. split; [reflexivity|].
  destruct (proj2 (buildBody_keeps_the_texts_of_the_range bodyPages 1 3) _ eq_refl)
    as [H1 [H2 [H3 _]]].
  split; [exact H1|]. split; [exact H2|exact H3].
Defined.

End BodyProps.

Module BatchProps.
Import Pipeline ReportSpec ReportInv.

Lemma sum_acc (f : Report -> Z) (l : list Report) :
  forall acc,
    fold_left (fun sum r => (sum + f r)%Z) l acc = (acc + zsum (map f l))%Z.
Proof.
  induction l as [|r l IH]; intro acc; simpl; [lia|]. rewrite IH. lia.
Qed.

Lemma reviewNeeded_spec (run : Run) :
  review_needed (reportOf run) = true <-> hasIssues run.
Proof.
  unfold reportOf, generateReport, hasIssues. cbn [review_needed].
  unfold reviewNeeded. destruct (run_qc run) as [s|].
  - rewrite !orb_true_iff, !Z.ltb_lt. split.
    + intro H. exists s. split; [reflexivity|tauto].
    + intros [s' [E H]]. injection E as <-. tauto.
  - split; [intro X; discriminate X|intros [s [X _]]; discriminate X].
Qed.

(** X29. The batch report of a list of runs counts the runs, sums their
    segment counts, and asks for review exactly when the quality gate of
    some run flagged or rejected a file or caught a mislabel. *)
Theorem batch_report_totals :
  forall (version : string) (runs : list Run) (totalDuration : Z),
    let batch := generateBatchReport version (map reportOf runs) totalDuration in
    field "total_pdfs" batch = Some (JNum (Z.of_nat (List.length runs)))
    /\ field "total_segments" batch = Some (JNum (zsum (map run_segments runs)))
    /\ exists review,
        field "review_needed" batch = Some (JBool review)
        /\ (review = true <-> exists run, In run runs /\ hasIssues run).
Proof.
  intros version runs totalDuration. cbv zeta.
  unfold generateBatchReport, field. cbn [List.find fst snd String.eqb Ascii.eqb Bool.eqb option_map].
  split; [rewrite length_map; reflexivity|]. split.
  - do 2 f_equal. rewrite sum_acc, map_map. cbn [Z.add]. f_equal.
    apply map_ext. intro run. unfold orZero, reportOf, generateReport; cbn [total_segments];
      destruct (Z.eqb_spec (run_segments run) 0); congruence.
  - eexists. split; [reflexivity|]. rewrite existsb_exists. split.
    + intros [r [Hin Hr]]. apply in_map_iff in Hin as [run [<- Hin]].
      exists run. split; [exact Hin|]. apply reviewNeeded_spec. exact Hr.
    + intros [run [Hin Hr]]. exists (reportOf run).
      split; [apply in_map; exact Hin|]. apply reviewNeeded_spec. exact Hr.
Qed.

End BatchProps.

(** ** Stage 3: the route of a whole document *)

Module RoutingProps.
Import Profiler Profiling Router.

Lemma route_without_orientation (text_layer : bool) (r : Z) (t : tier) :
  let d := route {| orientation := None; skew_detected := false;
                    has_text_layer := text_layer; readability_score := r;
                    quality_tier := t |} in
  (exists steps,
      preprocessing d = "auto-rotate" :: steps
      /\ (steps = [] <-> method d = "fast-parse" \/ method d = "manual-review")
      /\ (forall s, In s steps -> engine d = "tesseract"))
  /\ (method d = "fast-parse" <-> text_layer = true /\ (60 <= r)%Z)
  /\ (method d = "manual-review" <-> (r < 20)%Z).
Proof.
  cbv zeta. unfold route.
  cbn [orientation skew_detected has_text_layer readability_score quality_tier
       isNormal negb app].
  destruct text_layer;
    destruct (Z.leb_spec 80 r); destruct (Z.leb_spec 60 r);
    destruct (Z.leb_spec 40 r); destruct (Z.leb_spec 20 r);
    try lia; cbn [andb method engine preprocessing app];
    (split; [eexists; split; [vm_compute; reflexivity|];
             split; [split; intro X; try discriminate X;
                     try (destruct X as [X|X]; discriminate X);
                     try reflexivity; try (left; reflexivity); try (right; reflexivity)
                    |intros s Hs; try reflexivity; destruct Hs]
            |split; split; intro X; try discriminate X; try lia;
             try reflexivity; try (destruct X as [X1 X2]; try discriminate X1; lia);
             try (split; [reflexivity|lia])]).
Qed.

Lemma route_copies_the_scores (p : Profile) :
  d_quality_tier (route p) = quality_tier p
  /\ d_readability_score (route p) = readability_score p.
Proof.
  unfold route.
  destruct (has_text_layer p && (80 <=? readability_score p)%Z);
    [split; reflexivity|].
  destruct (has_text_layer p && (60 <=? readability_score p)%Z);
    [split; reflexivity|].
  destruct (60 <=? readability_score p)%Z; [split; reflexivity|].
  destruct (40 <=? readability_score p)%Z; [split; reflexivity|].
  destruct (20 <=? readability_score p)%Z; split; reflexivity.
Qed.

(** X30. Stage 3 routes a document by the profile that
    [aggregatePageProfiles] builds, which carries no orientation: the
    preprocessing of the decision always starts with [auto-rotate], and has
    further steps only for the OCR methods. The method is [fast-parse]
    exactly when the document has a clean page and a median readability of
    60 or more, and [manual-review] exactly when the median is below 20, as
    for a document without pages. *)
Theorem document_route_of_aggregate :
  forall (pageProfiles : list PageProfile.t) (filePath : string),
    let d := aggregatePageProfiles pageProfiles filePath in
    let r := route (ofDocument d) in
    (exists steps,
        preprocessing r = "auto-rotate" :: steps
        /\ (steps = [] <-> method r = "fast-parse" \/ method r = "manual-review")
        /\ (forall s, In s steps -> engine r = "tesseract"))
    /\ (method r = "fast-parse"
        <-> (0 < DocumentProfile.clean_count d)%nat
            /\ (60 <= DocumentProfile.readability_score d)%Z)
    /\ (method r = "manual-review" <-> (DocumentProfile.readability_score d < 20)%Z)
    /\ (pageProfiles = [] -> method r = "manual-review")
    /\ d_quality_tier r = getQualityTier (d_readability_score r).
Proof.
  intros pageProfiles filePath. cbv zeta. unfold ofDocument.
  pose proof (route_without_orientation
                (DocumentProfile.has_text_layer (aggregatePageProfiles pageProfiles filePath))
                (DocumentProfile.readability_score (aggregatePageProfiles pageProfiles filePath))
                (DocumentProfile.quality_tier (aggregatePageProfiles pageProfiles filePath)))
    as [H1 [H2 H3]].
  split; [exact H1|]. split; [|split; [exact H3|]].
  - rewrite H2. destruct pageProfiles as [|p0 ps].
    + cbn. split; [intros [X _]; discriminate X|intros [X _]; lia].
    + unfold aggregatePageProfiles. cbv beta iota zeta.
      cbn [DocumentProfile.has_text_layer DocumentProfile.clean_count
           DocumentProfile.readability_score].
      split; intros [X Y]; (split; [|exact Y]).
      * apply (proj1 (Nat.ltb_lt _ _)). exact X.
      * apply (proj2 (Nat.ltb_lt _ _)). exact X.
  - split.
    + intros ->. apply H3. cbn. lia.
    + destruct (route_copies_the_scores
                  {| orientation := None; skew_detected := false;
                     has_text_layer :=
                       DocumentProfile.has_text_layer
                         (aggregatePageProfiles pageProfiles filePath);
                     readability_score :=
                       DocumentProfile.readability_score
                         (aggregatePageProfiles pageProfiles filePath);
                     quality_tier :=
                       DocumentProfile.quality_tier
                         (aggregatePageProfiles pageProfiles filePath) |})
        as [-> ->].
      cbn [quality_tier readability_score].
      destruct pageProfiles as [|p0 ps]; reflexivity.
Qed.

End RoutingProps.
